(** * RasteriCEr: the display-list renderer ([lib/gl/Renderer.hpp])

    A shallow embedding of the host-side driver [Renderer] and the
    properties of its frame pipeline: the command encoder that fills the
    back display list, [commit], and the band walker [uploadDisplayList]
    that replays the front list once per display line.

    Machine integers are [Z] with the wrap-around written out, the two
    display lists and the upload list are arenas of typed cells keyed by
    byte offset, the bus connector is an oracle for [clearToSend] together
    with the log of everything handed to the bus, and code that may
    dereference a null pointer or spin forever runs in the [Outcome]
    monad. *)

From stdpp Require Import base option list gmap.
From Stdlib Require Import ZArith Lia Bool.

Open Scope Z_scope.

(** ** Fixed-width integers *)

Definition u8 (x : Z) : Z := x mod 2 ^ 8.
Definition u16 (x : Z) : Z := x mod 2 ^ 16.
Definition u32 (x : Z) : Z := x mod 2 ^ 32.
(** Conversion to [int32_t] (two's complement). *)
Definition i32 (x : Z) : Z := (x + 2 ^ 31) mod 2 ^ 32 - 2 ^ 31.

(** ** Outcome of code that can fault or spin

    [Undefined] stands for undefined behaviour of the C++ source (a null
    pointer is dereferenced, or memory is read at a type it was not written
    at); [OutOfFuel] for a loop that did not finish within the fuel given
    to it. *)

Inductive Outcome (A : Type) : Type :=
  | Ok (a : A)
  | Undefined
  | OutOfFuel.
Arguments Ok {A} a.
Arguments Undefined {A}.
Arguments OutOfFuel {A}.

#[export] Instance Outcome_ret : MRet Outcome := fun _ a => Ok a.
#[export] Instance Outcome_bind : MBind Outcome := fun _ _ f m =>
  match m with
  | Ok a => f a
  | Undefined => Undefined
  | OutOfFuel => OutOfFuel
  end.

(** Dereferencing a pointer that may be null. *)
Definition deref {A : Type} (p : option A) : Outcome A :=
  match p with
  | Some a => Ok a
  | None => Undefined
  end.

(** The test [if (p)] on a pointer. *)
Definition nonnull {A : Type} (p : option A) : bool :=
  match p with
  | Some _ => true
  | None => false
  end.

(** What a method of the public interface hands back to its caller. *)
Inductive Ret : Type :=
  | RVoid
  | RBool (b : bool).

(** ** The display list ([DisplayList.hpp]) *)

Module DisplayList.

(** Modelled from the spec: the three states of a list,
    [FREE -> QUEUED -> TRANSFERRING -> FREE]. *)
Inductive State : Type := FREE | QUEUED | TRANSFERRING.

(** Modelled from the spec: the comparison [state == s]. *)
Definition State_eqb (a b : State) : bool :=
  match a, b with
  | FREE, FREE | QUEUED, QUEUED | TRANSFERRING, TRANSFERRING => true
  | _, _ => false
  end.

(** Modelled from the spec: [DisplayList.hpp] is not part of the sources
    at hand.  The arena is [{ storage, write_pos, read_pos, state }]; the
    storage holds typed cells [C], each keyed by the byte offset at which
    it starts.  The capacity and the alignment are the template
    parameters of the class and are passed to the operations that use
    them. *)
Record t (C : Type) : Type := mk {
  mem : gmap Z C;
  writePos : Z;
  readPos : Z;
  state : State
}.
Arguments mk {C} _ _ _ _.
Arguments mem {C} _.
Arguments writePos {C} _.
Arguments readPos {C} _.
Arguments state {C} _.

Section Ops.
Context {C : Type}.
Implicit Types l : t C.

Definition set_mem (m : gmap Z C) l : t C :=
  mk m (writePos l) (readPos l) (state l).
Definition set_writePos (p : Z) l : t C :=
  mk (mem l) p (readPos l) (state l).
Definition set_readPos (p : Z) l : t C :=
  mk (mem l) (writePos l) p (state l).
Definition set_state (s : State) l : t C :=
  mk (mem l) (writePos l) (readPos l) s.

(** Modelled from the spec: [sizeOf<T>()] is [T]'s size rounded up to
    the alignment. *)
Definition sizeOf (align raw : Z) : Z := (raw + align - 1) / align * align.

(** Modelled from the spec: [create<T>()]: if
    [write_pos + sizeof_aligned<T>() <= capacity], reserve that many
    bytes, advance [write_pos] and return a view (here: the offset of
    the record); else return none. *)
Definition create (cap size : Z) l : option Z * t C :=
  if writePos l + size <=? cap
  then (Some (writePos l), set_writePos (writePos l + size) l)
  else (None, l).

(** Modelled from the spec: [remove<T>()] rolls [write_pos] back by
    [sizeof_aligned<T>()]; [write_pos] is a [u32]. *)
Definition remove (size : Z) l : t C :=
  set_writePos (u32 (writePos l - size)) l.

(** Modelled from the spec: [getNext<T>()]: if
    [read_pos + sizeof_aligned<T>() <= write_pos], return a view and
    advance [read_pos]; else none. *)
Definition getNext (size : Z) l : option Z * t C :=
  if readPos l + size <=? writePos l
  then (Some (readPos l), set_readPos (readPos l + size) l)
  else (None, l).

(** Modelled from the spec: [resetGet()]: [read_pos <- 0]. *)
Definition resetGet l : t C := set_readPos 0 l.

(** Modelled from the spec: [atEnd()]: [read_pos == write_pos]. *)
Definition atEnd l : bool := readPos l =? writePos l.

(** Modelled from the spec: [clear()]:
    [read_pos <- 0; write_pos <- 0; state <- FREE]. *)
Definition clear l : t C := mk (mem l) 0 0 FREE.

(** Modelled from the spec: [enqueue()] requires [state == FREE] and
    sets [state <- QUEUED]; where the requirement does not hold the
    list is left as it is. *)
Definition enqueue l : t C :=
  match state l with
  | FREE => set_state QUEUED l
  | _ => l
  end.

(** Modelled from the spec: [transfer()] requires [state == QUEUED]
    and sets [state <- TRANSFERRING]. *)
Definition transfer l : t C :=
  match state l with
  | QUEUED => set_state TRANSFERRING l
  | _ => l
  end.

(** Modelled from the spec: [getFreeSpace()] and [getSize()], both
    [u32]: the bytes left behind [write_pos] and the bytes in front of
    it. *)
Definition getFreeSpace (cap : Z) l : Z := u32 (cap - writePos l).
Definition getSize l : Z := writePos l.

(** Modelled from the spec: writing and reading through a view handed
    out by [create] or [getNext]. *)
Definition store (off : Z) (c : C) l : t C := set_mem (<[off := c]> (mem l)) l.
Definition load (off : Z) l : option C := mem l !! off.

(** Modelled from the spec: its invariant
    [read_pos <= write_pos <= capacity]. *)
Definition wf (cap : Z) l : Prop :=
  0 <= readPos l /\ readPos l <= writePos l /\ writePos l <= cap.

End Ops.
End DisplayList.

(** ** Data of the renderer *)

(** [Vec4i] (from [Vec.hpp]): four integer channels, indexed 0 to 3. *)
Record Vec4i : Type := mkVec4i { ch0 : Z; ch1 : Z; ch2 : Z; ch3 : Z }.

(** Modelled from the spec: [Vec.hpp] is not part of the sources at hand;
    [operator>>=] shifts each channel right. *)
Definition Vec4i_shr (v : Vec4i) (n : Z) : Vec4i :=
  mkVec4i (Z.shiftr (ch0 v) n) (Z.shiftr (ch1 v) n)
          (Z.shiftr (ch2 v) n) (Z.shiftr (ch3 v) n).

(** [Rasterizer::RasterizedTriangle]: opaque to the renderer except for the
    static colour it sets; [G] is whatever else the rasterizer keeps in it. *)
Record RasterizedTriangle (G : Type) : Type := mkTriangle {
  triangleData : G;
  triangleStaticColor : Z
}.
Arguments mkTriangle {G} _ _.
Arguments triangleData {G} _.
Arguments triangleStaticColor {G} _.

(** A pointer to [uint16_t] pixels is a byte address; [p + n] moves it by
    [n] elements. *)
Definition ptr_add (p n : Z) : Z := p + 2 * n.

Record TextureStreamArg : Type := mkTextureStreamArg {
  pixels : Z;
  remainingPixels : Z
}.

(** The enumerations of [IRenderer.hpp] ([TestFunc], [BlendFunc],
    [TexEnvParam], ...) appear as their numeric encodings. *)
Record ConfReg1 : Type := mkConfReg1 {
  enableDepthTest : bool;
  depthFunc : Z;
  alphaFunc : Z;
  referenceAlphaValue : Z;
  depthMask : bool;
  colorMaskA : bool;
  colorMaskB : bool;
  colorMaskG : bool;
  colorMaskR : bool
}.

Record ConfReg2 : Type := mkConfReg2 {
  perspectiveCorrectedTextures : bool;
  texEnvFunc : Z;
  blendFuncSFactor : Z;
  blendFuncDFactor : Z;
  texClampS : bool;
  texClampT : bool
}.

(** What a display list holds: the records the renderer creates in it. *)
Inductive Cell (G : Type) : Type :=
  | CCommand (op : Z)
  | CTriangle (t : RasterizedTriangle G)
  | CTexture (a : TextureStreamArg)
  | CU16 (v : Z)
  | CConfReg1 (c : ConfReg1)
  | CConfReg2 (c : ConfReg2).
Arguments CCommand {G} op.
Arguments CTriangle {G} t.
Arguments CTexture {G} a.
Arguments CU16 {G} v.
Arguments CConfReg1 {G} c.
Arguments CConfReg2 {G} c.

(** ** The bus connector ([IBusConnector.hpp])

    The interface is abstract in the source.  [clearToSend] is answered by
    an oracle indexed by the number of polls so far; the two output
    operations are logged in the order of the calls. *)

Inductive Source (G : Type) : Type :=
  | FromPixels (addr : Z)
  | FromUploadList (storage : gmap Z (Cell G)).
Arguments FromPixels {G} addr.
Arguments FromUploadList {G} storage.

Inductive BusEvent (G : Type) : Type :=
  | EvWriteData (src : Source G) (len : Z)
  | EvStartColorBufferTransfer (index : Z).
Arguments EvWriteData {G} src len.
Arguments EvStartColorBufferTransfer {G} index.

Record Bus (G : Type) : Type := mkBus {
  ready : nat -> bool;
  polls : nat;
  log : list (BusEvent G)
}.
Arguments mkBus {G} _ _ _.
Arguments ready {G} _ _.
Arguments polls {G} _.
Arguments log {G} _.

Definition clearToSend {G} (b : Bus G) : bool * Bus G :=
  (ready b (polls b), mkBus (ready b) (S (polls b)) (log b)).
Definition writeData {G} (src : Source G) (len : Z) (b : Bus G) : Bus G :=
  mkBus (ready b) (polls b) (log b ++ [EvWriteData src len]).
Definition startColorBufferTransfer {G} (index : Z) (b : Bus G) : Bus G :=
  mkBus (ready b) (polls b) (log b ++ [EvStartColorBufferTransfer index]).

(** ** What the renderer is instantiated with

    The template parameters of [Renderer], the rasterizer it calls, and the
    sizes and constants that come from headers outside [Renderer.hpp]. *)

Class Target : Type := {
  (** template parameters: [uint32_t], [uint16_t], [uint16_t], [uint16_t] *)
  DISPLAY_LIST_SIZE : Z;
  DISPLAY_LINES : Z;
  LINE_RESOLUTION : Z;
  BUS_WIDTH : Z;
  (** [Vec.hpp] *)
  Vec4 : Type;
  Vec2 : Type;
  (** [Rasterizer.hpp] *)
  TriangleData : Type;
  sizeof_RasterizedTriangle : Z;
  rasterize : Vec4 -> Vec2 -> Vec4 -> Vec2 -> Vec4 -> Vec2 ->
              bool * RasterizedTriangle TriangleData;
  calcLineIncrement : RasterizedTriangle TriangleData -> Z -> Z ->
                      bool * RasterizedTriangle TriangleData;
  (** [sizeof(TextureStreamArg)]: a pointer and an [int32_t] *)
  sizeof_TextureStreamArg : Z;
  (** [IRenderer.hpp] *)
  TextureWrapMode_CLAMP_TO_EDGE : Z;
  TestFunc_LESS : Z;
  TestFunc_ALWAYS : Z;
  TexEnvTarget_TEXTURE_ENV : Z;
  TexEnvParamName_TEXTURE_ENV_MODE : Z;
  TexEnvParam_MODULATE : Z;
  BlendFunc_ONE : Z;
  BlendFunc_ZERO : Z;
  LogicOp_COPY : Z
}.

(** ** The renderer ([Renderer.hpp]) *)

Section Renderer.
Context `{T : Target}.

Definition HARDWARE_BUFFER_SIZE : Z := 2048.

(** [List = DisplayList<DISPLAY_LIST_SIZE, BUS_WIDTH / 8>] and
    [ListUpload = DisplayList<HARDWARE_BUFFER_SIZE, BUS_WIDTH / 8>]; both
    hold the same kind of cells and differ in capacity. *)
Definition ALIGNMENT : Z := BUS_WIDTH / 8.
Definition List : Type := DisplayList.t (Cell TriangleData).
Definition ListUpload : Type := DisplayList.t (Cell TriangleData).

(** [sizeOf<T>()] for the types the renderer puts into a list. *)
Definition sizeOf_SCT : Z := DisplayList.sizeOf ALIGNMENT 2.
Definition sizeOf_u16 : Z := DisplayList.sizeOf ALIGNMENT 2.
Definition sizeOf_ConfReg1 : Z := DisplayList.sizeOf ALIGNMENT 2.
Definition sizeOf_ConfReg2 : Z := DisplayList.sizeOf ALIGNMENT 2.
Definition sizeOf_TextureStreamArg : Z :=
  DisplayList.sizeOf ALIGNMENT sizeof_TextureStreamArg.
Definition sizeOf_RasterizedTriangle : Z :=
  DisplayList.sizeOf ALIGNMENT sizeof_RasterizedTriangle.

Definition sizeOfCell (c : Cell TriangleData) : Z :=
  match c with
  | CCommand _ => sizeOf_SCT
  | CTriangle _ => sizeOf_RasterizedTriangle
  | CTexture _ => sizeOf_TextureStreamArg
  | CU16 _ => sizeOf_u16
  | CConfReg1 _ => sizeOf_ConfReg1
  | CConfReg2 _ => sizeOf_ConfReg2
  end.

(** *** [struct StreamCommand] *)

Definition STREAM_COMMAND_OP_MASK : Z := 0xf000.
Definition STREAM_COMMAND_IMM_MASK : Z := 0x0fff.
Definition TRIANGLE_SIZE_ALIGNED : Z := u16 sizeOf_RasterizedTriangle.

Definition NOP : Z := 0x0000.
Definition TEXTURE_STREAM : Z := 0x1000.
Definition SET_REG : Z := 0x2000.
Definition FRAMEBUFFER_OP : Z := 0x3000.
Definition TRIANGLE_STREAM : Z := 0x4000.

Definition TEXTURE_STREAM_32x32 : Z := Z.lor TEXTURE_STREAM 0x0011.
Definition TEXTURE_STREAM_64x64 : Z := Z.lor TEXTURE_STREAM 0x0022.
Definition TEXTURE_STREAM_128x128 : Z := Z.lor TEXTURE_STREAM 0x0044.
Definition TEXTURE_STREAM_256x256 : Z := Z.lor TEXTURE_STREAM 0x0088.

Definition SET_COLOR_BUFFER_CLEAR_COLOR : Z := Z.lor SET_REG 0x0000.
Definition SET_DEPTH_BUFFER_CLEAR_DEPTH : Z := Z.lor SET_REG 0x0001.
Definition SET_CONF_REG1 : Z := Z.lor SET_REG 0x0002.
Definition SET_CONF_REG2 : Z := Z.lor SET_REG 0x0003.
Definition SET_TEX_ENV_COLOR : Z := Z.lor SET_REG 0x0004.

Definition FRAMEBUFFER_COMMIT : Z := Z.lor FRAMEBUFFER_OP 0x0001.
Definition FRAMEBUFFER_MEMSET : Z := Z.lor FRAMEBUFFER_OP 0x0002.
Definition FRAMEBUFFER_COLOR : Z := Z.lor FRAMEBUFFER_OP 0x0010.
Definition FRAMEBUFFER_DEPTH : Z := Z.lor FRAMEBUFFER_OP 0x0020.

Definition TRIANGLE_FULL : Z := Z.lor TRIANGLE_STREAM TRIANGLE_SIZE_ALIGNED.

(** *** The members of the class

    [m_displayList] is an array of two lists; [m_frontList] and
    [m_backList] are indices into it and only ever hold 0 or 1.  The bus
    connector the renderer refers to is part of the state. *)

Record Renderer : Type := mkRenderer {
  m_displayList_0 : List;
  m_displayList_1 : List;
  m_displayListUpload : ListUpload;
  m_frontList : Z;
  m_backList : Z;
  m_uploadIndexPosition : Z;
  m_textureStreamArg : TextureStreamArg;
  m_busConnector : Bus TriangleData;
  m_staticTriangleColor : Z;
  m_confReg1 : ConfReg1;
  m_confReg2 : ConfReg2
}.

Implicit Types r : Renderer.

Definition m_displayList (i : Z) r : List :=
  if i =? 0 then m_displayList_0 r else m_displayList_1 r.

Definition set_m_displayList (i : Z) (l : List) r : Renderer :=
  if i =? 0
  then mkRenderer l (m_displayList_1 r) (m_displayListUpload r)
         (m_frontList r) (m_backList r) (m_uploadIndexPosition r)
         (m_textureStreamArg r) (m_busConnector r) (m_staticTriangleColor r)
         (m_confReg1 r) (m_confReg2 r)
  else mkRenderer (m_displayList_0 r) l (m_displayListUpload r)
         (m_frontList r) (m_backList r) (m_uploadIndexPosition r)
         (m_textureStreamArg r) (m_busConnector r) (m_staticTriangleColor r)
         (m_confReg1 r) (m_confReg2 r).

Definition set_m_displayListUpload (l : ListUpload) r : Renderer :=
  mkRenderer (m_displayList_0 r) (m_displayList_1 r) l
    (m_frontList r) (m_backList r) (m_uploadIndexPosition r)
    (m_textureStreamArg r) (m_busConnector r) (m_staticTriangleColor r)
    (m_confReg1 r) (m_confReg2 r).

Definition set_lists (front back : Z) r : Renderer :=
  mkRenderer (m_displayList_0 r) (m_displayList_1 r) (m_displayListUpload r)
    front back (m_uploadIndexPosition r)
    (m_textureStreamArg r) (m_busConnector r) (m_staticTriangleColor r)
    (m_confReg1 r) (m_confReg2 r).

Definition set_m_uploadIndexPosition (i : Z) r : Renderer :=
  mkRenderer (m_displayList_0 r) (m_displayList_1 r) (m_displayListUpload r)
    (m_frontList r) (m_backList r) i
    (m_textureStreamArg r) (m_busConnector r) (m_staticTriangleColor r)
    (m_confReg1 r) (m_confReg2 r).

Definition set_m_textureStreamArg (a : TextureStreamArg) r : Renderer :=
  mkRenderer (m_displayList_0 r) (m_displayList_1 r) (m_displayListUpload r)
    (m_frontList r) (m_backList r) (m_uploadIndexPosition r)
    a (m_busConnector r) (m_staticTriangleColor r)
    (m_confReg1 r) (m_confReg2 r).

Definition set_m_busConnector (b : Bus TriangleData) r : Renderer :=
  mkRenderer (m_displayList_0 r) (m_displayList_1 r) (m_displayListUpload r)
    (m_frontList r) (m_backList r) (m_uploadIndexPosition r)
    (m_textureStreamArg r) b (m_staticTriangleColor r)
    (m_confReg1 r) (m_confReg2 r).

Definition set_m_confReg1 (c : ConfReg1) r : Renderer :=
  mkRenderer (m_displayList_0 r) (m_displayList_1 r) (m_displayListUpload r)
    (m_frontList r) (m_backList r) (m_uploadIndexPosition r)
    (m_textureStreamArg r) (m_busConnector r) (m_staticTriangleColor r)
    c (m_confReg2 r).

Definition set_m_confReg2 (c : ConfReg2) r : Renderer :=
  mkRenderer (m_displayList_0 r) (m_displayList_1 r) (m_displayListUpload r)
    (m_frontList r) (m_backList r) (m_uploadIndexPosition r)
    (m_textureStreamArg r) (m_busConnector r) (m_staticTriangleColor r)
    (m_confReg1 r) c.

(** [m_displayList[m_backList]] and [m_displayList[m_frontList]]. *)
Definition backList r : List := m_displayList (m_backList r) r.
Definition frontList r : List := m_displayList (m_frontList r) r.
Definition set_backList (l : List) r : Renderer :=
  set_m_displayList (m_backList r) l r.
Definition set_frontList (l : List) r : Renderer :=
  set_m_displayList (m_frontList r) l r.

(** *** [convertColor] *)

Definition convertColor (color : Vec4i) : Z :=
  let colorShift := Vec4i_shr color 4 in
  u16 (Z.lor (Z.lor (Z.lor (Z.shiftl (u16 (ch3 colorShift)) 0)
                           (Z.shiftl (u16 (ch2 colorShift)) 4))
                    (Z.shiftl (u16 (ch1 colorShift)) 8))
             (Z.shiftl (u16 (ch0 colorShift)) 12)).

(** *** [appendStreamCommand]

    The type [TArg] of the source is the kind of the cell [arg]; its aligned
    size is [sizeOfCell arg].  [cap] is the capacity of the list type. *)

Definition appendStreamCommand (cap : Z) (displayList : List) (op : Z)
    (arg : Cell TriangleData) : bool * List :=
  let '(opDl, l1) := DisplayList.create cap sizeOf_SCT displayList in
  let '(argDl, l2) := DisplayList.create cap (sizeOfCell arg) l1 in
  match opDl, argDl with
  | Some pOp, Some pArg =>
      (true, DisplayList.store pArg arg (DisplayList.store pOp (CCommand op) l2))
  | _, _ =>
      let l3 := if nonnull opDl then DisplayList.remove sizeOf_SCT l2 else l2 in
      let l4 :=
        if nonnull argDl then DisplayList.remove (sizeOfCell arg) l3 else l3 in
      (* Out of memory error *)
      (false, l4)
  end.

(** The overload that appends to [m_displayList[m_backList]]. *)
Definition appendStreamCommand_back (op : Z) (arg : Cell TriangleData) r
    : bool * Renderer :=
  let '(b, l) := appendStreamCommand DISPLAY_LIST_SIZE (backList r) op arg in
  (b, set_backList l r).

Definition hasEnoughSpace (cap : Z) (displayList : ListUpload) : bool :=
  u32 (sizeOf_SCT + sizeOf_RasterizedTriangle)
    <=? DisplayList.getFreeSpace cap displayList.

(** *** The command encoder *)

Definition clear (colorBuffer depthBuffer : bool) r : Ret * Renderer :=
  let opColorBuffer := Z.lor FRAMEBUFFER_MEMSET FRAMEBUFFER_COLOR in
  let opDepthBuffer := Z.lor FRAMEBUFFER_MEMSET FRAMEBUFFER_DEPTH in
  let '(op, l) := DisplayList.create DISPLAY_LIST_SIZE sizeOf_SCT (backList r) in
  match op with
  | Some p =>
      let v :=
        if colorBuffer && depthBuffer then Z.lor opColorBuffer opDepthBuffer
        else if colorBuffer then opColorBuffer
        else if depthBuffer then opDepthBuffer
        else NOP in
      (RBool true, set_backList (DisplayList.store p (CCommand v) l) r)
  | None => (RBool false, set_backList l r)
  end.

Definition useTexture (pixels texWidth texHeight : Z) r : Ret * Renderer :=
  (* Right now only support for square textures *)
  if negb (texWidth =? texHeight) then (RBool false, r)
  else
    let op :=
      if texWidth =? 256 then Some TEXTURE_STREAM_256x256
      else if texWidth =? 128 then Some TEXTURE_STREAM_128x128
      else if texWidth =? 64 then Some TEXTURE_STREAM_64x64
      else if texWidth =? 32 then Some TEXTURE_STREAM_32x32
      else None in
    match op with
    | None => (RBool false, r) (* Not supported texture format *)
    | Some op =>
        let tsa := mkTextureStreamArg pixels (i32 (texWidth * texHeight)) in
        let '(b, r') := appendStreamCommand_back op (CTexture tsa) r in
        (RBool b, r')
    end.

Definition setClearColor (color : Vec4i) r : Ret * Renderer :=
  let '(b, r') :=
    appendStreamCommand_back SET_COLOR_BUFFER_CLEAR_COLOR
      (CU16 (convertColor color)) r in
  (RBool b, r').

Definition setClearDepth (depth : Z) r : Ret * Renderer :=
  let '(b, r') :=
    appendStreamCommand_back SET_DEPTH_BUFFER_CLEAR_DEPTH (CU16 depth) r in
  (RBool b, r').

(** Every setter of a configuration register first updates the copy the
    renderer keeps and then appends the whole register. *)
Definition emitConfReg1 r : Ret * Renderer :=
  let '(b, r') :=
    appendStreamCommand_back SET_CONF_REG1 (CConfReg1 (m_confReg1 r)) r in
  (RBool b, r').

Definition emitConfReg2 r : Ret * Renderer :=
  let '(b, r') :=
    appendStreamCommand_back SET_CONF_REG2 (CConfReg2 (m_confReg2 r)) r in
  (RBool b, r').

Definition setDepthMask (flag : bool) r : Ret * Renderer :=
  let c := m_confReg1 r in
  emitConfReg1 (set_m_confReg1
    (mkConfReg1 (enableDepthTest c) (depthFunc c) (alphaFunc c)
       (referenceAlphaValue c) flag (colorMaskA c) (colorMaskB c)
       (colorMaskG c) (colorMaskR c)) r).

Definition enableDepthTest_ (enable : bool) r : Ret * Renderer :=
  let c := m_confReg1 r in
  emitConfReg1 (set_m_confReg1
    (mkConfReg1 enable (depthFunc c) (alphaFunc c)
       (referenceAlphaValue c) (depthMask c) (colorMaskA c) (colorMaskB c)
       (colorMaskG c) (colorMaskR c)) r).

Definition setColorMask (red green blue alpha : bool) r : Ret * Renderer :=
  let c := m_confReg1 r in
  emitConfReg1 (set_m_confReg1
    (mkConfReg1 (enableDepthTest c) (depthFunc c) (alphaFunc c)
       (referenceAlphaValue c) (depthMask c) alpha blue green red) r).

Definition setDepthFunc (func : Z) r : Ret * Renderer :=
  let c := m_confReg1 r in
  emitConfReg1 (set_m_confReg1
    (mkConfReg1 (enableDepthTest c) func (alphaFunc c)
       (referenceAlphaValue c) (depthMask c) (colorMaskA c) (colorMaskB c)
       (colorMaskG c) (colorMaskR c)) r).

(** [referenceAlphaValue] is a bit field of four bits that is assigned a
    [uint8_t]. *)
Definition setAlphaFunc (func ref : Z) r : Ret * Renderer :=
  let c := m_confReg1 r in
  emitConfReg1 (set_m_confReg1
    (mkConfReg1 (enableDepthTest c) (depthFunc c) func
       (ref mod 2 ^ 4) (depthMask c) (colorMaskA c) (colorMaskB c)
       (colorMaskG c) (colorMaskR c)) r).

Definition setTexEnv (target pname param : Z) r : Ret * Renderer :=
  (* (void)target: Only TEXTURE_ENV is supported *)
  (* (void)pname: Only GL_TEXTURE_ENV_MODE is supported *)
  let c := m_confReg2 r in
  emitConfReg2 (set_m_confReg2
    (mkConfReg2 (perspectiveCorrectedTextures c) param (blendFuncSFactor c)
       (blendFuncDFactor c) (texClampS c) (texClampT c)) r).

Definition setBlendFunc (sfactor dfactor : Z) r : Ret * Renderer :=
  let c := m_confReg2 r in
  emitConfReg2 (set_m_confReg2
    (mkConfReg2 (perspectiveCorrectedTextures c) (texEnvFunc c) sfactor
       dfactor (texClampS c) (texClampT c)) r).

Definition setLogicOp (opcode : Z) r : Ret * Renderer :=
  (RBool false, r).

Definition setTexEnvColor (color : Vec4i) r : Ret * Renderer :=
  let '(b, r') :=
    appendStreamCommand_back SET_TEX_ENV_COLOR (CU16 (convertColor color)) r in
  (RBool b, r').

Definition setTextureWrapModeS (mode : Z) r : Ret * Renderer :=
  let c := m_confReg2 r in
  emitConfReg2 (set_m_confReg2
    (mkConfReg2 (perspectiveCorrectedTextures c) (texEnvFunc c)
       (blendFuncSFactor c) (blendFuncDFactor c)
       (mode =? TextureWrapMode_CLAMP_TO_EDGE) (texClampT c)) r).

Definition setTextureWrapModeT (mode : Z) r : Ret * Renderer :=
  let c := m_confReg2 r in
  emitConfReg2 (set_m_confReg2
    (mkConfReg2 (perspectiveCorrectedTextures c) (texEnvFunc c)
       (blendFuncSFactor c) (blendFuncDFactor c)
       (texClampS c) (mode =? TextureWrapMode_CLAMP_TO_EDGE)) r).

(** *** [uploadDisplayList]: the band walker *)

(** Reading a record of the front list at the type the walker expects. *)
Definition loadCommand (l : List) (p : Z) : Outcome Z :=
  match DisplayList.load p l with
  | Some (CCommand op) => Ok op
  | _ => Undefined
  end.

Definition loadTriangle (l : List) (p : Z)
    : Outcome (RasterizedTriangle TriangleData) :=
  match DisplayList.load p l with
  | Some (CTriangle t) => Ok t
  | _ => Undefined
  end.

Definition loadTextureStreamArg (l : List) (p : Z) : Outcome TextureStreamArg :=
  match DisplayList.load p l with
  | Some (CTexture a) => Ok a
  | _ => Undefined
  end.

(** The argument of a [SET_REG] command is copied as a [uint16_t]: the 16
    bits of whatever register value the encoder stored. *)
Definition loadU16 (l : List) (p : Z) : Outcome (Cell TriangleData) :=
  match DisplayList.load p l with
  | Some (CU16 v) => Ok (CU16 v)
  | Some (CConfReg1 c) => Ok (CConfReg1 c)
  | Some (CConfReg2 c) => Ok (CConfReg2 c)
  | Some (CCommand op) => Ok (CU16 op)
  | _ => Undefined
  end.

(** [case StreamCommand::TRIANGLE_STREAM] *)
Definition case_TRIANGLE_STREAM r : Outcome Renderer :=
  let '(triangleConf, front) :=
    DisplayList.getNext sizeOf_RasterizedTriangle (frontList r) in
  let r := set_frontList front r in
  let '(triangleConfDl, upload) :=
    DisplayList.create HARDWARE_BUFFER_SIZE sizeOf_RasterizedTriangle
      (m_displayListUpload r) in
  let r := set_m_displayListUpload upload r in
  let currentScreenPositionStart :=
    u16 (u32 (m_uploadIndexPosition r * LINE_RESOLUTION)) in
  let currentScreenPositionEnd :=
    u16 (u32 (u32 (m_uploadIndexPosition r + 1) * LINE_RESOLUTION)) in
  pOut ← deref triangleConfDl;
  pIn ← deref triangleConf;
  tIn ← loadTriangle (frontList r) pIn;
  let '(visible, tOut) :=
    calcLineIncrement tIn currentScreenPositionStart currentScreenPositionEnd in
  let upload := DisplayList.store pOut (CTriangle tOut) (m_displayListUpload r) in
  if negb visible
  then
    (* the triangle is not in the current display line *)
    let upload := DisplayList.remove sizeOf_RasterizedTriangle upload in
    let upload := DisplayList.remove sizeOf_SCT upload in
    Ok (set_m_displayListUpload upload r)
  else Ok (set_m_displayListUpload upload r).

(** [case StreamCommand::TEXTURE_STREAM]; the flag is [leaveLoop]. *)
Definition case_TEXTURE_STREAM r : Outcome (bool * Renderer) :=
  let curr := m_textureStreamArg r in
  let '(p, front) :=
    DisplayList.getNext sizeOf_TextureStreamArg (frontList r) in
  let r := set_frontList front r in
  p ← deref p;
  new ← loadTextureStreamArg (frontList r) p;
  let r := set_m_textureStreamArg new r in
  if ptr_add (pixels (m_textureStreamArg r))
             (remainingPixels (m_textureStreamArg r)) =? pixels curr
  then
    (* The texture is already on the device buffer, so fast forward *)
    let a := m_textureStreamArg r in
    let r := set_m_textureStreamArg
               (mkTextureStreamArg (ptr_add (pixels a) (remainingPixels a)) 0) r in
    (* and discard command *)
    Ok (false,
        set_m_displayListUpload
          (DisplayList.remove sizeOf_SCT (m_displayListUpload r)) r)
  else
    (* Upload texture *)
    Ok (true, r).

(** [case StreamCommand::SET_REG] *)
Definition case_SET_REG r : Outcome Renderer :=
  let '(arg, upload) :=
    DisplayList.create HARDWARE_BUFFER_SIZE sizeOf_u16 (m_displayListUpload r) in
  let r := set_m_displayListUpload upload r in
  let '(p, front) := DisplayList.getNext sizeOf_u16 (frontList r) in
  let r := set_frontList front r in
  p ← deref p;
  v ← loadU16 (frontList r) p;
  arg ← deref arg;
  Ok (set_m_displayListUpload
        (DisplayList.store arg v (m_displayListUpload r)) r).

(** The [switch] on the opcode masked with [STREAM_COMMAND_OP_MASK], entered
    after the opcode [opv] has been copied to the upload list.  The flag in
    the result is [leaveLoop]. *)
Definition switchCommand (opv : Z) r : Outcome (bool * Renderer) :=
  let class := Z.land opv STREAM_COMMAND_OP_MASK in
  if class =? TRIANGLE_STREAM then
    r ← case_TRIANGLE_STREAM r; Ok (false, r)
  else if (class =? FRAMEBUFFER_OP) || (class =? NOP) then
    (* Has no argument *)
    Ok (false, r)
  else if class =? TEXTURE_STREAM then
    case_TEXTURE_STREAM r
  else if class =? SET_REG then
    r ← case_SET_REG r; Ok (false, r)
  else
    (* In case the op was not found *)
    Ok (false,
        set_m_displayListUpload
          (DisplayList.remove sizeOf_SCT (m_displayListUpload r)) r).

(** One turn of the loop that fills the upload list, entered with
    [leaveLoop] false and enough space.  The result [None] is the [break]
    on the end of the front list; [Some leaveLoop] ends the turn. *)
Definition fillStep r : Outcome (option bool * Renderer) :=
  let '(op, front) := DisplayList.getNext sizeOf_SCT (frontList r) in
  match op with
  | None => Ok (None, r)
  | Some pOp =>
      let r := set_frontList front r in
      opv ← loadCommand (frontList r) pOp;
      let '(pDl, upload) :=
        DisplayList.create HARDWARE_BUFFER_SIZE sizeOf_SCT
          (m_displayListUpload r) in
      let r := set_m_displayListUpload upload r in
      pDl ← deref pDl;
      let r := set_m_displayListUpload
                 (DisplayList.store pDl (CCommand opv) (m_displayListUpload r))
                 r in
      '(leaveLoop, r) ← switchCommand opv r;
      Ok (Some leaveLoop, r)
  end.

(** [while (!leaveLoop && hasEnoughSpace(m_displayListUpload))] *)
Fixpoint fillLoop (fuel : nat) (leaveLoop : bool) r : Outcome Renderer :=
  if negb leaveLoop && hasEnoughSpace HARDWARE_BUFFER_SIZE (m_displayListUpload r)
  then
    match fuel with
    | O => OutOfFuel
    | S fuel =>
        '(ctl, r) ← fillStep r;
        match ctl with
        | None => Ok r
        | Some leaveLoop => fillLoop fuel leaveLoop r
        end
    end
  else Ok r.

(** Every turn that does not break takes at least one command off the
    front list, so its length in bytes bounds the number of turns. *)
Definition fillFuel r : nat := S (Z.to_nat (DisplayList.writePos (frontList r))).

Definition PIXEL_INC : Z := HARDWARE_BUFFER_SIZE / 2.

(** The block guarded by [frontList.state() == List::State::TRANSFERRING]. *)
Definition transferBlock r : Outcome (bool * Renderer) :=
  (* First check if an texture upload is pending *)
  if 0 <? remainingPixels (m_textureStreamArg r)
  then
    let a := m_textureStreamArg r in
    let r := set_m_busConnector
               (writeData (FromPixels (pixels a)) HARDWARE_BUFFER_SIZE
                  (m_busConnector r)) r in
    let r := set_m_textureStreamArg
               (mkTextureStreamArg (ptr_add (pixels a) PIXEL_INC)
                  (i32 (u32 (remainingPixels a - PIXEL_INC)))) r in
    Ok (true, r)
  else
    (* Build new displaylist (which will be uploaded to the device) *)
    let r := set_m_displayListUpload
               (DisplayList.clear (m_displayListUpload r)) r in
    r ← fillLoop (fillFuel r) false r;
    let bus := startColorBufferTransfer (m_uploadIndexPosition r)
                 (m_busConnector r) in
    let bus := writeData
                 (FromUploadList (DisplayList.mem (m_displayListUpload r)))
                 (DisplayList.getSize (m_displayListUpload r)) bus in
    let r := set_m_busConnector bus r in
    if DisplayList.atEnd (frontList r)
    then
      let r := set_frontList (DisplayList.resetGet (frontList r)) r in
      if m_uploadIndexPosition r =? 0
      then Ok (false, set_frontList (DisplayList.clear (frontList r)) r)
      else
        Ok (true,
            set_m_uploadIndexPosition (u32 (m_uploadIndexPosition r - 1)) r)
    else Ok (true, r).

(** The block guarded by [frontList.state() == List::State::QUEUED]. *)
Definition queuedBlock r : Renderer :=
  if DisplayList.State_eqb (DisplayList.state (frontList r)) DisplayList.QUEUED
  then
    (* Upload the display lists in reverse order *)
    let r := set_m_uploadIndexPosition (u32 (DISPLAY_LINES - 1)) r in
    set_frontList (DisplayList.transfer (frontList r)) r
  else r.

Definition uploadDisplayList r : Outcome (bool * Renderer) :=
  (* Check if the bus is clear *)
  let '(cts, bus) := clearToSend (m_busConnector r) in
  let r := set_m_busConnector bus r in
  if negb cts then Ok (true, r)
  else
    (* Check if the front list is queued. If so, initialize a new transfer *)
    let r := queuedBlock r in
    if DisplayList.State_eqb (DisplayList.state (frontList r))
         DisplayList.TRANSFERRING
    then transferBlock r
    else Ok (false, r).

(** *** [drawTriangle] and [commit] *)

Definition drawTriangle (v0 v1 v2 : Vec4) (st0 st1 st2 : Vec2) (color : Vec4i) r
    : Outcome (Ret * Renderer) :=
  let '(visible, triangleConf) := rasterize v0 st0 v1 st1 v2 st2 in
  if negb visible
  then
    (* Triangle is not visible *)
    Ok (RBool true, r)
  else
    let triangleConf :=
      mkTriangle (triangleData triangleConf) (convertColor color) in
    let '(retVal, l) :=
      appendStreamCommand DISPLAY_LIST_SIZE (backList r) TRIANGLE_FULL
        (CTriangle triangleConf) in
    let r := set_backList l r in
    '(_, r) ← uploadDisplayList r;
    Ok (RBool retVal, r).

(** [while (uploadDisplayList()) ;] *)
Fixpoint drain (fuel : nat) r : Outcome Renderer :=
  match fuel with
  | O => OutOfFuel
  | S fuel =>
      '(busy, r) ← uploadDisplayList r;
      if (busy : bool) then drain fuel r else Ok r
  end.

(** [commit] blocks until the front list is transferred; [fuel] bounds the
    number of polls it is given for that. *)
Definition commit (fuel : nat) r : Outcome (Ret * Renderer) :=
  (* Add frame buffer flush command *)
  let '(op, l) := DisplayList.create DISPLAY_LIST_SIZE sizeOf_SCT (backList r) in
  let r := set_backList l r in
  match op with
  | Some p =>
      let r := set_backList
                 (DisplayList.store p
                    (CCommand (Z.lor FRAMEBUFFER_COMMIT FRAMEBUFFER_COLOR))
                    (backList r)) r in
      r ← drain fuel r;
      (* Enqueue all lists from the back display list *)
      let r := set_backList (DisplayList.enqueue (backList r)) r in
      (* Switch the display lists *)
      let r := if m_backList r =? 0 then set_lists 0 1 r else set_lists 1 0 r in
      (* Triggers an upload *)
      '(_, r) ← uploadDisplayList r;
      Ok (RVoid, r)
  | None =>
      Ok (RVoid, set_backList (DisplayList.clear (backList r)) r)
  end.

(** *** The constructor

    Both lists are cleared and the default state is sent to the back list.
    The fields of the two configuration registers that the constructor does
    not assign start with whatever [c1] and [c2] hold. *)

Definition emptyList : List := DisplayList.mk ∅ 0 0 DisplayList.FREE.

Definition Renderer_new (busConnector : Bus TriangleData)
    (c1 : ConfReg1) (c2 : ConfReg2) : Renderer :=
  let r := mkRenderer (DisplayList.clear emptyList) (DisplayList.clear emptyList)
             emptyList 0 1 0 (mkTextureStreamArg 0 0) busConnector 0xffff
             c1
             (mkConfReg2 true (texEnvFunc c2) (blendFuncSFactor c2)
                (blendFuncDFactor c2) (texClampS c2) (texClampT c2)) in
  let r := snd (setDepthFunc TestFunc_LESS r) in
  let r := snd (setDepthMask false r) in
  let r := snd (setColorMask true true true true r) in
  let r := snd (setAlphaFunc TestFunc_ALWAYS 0xf r) in
  let r := snd (setTexEnv TexEnvTarget_TEXTURE_ENV
                  TexEnvParamName_TEXTURE_ENV_MODE TexEnvParam_MODULATE r) in
  let r := snd (setBlendFunc BlendFunc_ONE BlendFunc_ZERO r) in
  let r := snd (setLogicOp LogicOp_COPY r) in
  let r := snd (setTexEnvColor (mkVec4i 0 0 0 0) r) in
  let r := snd (setClearColor (mkVec4i 0 0 0 0) r) in
  snd (setClearDepth 65535 r).

(** *** Properties of a state that the theorems refer to *)

(** The two indices name the two different lists. *)
Definition indices_ok r : Prop :=
  (m_frontList r = 0 /\ m_backList r = 1) \/
  (m_frontList r = 1 /\ m_backList r = 0).


(** The pair of an opcode and its payload sits in the list at [off]. *)
Definition holds_pair (l : ListUpload) (off : Z) (op : Z)
    (arg : Cell TriangleData) : Prop :=
  DisplayList.load off l = Some (CCommand op) /\
  DisplayList.load (off + sizeOf_SCT) l = Some arg /\
  off + sizeOf_SCT + sizeOfCell arg <= DisplayList.writePos l.

(** What a successful [appendStreamCommand] leaves behind. *)
Definition appended (op : Z) (arg : Cell TriangleData) (l : List) : List :=
  DisplayList.mk
    (<[DisplayList.writePos l + sizeOf_SCT := arg]>
       (<[DisplayList.writePos l := CCommand op]> (DisplayList.mem l)))
    (DisplayList.writePos l + sizeOf_SCT + sizeOfCell arg)
    (DisplayList.readPos l) (DisplayList.state l).

(** The template parameters have values of their types (with a bus of at
    least one byte and at least one display line), and the two sizes taken
    from elsewhere are sizes; a triangle holds at least its 16 bit colour. *)
Definition target_ok : Prop :=
  8 <= BUS_WIDTH <= 65535 /\
  1 <= DISPLAY_LINES <= 65535 /\
  0 <= LINE_RESOLUTION <= 65535 /\
  0 <= DISPLAY_LIST_SIZE < 2 ^ 32 /\
  2 <= sizeof_RasterizedTriangle < 2 ^ 31 /\
  0 < sizeof_TextureStreamArg < 2 ^ 31.

(** The opcode for a texture of [w] by [w] pixels. *)
Definition TEXTURE_STREAM_for (w : Z) : Z :=
  if w =? 256 then TEXTURE_STREAM_256x256
  else if w =? 128 then TEXTURE_STREAM_128x128
  else if w =? 64 then TEXTURE_STREAM_64x64
  else TEXTURE_STREAM_32x32.

(** The outcome of an append to the back list, as the callers see it. *)
Definition atomic_on_back r (res : Ret * Renderer) : Prop :=
  (fst res = RBool true /\
   exists op arg, backList (snd res) = appended op arg (backList r)) \/
  (fst res = RBool false /\ backList (snd res) = backList r).

(** The state after the opcode [op] has been taken off the front list and
    copied to the upload list. *)
Definition copied (op : Z) r : Renderer :=
  let up := m_displayListUpload r in
  let front := frontList r in
  set_m_displayListUpload
    (DisplayList.store (DisplayList.writePos up) (CCommand op)
       (DisplayList.set_writePos (DisplayList.writePos up + sizeOf_SCT) up))
    (set_frontList
       (DisplayList.set_readPos (DisplayList.readPos front + sizeOf_SCT) front) r).

(** What filling the upload list cannot change: it moves the read position
    of the front list, writes the upload list and replaces the texture
    cursor, and nothing else. *)
Record fill_frame r r' : Prop := {
  ff_front : m_frontList r' = m_frontList r;
  ff_back : m_backList r' = m_backList r;
  ff_index : m_uploadIndexPosition r' = m_uploadIndexPosition r;
  ff_bus : m_busConnector r' = m_busConnector r;
  ff_color : m_staticTriangleColor r' = m_staticTriangleColor r;
  ff_confReg1 : m_confReg1 r' = m_confReg1 r;
  ff_confReg2 : m_confReg2 r' = m_confReg2 r;
  ff_other : forall j, (m_frontList r =? 0) <> (j =? 0) ->
             m_displayList j r' = m_displayList j r;
  ff_mem : DisplayList.mem (frontList r') = DisplayList.mem (frontList r);
  ff_writePos :
    DisplayList.writePos (frontList r') = DisplayList.writePos (frontList r);
  ff_state : DisplayList.state (frontList r') = DisplayList.state (frontList r)
}.

(** The answer the next poll of the bus gets. *)
Definition bus_ready r : bool :=
  ready (m_busConnector r) (polls (m_busConnector r)).

(** The state after the poll. *)
Definition polled r : Renderer :=
  set_m_busConnector (snd (clearToSend (m_busConnector r))) r.

(** The display line a step works on: the last one when the front list is
    only queued, the current one otherwise. *)
Definition start_index r : Z :=
  if DisplayList.State_eqb (DisplayList.state (frontList r)) DisplayList.QUEUED
  then u32 (DISPLAY_LINES - 1)
  else m_uploadIndexPosition r.

(** What no step of the walker changes; [n] polls were made. *)
Record tick_frame (n : nat) r r' : Prop := {
  tf_front : m_frontList r' = m_frontList r;
  tf_back : m_backList r' = m_backList r;
  tf_color : m_staticTriangleColor r' = m_staticTriangleColor r;
  tf_confReg1 : m_confReg1 r' = m_confReg1 r;
  tf_confReg2 : m_confReg2 r' = m_confReg2 r;
  tf_other : forall j, (m_frontList r =? 0) <> (j =? 0) ->
             m_displayList j r' = m_displayList j r;
  tf_mem : DisplayList.mem (frontList r') = DisplayList.mem (frontList r);
  tf_ready : ready (m_busConnector r') = ready (m_busConnector r);
  tf_polls : polls (m_busConnector r') = (n + polls (m_busConnector r))%nat
}.

(** The six ways a call of [uploadDisplayList] can go, told apart by the
    bus, the state of the front list and the texture cursor. *)
Inductive Step r : bool -> Renderer -> Prop :=
  | Step_wait :
      bus_ready r = false ->
      Step r true (polled r)
  | Step_idle :
      bus_ready r = true ->
      DisplayList.state (frontList r) = DisplayList.FREE ->
      Step r false (polled r)
  | Step_texture r' :
      bus_ready r = true ->
      DisplayList.state (frontList r) <> DisplayList.FREE ->
      0 < remainingPixels (m_textureStreamArg r) ->
      log (m_busConnector r') =
        log (m_busConnector r) ++
          [EvWriteData (FromPixels (pixels (m_textureStreamArg r)))
             HARDWARE_BUFFER_SIZE] ->
      DisplayList.state (frontList r') = DisplayList.TRANSFERRING ->
      DisplayList.writePos (frontList r') = DisplayList.writePos (frontList r) ->
      m_uploadIndexPosition r' = start_index r ->
      Step r true r'
  | Step_band r' u :
      bus_ready r = true ->
      DisplayList.state (frontList r) <> DisplayList.FREE ->
      remainingPixels (m_textureStreamArg r) <= 0 ->
      log (m_busConnector r') =
        log (m_busConnector r) ++
          [EvStartColorBufferTransfer (start_index r);
           EvWriteData (FromUploadList (DisplayList.mem u))
             (DisplayList.writePos u)] ->
      DisplayList.state (frontList r') = DisplayList.TRANSFERRING ->
      DisplayList.writePos (frontList r') = DisplayList.writePos (frontList r) ->
      m_uploadIndexPosition r' = start_index r ->
      DisplayList.readPos (frontList r') <> DisplayList.writePos (frontList r') ->
      Step r true r'
  | Step_rewind r' u :
      bus_ready r = true ->
      DisplayList.state (frontList r) <> DisplayList.FREE ->
      remainingPixels (m_textureStreamArg r) <= 0 ->
      log (m_busConnector r') =
        log (m_busConnector r) ++
          [EvStartColorBufferTransfer (start_index r);
           EvWriteData (FromUploadList (DisplayList.mem u))
             (DisplayList.writePos u)] ->
      DisplayList.state (frontList r') = DisplayList.TRANSFERRING ->
      DisplayList.writePos (frontList r') = DisplayList.writePos (frontList r) ->
      start_index r <> 0 ->
      m_uploadIndexPosition r' = u32 (start_index r - 1) ->
      DisplayList.readPos (frontList r') = 0 ->
      Step r true r'
  | Step_last r' u :
      bus_ready r = true ->
      DisplayList.state (frontList r) <> DisplayList.FREE ->
      remainingPixels (m_textureStreamArg r) <= 0 ->
      log (m_busConnector r') =
        log (m_busConnector r) ++
          [EvStartColorBufferTransfer (start_index r);
           EvWriteData (FromUploadList (DisplayList.mem u))
             (DisplayList.writePos u)] ->
      start_index r = 0 ->
      DisplayList.state (frontList r') = DisplayList.FREE ->
      DisplayList.writePos (frontList r') = 0 ->
      DisplayList.readPos (frontList r') = 0 ->
      Step r false r'.





(** The bytes of payload that the walker takes off the front list behind
    the opcode [op]. *)
Definition payload_size (op : Z) : Z :=
  let class := Z.land op STREAM_COMMAND_OP_MASK in
  if class =? TRIANGLE_STREAM then sizeOf_RasterizedTriangle
  else if (class =? FRAMEBUFFER_OP) || (class =? NOP) then 0
  else if class =? TEXTURE_STREAM then sizeOf_TextureStreamArg
  else if class =? SET_REG then sizeOf_u16
  else 0.

(** The record at [p] is the payload that the class of [op] prescribes. *)
Definition payload_ok l (p : Z) (op : Z) : Prop :=
  let class := Z.land op STREAM_COMMAND_OP_MASK in
  if class =? TRIANGLE_STREAM then
    exists t, DisplayList.load p l = Some (CTriangle t)
  else if (class =? FRAMEBUFFER_OP) || (class =? NOP) then True
  else if class =? TEXTURE_STREAM then
    exists a, DisplayList.load p l = Some (CTexture a) /\
              - 2 ^ 31 <= remainingPixels a < 2 ^ 31
  else if class =? SET_REG then exists c, loadU16 l p = Ok c
  else True.

(** From [pos] to the write position the list is a sequence of opcodes,
    each followed by its payload. *)
Inductive Stream l : Z -> Prop :=
  | Stream_end : Stream l (DisplayList.writePos l)
  | Stream_record pos op :
      DisplayList.load pos l = Some (CCommand op) ->
      payload_ok l (pos + sizeOf_SCT) op ->
      Stream l (pos + sizeOf_SCT + payload_size op) ->
      Stream l pos.

(** The same as a test that can be run: [payload_okb] for one record, and
    [streamb] for the list from [pos] on, within [fuel] records. *)
Definition payload_okb l (p : Z) (op : Z) : bool :=
  let class := Z.land op STREAM_COMMAND_OP_MASK in
  if class =? TRIANGLE_STREAM then
    match DisplayList.load p l with
    | Some (CTriangle _) => true
    | _ => false
    end
  else if (class =? FRAMEBUFFER_OP) || (class =? NOP) then true
  else if class =? TEXTURE_STREAM then
    match DisplayList.load p l with
    | Some (CTexture a) =>
        (- 2 ^ 31 <=? remainingPixels a) && (remainingPixels a <? 2 ^ 31)
    | _ => false
    end
  else if class =? SET_REG then
    match loadU16 l p with
    | Ok _ => true
    | _ => false
    end
  else true.

Fixpoint streamb (fuel : nat) l (pos : Z) : bool :=
  match fuel with
  | O => false
  | S fuel =>
      if pos =? DisplayList.writePos l then true
      else
        match DisplayList.load pos l with
        | Some (CCommand op) =>
            payload_okb l (pos + sizeOf_SCT) op
            && streamb fuel l (pos + sizeOf_SCT + payload_size op)
        | _ => false
        end
  end.

(** What holds of the renderer while the fill loop runs. *)
Definition filling r : Prop :=
  0 <= DisplayList.readPos (frontList r) /\
  Stream (frontList r) (DisplayList.readPos (frontList r)) /\
  0 <= DisplayList.writePos (m_displayListUpload r) <= HARDWARE_BUFFER_SIZE /\
  - 2 ^ 31 <= remainingPixels (m_textureStreamArg r) < 2 ^ 31.

(** What holds of the renderer while the front list is being sent on a bus
    that is clear to send at every poll to come. *)
Definition sending r : Prop :=
  (DisplayList.state (frontList r) = DisplayList.QUEUED \/
   DisplayList.state (frontList r) = DisplayList.TRANSFERRING) /\
  0 <= DisplayList.readPos (frontList r) /\
  Stream (frontList r) 0 /\
  Stream (frontList r) (DisplayList.readPos (frontList r)) /\
  0 <= m_uploadIndexPosition r < 2 ^ 32 /\
  - 2 ^ 31 <= remainingPixels (m_textureStreamArg r) < 2 ^ 31 /\
  (forall n, (polls (m_busConnector r) <= n)%nat ->
             ready (m_busConnector r) n = true).

(** The work left: display lines, bytes of the front list on the current
    line, and pixels of the texture being uploaded. *)
Definition work r : nat * nat * nat :=
  (Z.to_nat (start_index r),
   Z.to_nat (DisplayList.writePos (frontList r)
             - DisplayList.readPos (frontList r)),
   Z.to_nat (remainingPixels (m_textureStreamArg r))).

Definition less_work (a b : nat * nat * nat) : Prop :=
  let '(a1, a2, a3) := a in
  let '(b1, b2, b3) := b in
  (a1 < b1)%nat \/ (a1 = b1 /\ a2 < b2)%nat \/ (a1 = b1 /\ a2 = b2 /\ a3 < b3)%nat.

(** *** Vocabulary of the further properties *)

(** The part of the state that belongs to the band walker: the two
    indices, the front list, the upload list, the display line, the texture
    cursor and the bus. *)
Definition walker_state r
    : Z * Z * List * ListUpload * Z * TextureStreamArg * Bus TriangleData :=
  (m_frontList r, m_backList r, frontList r, m_displayListUpload r,
   m_uploadIndexPosition r, m_textureStreamArg r, m_busConnector r).

(** The payload [arg] is what the walker takes off the list behind the
    opcode [op]: it has the size and the kind that the class of [op] asks
    for. *)
Definition record_ok (op : Z) (arg : Cell TriangleData) : Prop :=
  payload_size op = sizeOfCell arg /\
  forall (l : List) p, DisplayList.load p l = Some arg -> payload_ok l p op.

(** The outcome of a call of the encoder on [r]: the walker's part of the
    state is as before, and the back list is as before or has grown by one
    opcode with the payload that belongs to it. *)
Definition encoded r (res : Ret * Renderer) : Prop :=
  walker_state (snd res) = walker_state r /\
  ((fst res = RBool false /\ backList (snd res) = backList r) \/
   (fst res = RBool true /\
    exists op arg,
      backList (snd res) = appended op arg (backList r) /\
      DisplayList.writePos (backList r) + sizeOf_SCT + sizeOfCell arg
        <= DISPLAY_LIST_SIZE /\
      record_ok op arg)).

(** What holds of the renderer between the calls of its public methods.
    The back list is [FREE], is not being read, and is a sequence of
    records; the front list is such a sequence too, from its start and from
    its read position, and it is empty when it is [FREE]; the upload list
    fits the hardware buffer, the display line exists, and the number of
    pixels left is an [int32_t]. *)
Record consistent r : Prop := {
  co_indices : indices_ok r;
  co_back_state : DisplayList.state (backList r) = DisplayList.FREE;
  co_back_readPos : DisplayList.readPos (backList r) = 0;
  co_back_writePos :
    0 <= DisplayList.writePos (backList r) <= DISPLAY_LIST_SIZE;
  co_back_stream : Stream (backList r) 0;
  co_front_readPos : 0 <= DisplayList.readPos (frontList r);
  co_front_writePos : DisplayList.writePos (frontList r) <= DISPLAY_LIST_SIZE;
  co_front_stream : Stream (frontList r) 0;
  co_front_rest : Stream (frontList r) (DisplayList.readPos (frontList r));
  co_front_free :
    DisplayList.state (frontList r) = DisplayList.FREE ->
    DisplayList.writePos (frontList r) = 0 /\
    DisplayList.readPos (frontList r) = 0;
  co_upload :
    0 <= DisplayList.writePos (m_displayListUpload r) <= HARDWARE_BUFFER_SIZE;
  co_index : 0 <= m_uploadIndexPosition r < DISPLAY_LINES;
  co_texture : - 2 ^ 31 <= remainingPixels (m_textureStreamArg r) < 2 ^ 31
}.

(** What may go to the bus: a transfer of at most the hardware buffer, and
    the index of a display line. *)
Definition event_ok (ev : BusEvent TriangleData) : Prop :=
  match ev with
  | EvWriteData _ len => 0 <= len <= HARDWARE_BUFFER_SIZE
  | EvStartColorBufferTransfer index => 0 <= index < DISPLAY_LINES
  end.

(** Everything sent between the states [r] and [r'] is of that kind. *)
Definition sent_ok r r' : Prop :=
  exists evs : list (BusEvent TriangleData),
    log (m_busConnector r') = log (m_busConnector r) ++ evs /\
    Forall event_ok evs.

(** The state in which [commit] starts to wait for the front list: the
    opcode [FRAMEBUFFER_COMMIT | FRAMEBUFFER_COLOR] is the last record of
    the back list. *)
Definition committing r : Renderer :=
  set_backList
    (DisplayList.store (DisplayList.writePos (backList r))
       (CCommand (Z.lor FRAMEBUFFER_COMMIT FRAMEBUFFER_COLOR))
       (DisplayList.set_writePos
          (DisplayList.writePos (backList r) + sizeOf_SCT) (backList r))) r.

(** What [commit] does between its wait and its last call of
    [uploadDisplayList]: the back list is enqueued and the two lists change
    places. *)
Definition swapped r : Renderer :=
  let r := set_backList (DisplayList.enqueue (backList r)) r in
  if m_backList r =? 0 then set_lists 0 1 r else set_lists 1 0 r.

(** [n] calls of [uploadDisplayList] in a row: the values returned, oldest
    first, and the state after the last call. *)
Fixpoint uploads (n : nat) r : Outcome (list bool * Renderer) :=
  match n with
  | O => Ok ([], r)
  | S n =>
      '(b, r) ← uploadDisplayList r;
      '(bs, r) ← uploads n r;
      Ok (b :: bs, r)
  end.

(** The [n] transfers that upload a texture at the address [p], each of
    [HARDWARE_BUFFER_SIZE] bytes and [PIXEL_INC] pixels behind the one
    before. *)
Definition chunks (p : Z) (n : nat) : list (BusEvent TriangleData) :=
  map (fun k => EvWriteData (FromPixels (ptr_add p (Z.of_nat k * PIXEL_INC)))
                  HARDWARE_BUFFER_SIZE)
      (seq 0 n).

(** Where the constructor stands after some of its calls: the walker's part
    of the state is [ws], the two registers are [c1] and [c2], and, when
    all its eighteen records fit, the back list is [l], of [n] records. *)
Definition built
    (ws : Z * Z * List * ListUpload * Z * TextureStreamArg * Bus TriangleData)
    r (c1 : ConfReg1) (c2 : ConfReg2) (n : Z) (l : List) : Prop :=
  walker_state r = ws /\
  indices_ok r /\
  m_confReg1 r = c1 /\ m_confReg2 r = c2 /\
  0 <= DisplayList.writePos (backList r) <= DISPLAY_LIST_SIZE /\
  (18 * sizeOf_SCT <= DISPLAY_LIST_SIZE ->
   backList r = l /\ DisplayList.writePos l = n * sizeOf_SCT).

(** The back list that the constructor leaves behind when it starts from
    registers that hold [c1] and [c2]: nine opcodes with their payloads, the
    oldest innermost.  Each setter of a register sends all of it, so the
    fields that a later call assigns go out with what [c1] and [c2] held. *)
Definition defaults (c1 : ConfReg1) (c2 : ConfReg2) : List :=
  let e := enableDepthTest c1 in
  let s := texClampS c2 in
  let t := texClampT c2 in
  let a1 := alphaFunc c1 in
  let v1 := referenceAlphaValue c1 in
  let bs := blendFuncSFactor c2 in
  let bd := blendFuncDFactor c2 in
  appended SET_DEPTH_BUFFER_CLEAR_DEPTH (CU16 65535)
    (appended SET_COLOR_BUFFER_CLEAR_COLOR (CU16 0)
       (appended SET_TEX_ENV_COLOR (CU16 0)
          (appended SET_CONF_REG2
             (CConfReg2 (mkConfReg2 true TexEnvParam_MODULATE BlendFunc_ONE
                           BlendFunc_ZERO s t))
             (appended SET_CONF_REG2
                (CConfReg2 (mkConfReg2 true TexEnvParam_MODULATE bs bd s t))
                (appended SET_CONF_REG1
                   (CConfReg1 (mkConfReg1 e TestFunc_LESS TestFunc_ALWAYS 15
                                 false true true true true))
                   (appended SET_CONF_REG1
                      (CConfReg1 (mkConfReg1 e TestFunc_LESS a1 v1
                                    false true true true true))
                      (appended SET_CONF_REG1
                         (CConfReg1 (mkConfReg1 e TestFunc_LESS a1 v1 false
                                       (colorMaskA c1) (colorMaskB c1)
                                       (colorMaskG c1) (colorMaskR c1)))
                         (appended SET_CONF_REG1
                            (CConfReg1 (mkConfReg1 e TestFunc_LESS a1 v1
                                          (depthMask c1)
                                          (colorMaskA c1) (colorMaskB c1)
                                          (colorMaskG c1) (colorMaskR c1)))
                            (DisplayList.clear emptyList))))))))).

(** From [pos] on the list is a sequence of records, and the last of them
    is the opcode [c] of the class [FRAMEBUFFER_OP], which has no payload. *)
Inductive ends_with l (c : Z) : Z -> Prop :=
  | EW_last pos :
      DisplayList.load pos l = Some (CCommand c) ->
      Z.land c STREAM_COMMAND_OP_MASK = FRAMEBUFFER_OP ->
      pos + sizeOf_SCT = DisplayList.writePos l ->
      ends_with l c pos
  | EW_record pos op :
      DisplayList.load pos l = Some (CCommand op) ->
      payload_ok l (pos + sizeOf_SCT) op ->
      ends_with l c (pos + sizeOf_SCT + payload_size op) ->
      ends_with l c pos.

(** The same as a test that can be run, within [fuel] records. *)
Fixpoint ends_withb (fuel : nat) l (c : Z) (pos : Z) : bool :=
  match fuel with
  | O => false
  | S fuel =>
      match DisplayList.load pos l with
      | Some (CCommand op) =>
          ((op =? c)
           && (Z.land c STREAM_COMMAND_OP_MASK =? FRAMEBUFFER_OP)
           && (pos + sizeOf_SCT =? DisplayList.writePos l))
          || (payload_okb l (pos + sizeOf_SCT) op
              && ends_withb fuel l c (pos + sizeOf_SCT + payload_size op))
      | _ => false
      end
  end.

(** The opcode [c] is the last record of the upload list [u]. *)
Definition on_top (u : ListUpload) (c : Z) : Prop :=
  sizeOf_SCT <= DisplayList.writePos u /\
  DisplayList.load (DisplayList.writePos u - sizeOf_SCT) u = Some (CCommand c).

End Renderer.

(** ** The encoder calls that append an opcode with a payload *)

Inductive Mutator : Type :=
  | SetClearColor (color : Vec4i)
  | SetClearDepth (depth : Z)
  | SetTexEnvColor (color : Vec4i)
  | SetDepthMask (flag : bool)
  | EnableDepthTest (enable : bool)
  | SetColorMask (red green blue alpha : bool)
  | SetDepthFunc (func : Z)
  | SetAlphaFunc (func ref : Z)
  | SetTexEnv (target pname param : Z)
  | SetBlendFunc (sfactor dfactor : Z)
  | SetTextureWrapModeS (mode : Z)
  | SetTextureWrapModeT (mode : Z)
  | UseTexture (pixels texWidth texHeight : Z).

Definition call `{T : Target} (m : Mutator) (r : Renderer) : Ret * Renderer :=
  match m with
  | SetClearColor color => setClearColor color r
  | SetClearDepth depth => setClearDepth depth r
  | SetTexEnvColor color => setTexEnvColor color r
  | SetDepthMask flag => setDepthMask flag r
  | EnableDepthTest enable => enableDepthTest_ enable r
  | SetColorMask red green blue alpha => setColorMask red green blue alpha r
  | SetDepthFunc func => setDepthFunc func r
  | SetAlphaFunc func ref => setAlphaFunc func ref r
  | SetTexEnv target pname param => setTexEnv target pname param r
  | SetBlendFunc sfactor dfactor => setBlendFunc sfactor dfactor r
  | SetTextureWrapModeS mode => setTextureWrapModeS mode r
  | SetTextureWrapModeT mode => setTextureWrapModeT mode r
  | UseTexture pixels texWidth texHeight => useTexture pixels texWidth texHeight r
  end.

(** ** The public interface *)

(** The setters of the first and of the second configuration register. *)
Definition confReg1_setter (m : Mutator) : bool :=
  match m with
  | SetDepthMask _ | EnableDepthTest _ | SetColorMask _ _ _ _
  | SetDepthFunc _ | SetAlphaFunc _ _ => true
  | _ => false
  end.

Definition confReg2_setter (m : Mutator) : bool :=
  match m with
  | SetTexEnv _ _ _ | SetBlendFunc _ _
  | SetTextureWrapModeS _ | SetTextureWrapModeT _ => true
  | _ => false
  end.

Section Interface.
Context `{T : Target}.
Implicit Types r : Renderer.

(** The states that the public interface leads to: the constructor, and
    from there every method of the class, for those calls that return. *)
Inductive reachable : Renderer -> Prop :=
  | reach_new busConnector c1 c2 : reachable (Renderer_new busConnector c1 c2)
  | reach_call (m : Mutator) r : reachable r -> reachable (snd (call m r))
  | reach_clear colorBuffer depthBuffer r :
      reachable r -> reachable (snd (clear colorBuffer depthBuffer r))
  | reach_setLogicOp opcode r :
      reachable r -> reachable (snd (setLogicOp opcode r))
  | reach_drawTriangle v0 v1 v2 st0 st1 st2 color r ret r' :
      reachable r ->
      drawTriangle v0 v1 v2 st0 st1 st2 color r = Ok (ret, r') ->
      reachable r'
  | reach_commit fuel r ret r' :
      reachable r -> commit fuel r = Ok (ret, r') -> reachable r'.

End Interface.

(** ** A small target to run the renderer on

    Two display lines of 64 rows on a 32 bit bus.  A vertex is its pair of
    screen coordinates; the rasterizer keeps the first and the last row of a
    triangle, accepts it when it touches the 128 rows of the screen, and
    clips by comparing rows. *)

Module Example.

Definition rows (v0 v1 v2 : Z * Z) : Z * Z :=
  (Z.min (snd v0) (Z.min (snd v1) (snd v2)),
   Z.max (snd v0) (Z.max (snd v1) (snd v2))).

Definition ex_rasterize (v0 : Z * Z) (st0 : unit) (v1 : Z * Z) (st1 : unit)
    (v2 : Z * Z) (st2 : unit) : bool * RasterizedTriangle (Z * Z) :=
  let '(lo, hi) := rows v0 v1 v2 in
  ((lo <? 128) && (0 <=? hi), mkTriangle (lo, hi) 0).

Definition ex_calcLineIncrement (t : RasterizedTriangle (Z * Z))
    (yStart yEnd : Z)
    : bool * RasterizedTriangle (Z * Z) :=
  let '(lo, hi) := triangleData t in
  ((lo <? yEnd) && (yStart <=? hi),
   mkTriangle (Z.max lo yStart, Z.min hi (yEnd - 1)) (triangleStaticColor t)).

Definition target : Target := {|
  DISPLAY_LIST_SIZE := 128;
  DISPLAY_LINES := 2;
  LINE_RESOLUTION := 64;
  BUS_WIDTH := 32;
  Vec4 := Z * Z;
  Vec2 := unit;
  TriangleData := Z * Z;
  sizeof_RasterizedTriangle := 12;
  rasterize := ex_rasterize;
  calcLineIncrement := ex_calcLineIncrement;
  sizeof_TextureStreamArg := 8;
  TextureWrapMode_CLAMP_TO_EDGE := 1;
  TestFunc_LESS := 1;
  TestFunc_ALWAYS := 7;
  TexEnvTarget_TEXTURE_ENV := 0;
  TexEnvParamName_TEXTURE_ENV_MODE := 0;
  TexEnvParam_MODULATE := 1;
  BlendFunc_ONE := 1;
  BlendFunc_ZERO := 0;
  LogicOp_COPY := 3
|}.

#[local] Existing Instance target.

(** The state a call leaves behind ([d] if there is none). *)
Definition result {A : Type} (o : Outcome (A * Renderer)) (d : Renderer)
    : Renderer :=
  match o with
  | Ok (_, r) => r
  | _ => d
  end.

(** A bus that is always clear to send, and one that is busy at the poll
    number [k] only. *)
Definition bus_clear : Bus (Z * Z) := mkBus (fun _ => true) 0 [].
Definition bus_busy_at (k : nat) : Bus (Z * Z) :=
  mkBus (fun n => negb (Nat.eqb n k)) 0 [].

Definition conf1 : ConfReg1 :=
  mkConfReg1 false 0 0 0 false false false false false.
Definition conf2 : ConfReg2 := mkConfReg2 false 0 0 0 false false.

(** The renderer as constructed. *)
Definition init : Renderer := Renderer_new bus_clear conf1 conf2.

(** Fourteen more opcodes fill the back list to its last byte. *)
Definition full : Renderer :=
  Nat.iter 14 (fun r => snd (clear true true r)) init.

Definition white : Vec4i := mkVec4i 255 255 255 255.

(** A frame of one triangle on the rows 10 to 50, before [commit]. *)
Definition drawn (b : Bus (Z * Z)) : Renderer :=
  result (drawTriangle (0, 10) (20, 50) (10, 30) tt tt tt white
            (snd (clear true true (Renderer_new b conf1 conf2)))) init.

(** The frame committed while the bus is busy for the last step of
    [commit]: the front list is queued. *)
Definition queued : Renderer := result (commit 4 (drawn (bus_busy_at 2))) init.

(** The same frame committed on a bus that is always clear to send. *)
Definition committed : Renderer := result (commit 4 (drawn bus_clear)) init.


(** The fill loop about to take the triangle off the front list, on the
    display line [i]. *)
Definition at_triangle (i : Z) : Renderer :=
  set_m_uploadIndexPosition i
    (set_frontList (DisplayList.set_readPos 76 (frontList queued))
       (set_m_displayListUpload
          (DisplayList.clear (m_displayListUpload queued)) queued)).

(** A frame that uses the same texture twice, committed and queued. *)
Definition textured : Renderer :=
  result (commit 4
            (snd (useTexture 4096 32 32
               (snd (useTexture 4096 32 32
                  (Renderer_new (bus_busy_at 1) conf1 conf2)))))) init.

(** The fill loop about to take the first texture command off the front
    list, and, two calls later, the second one. *)
Definition at_texture : Renderer :=
  set_frontList (DisplayList.set_readPos 72 (frontList textured))
    (set_m_displayListUpload
       (DisplayList.clear (m_displayListUpload textured)) textured).

Definition at_texture_again : Renderer :=
  let r := result (uploadDisplayList
                     (result (uploadDisplayList textured) init)) init in
  set_m_displayListUpload (DisplayList.clear (m_displayListUpload r)) r.

(** A bus that never gets clear to send, and a cleared frame on it. *)
Definition bus_stuck : Bus (Z * Z) := mkBus (fun _ => false) 0 [].

Definition stuck : Renderer :=
  snd (clear true true (Renderer_new bus_stuck conf1 conf2)).

(** The textured frame after the call that has sent the first band up to
    the texture command: the texture is about to be uploaded. *)
Definition uploading : Renderer := result (uploadDisplayList textured) init.

(** The fill loop about to take the first record of the queued frame, a
    register, and about to take the opcode of [clear] behind the nine
    registers. *)
Definition at_register : Renderer :=
  set_m_displayListUpload (DisplayList.clear (m_displayListUpload queued)) queued.

Definition at_clear : Renderer :=
  set_frontList (DisplayList.set_readPos 72 (frontList queued)) at_register.

(** The queued frame after the call that has sent its upper display
    line, and after the call that has sent the lower one. *)
Definition lower : Renderer := result (uploadDisplayList queued) init.

Definition flushed : Renderer := result (uploadDisplayList lower) init.

End Example.

(** ** A target with more rows than a [uint16_t] counts

    512 display lines of 128 rows: the rows of the last line end at
    65536. *)

Module Tall.

Definition tall_rasterize (v0 : Z * Z) (st0 : unit) (v1 : Z * Z) (st1 : unit)
    (v2 : Z * Z) (st2 : unit) : bool * RasterizedTriangle (Z * Z) :=
  let '(lo, hi) := Example.rows v0 v1 v2 in
  ((65536 >? lo) && (0 <=? hi), mkTriangle (lo, hi) 0).

Definition target : Target := {|
  DISPLAY_LIST_SIZE := 128;
  DISPLAY_LINES := 512;
  LINE_RESOLUTION := 128;
  BUS_WIDTH := 32;
  Vec4 := Z * Z;
  Vec2 := unit;
  TriangleData := Z * Z;
  sizeof_RasterizedTriangle := 12;
  rasterize := tall_rasterize;
  calcLineIncrement := Example.ex_calcLineIncrement;
  sizeof_TextureStreamArg := 8;
  TextureWrapMode_CLAMP_TO_EDGE := 1;
  TestFunc_LESS := 1;
  TestFunc_ALWAYS := 7;
  TexEnvTarget_TEXTURE_ENV := 0;
  TexEnvParamName_TEXTURE_ENV_MODE := 0;
  TexEnvParam_MODULATE := 1;
  BlendFunc_ONE := 1;
  BlendFunc_ZERO := 0;
  LogicOp_COPY := 3
|}.

#[local] Existing Instance target.

Definition init : Renderer :=
  Renderer_new Example.bus_clear Example.conf1 Example.conf2.

(** The state a call leaves behind ([init] if there is none). *)
Definition result {A : Type} (o : Outcome (A * Renderer)) : Renderer :=
  match o with
  | Ok (_, r) => r
  | _ => init
  end.

(** A frame of one triangle on the rows 65410 to 65500, which are rows of
    the display line 511, committed while the bus is busy for the last
    step of [commit]: the front list is queued. *)
Definition queued : Renderer :=
  result (commit 4
    (result (drawTriangle (0, 65410) (20, 65500) (10, 65450) tt tt tt
               Example.white
               (snd (clear true true
                  (Renderer_new (Example.bus_busy_at 2)
                     Example.conf1 Example.conf2)))))).

(** The next call of [uploadDisplayList] as it enters the fill loop, on the
    display line 511, and ten turns later, when the nine registers and the
    opcode of [clear] are copied: the loop is about to take the triangle. *)
Definition entering : Renderer :=
  let r := queuedBlock (polled queued) in
  set_m_displayListUpload (DisplayList.clear (m_displayListUpload r)) r.

Definition at_triangle : Renderer :=
  Nat.iter 10 (fun r => result (fillStep r)) entering.

End Tall.

(** * Properties *)

(** ** Arithmetic of the fixed-width integers *)

Lemma u32_small (x : Z) : 0 <= x < 2 ^ 32 -> u32 x = x.
Proof. intros H. unfold u32. apply Z.mod_small. exact H. Qed.

Lemma u16_small (x : Z) : 0 <= x < 2 ^ 16 -> u16 x = x.
Proof. intros H. unfold u16. apply Z.mod_small. exact H. Qed.

Lemma u16_u32 (x : Z) : u16 (u32 x) = u16 x.
Proof.
  unfold u16, u32. apply Z.mod_mod_divide.
  exists (2 ^ 16). reflexivity.
Qed.

Lemma u16_land (x : Z) : u16 x = Z.land x (Z.ones 16).
Proof. unfold u16. symmetry. apply Z.land_ones. lia. Qed.

Lemma shiftr4_range (x : Z) : 0 <= x <= 255 -> 0 <= Z.shiftr x 4 <= 15.
Proof.
  intros H. rewrite Z.shiftr_div_pow2 by lia. change (2 ^ 4) with 16.
  split.
  - apply Z.div_pos; lia.
  - enough (x / 16 < 16) by lia. apply Z.div_lt_upper_bound; lia.
Qed.

(** ** The display list *)

Section DisplayListFacts.
Context {C : Type}.
Implicit Types l : DisplayList.t C.

Lemma sizeOf_ge (align raw : Z) :
  0 < align -> raw <= DisplayList.sizeOf align raw.
Proof.
  intros Ha. unfold DisplayList.sizeOf.
  assert (Hnz : align <> 0) by lia.
  pose proof (Z.div_mod (raw + align - 1) align Hnz) as Hd.
  pose proof (Z.mod_pos_bound (raw + align - 1) align Ha) as Hm.
  nia.
Qed.

Lemma sizeOf_pos (align raw : Z) :
  0 < align -> 0 < raw -> 0 < DisplayList.sizeOf align raw.
Proof. intros Ha Hr. pose proof (sizeOf_ge align raw Ha). lia. Qed.

Lemma list_eta l :
  DisplayList.mk (DisplayList.mem l) (DisplayList.writePos l)
    (DisplayList.readPos l) (DisplayList.state l) = l.
Proof. destruct l; reflexivity. Qed.

(** Rolling back right after a successful [create] restores the list. *)
Lemma create_remove (cap size : Z) l p l1 :
  0 <= DisplayList.writePos l < 2 ^ 32 ->
  DisplayList.create cap size l = (Some p, l1) ->
  DisplayList.remove size l1 = l /\ p = DisplayList.writePos l.
Proof.
  intros Hw. unfold DisplayList.create.
  destruct (DisplayList.writePos l + size <=? cap); [|discriminate].
  intros [= <- <-]. split; [|reflexivity].
  unfold DisplayList.remove, DisplayList.set_writePos. simpl.
  replace (DisplayList.writePos l + size - size) with (DisplayList.writePos l)
    by lia.
  rewrite u32_small by exact Hw. apply list_eta.
Qed.

Lemma create_None (cap size : Z) l l1 :
  DisplayList.create cap size l = (None, l1) ->
  l1 = l /\ cap < DisplayList.writePos l + size.
Proof.
  unfold DisplayList.create.
  destruct (Z.leb_spec (DisplayList.writePos l + size) cap); [discriminate|].
  intros [= <-]. split; [reflexivity | lia].
Qed.

Lemma create_Some (cap size : Z) l p l1 :
  DisplayList.create cap size l = (Some p, l1) ->
  p = DisplayList.writePos l /\
  l1 = DisplayList.set_writePos (DisplayList.writePos l + size) l /\
  DisplayList.writePos l + size <= cap.
Proof.
  unfold DisplayList.create.
  destruct (Z.leb_spec (DisplayList.writePos l + size) cap); [|discriminate].
  intros [= <- <-]. auto.
Qed.

End DisplayListFacts.

(** ** The state of the renderer: reading a member after an update *)

Section RendererFacts.
Context `{T : Target}.
Implicit Types r : Renderer.
Implicit Types l : List.

Lemma upload_set_list i l r :
  m_displayListUpload (set_m_displayList i l r) = m_displayListUpload r.
Proof. unfold set_m_displayList. destruct (i =? 0); reflexivity. Qed.

Lemma front_set_list i l r : m_frontList (set_m_displayList i l r) = m_frontList r.
Proof. unfold set_m_displayList. destruct (i =? 0); reflexivity. Qed.

Lemma back_set_list i l r : m_backList (set_m_displayList i l r) = m_backList r.
Proof. unfold set_m_displayList. destruct (i =? 0); reflexivity. Qed.

Lemma index_set_list i l r :
  m_uploadIndexPosition (set_m_displayList i l r) = m_uploadIndexPosition r.
Proof. unfold set_m_displayList. destruct (i =? 0); reflexivity. Qed.

Lemma texture_set_list i l r :
  m_textureStreamArg (set_m_displayList i l r) = m_textureStreamArg r.
Proof. unfold set_m_displayList. destruct (i =? 0); reflexivity. Qed.

Lemma bus_set_list i l r :
  m_busConnector (set_m_displayList i l r) = m_busConnector r.
Proof. unfold set_m_displayList. destruct (i =? 0); reflexivity. Qed.

Lemma color_set_list i l r :
  m_staticTriangleColor (set_m_displayList i l r) = m_staticTriangleColor r.
Proof. unfold set_m_displayList. destruct (i =? 0); reflexivity. Qed.

Lemma confReg1_set_list i l r : m_confReg1 (set_m_displayList i l r) = m_confReg1 r.
Proof. unfold set_m_displayList. destruct (i =? 0); reflexivity. Qed.

Lemma confReg2_set_list i l r : m_confReg2 (set_m_displayList i l r) = m_confReg2 r.
Proof. unfold set_m_displayList. destruct (i =? 0); reflexivity. Qed.

Lemma list_set_list_eq i l r : m_displayList i (set_m_displayList i l r) = l.
Proof.
  unfold m_displayList, set_m_displayList. destruct (i =? 0); reflexivity.
Qed.

Lemma list_set_list_ne i j l r :
  (i =? 0) <> (j =? 0) ->
  m_displayList j (set_m_displayList i l r) = m_displayList j r.
Proof.
  unfold m_displayList, set_m_displayList.
  destruct (i =? 0), (j =? 0); congruence || reflexivity.
Qed.

Lemma list_set_upload i u r :
  m_displayList i (set_m_displayListUpload u r) = m_displayList i r.
Proof. reflexivity. Qed.

Lemma list_set_index i n r :
  m_displayList i (set_m_uploadIndexPosition n r) = m_displayList i r.
Proof. reflexivity. Qed.

Lemma list_set_texture i a r :
  m_displayList i (set_m_textureStreamArg a r) = m_displayList i r.
Proof. reflexivity. Qed.

Lemma list_set_bus i b r :
  m_displayList i (set_m_busConnector b r) = m_displayList i r.
Proof. reflexivity. Qed.

Lemma list_set_confReg1 i c r :
  m_displayList i (set_m_confReg1 c r) = m_displayList i r.
Proof. reflexivity. Qed.

Lemma list_set_confReg2 i c r :
  m_displayList i (set_m_confReg2 c r) = m_displayList i r.
Proof. reflexivity. Qed.

Lemma list_set_lists i f b r :
  m_displayList i (set_lists f b r) = m_displayList i r.
Proof. reflexivity. Qed.

Lemma set_list_same i r : set_m_displayList i (m_displayList i r) r = r.
Proof.
  unfold m_displayList, set_m_displayList.
  destruct r, (i =? 0); reflexivity.
Qed.

Lemma set_list_twice i l l' r :
  set_m_displayList i l (set_m_displayList i l' r) = set_m_displayList i l r.
Proof. unfold set_m_displayList. destruct (i =? 0); reflexivity. Qed.

End RendererFacts.

Create Rewrite HintDb renderer.
#[global] Hint Rewrite
  @upload_set_list @front_set_list @back_set_list @index_set_list
  @texture_set_list @bus_set_list @color_set_list @confReg1_set_list
  @confReg2_set_list @list_set_list_eq @list_set_upload @list_set_index
  @list_set_texture @list_set_bus @list_set_confReg1 @list_set_confReg2
  @list_set_lists @set_list_same @set_list_twice : renderer.

(** Unfolds the front and the back list to the array and the index, reduces
    the members of updated records, and rewrites with the lemmas above. *)
Ltac rsimpl :=
  repeat (progress (
    unfold frontList, backList, set_frontList, set_backList in *;
    cbn [m_displayList_0 m_displayList_1 m_displayListUpload m_frontList
         m_backList m_uploadIndexPosition m_textureStreamArg m_busConnector
         m_staticTriangleColor m_confReg1 m_confReg2
         set_m_displayListUpload set_lists set_m_uploadIndexPosition
         set_m_textureStreamArg set_m_busConnector set_m_confReg1
         set_m_confReg2
         DisplayList.mem DisplayList.writePos DisplayList.readPos
         DisplayList.state DisplayList.set_mem DisplayList.set_writePos
         DisplayList.set_readPos DisplayList.set_state DisplayList.store
         DisplayList.clear DisplayList.resetGet DisplayList.remove
         DisplayList.getSize fst snd
         writeData startColorBufferTransfer clearToSend ready polls log
         Nat.add] in *;
    autorewrite with renderer in *)).

(** Splits a hypothesis on the outcome of a sequence of steps. *)
Ltac outcome H :=
  repeat match type of H with
  | mbind _ ?m = Ok _ =>
      let E := fresh "E" in
      destruct m as [?| |] eqn:E; cbn [mbind Outcome_bind] in H;
      [| discriminate H | discriminate H]
  | (let '(_, _) := ?p in _) = Ok _ =>
      first [ is_var p; destruct p
            | let E := fresh "E" in destruct p eqn:E ]
  end.

(** Closes a goal about a member of an updated state. *)
Ltac frame_goal :=
  intros; rsimpl;
  repeat (rewrite list_set_list_ne by congruence; rsimpl);
  try congruence; auto.

(** ** The command encoder *)

Section Encoder.
Context `{T : Target}.
Implicit Types r : Renderer.
Implicit Types l : List.

(** [appendStreamCommand] either appends both records or leaves the list as
    it was, whichever of its two [create] calls fails. *)
Lemma appendStreamCommand_spec cap l op arg :
  0 <= DisplayList.writePos l < 2 ^ 32 ->
  (appendStreamCommand cap l op arg = (true, appended op arg l) /\
   DisplayList.writePos l + sizeOf_SCT <= cap /\
   DisplayList.writePos l + sizeOf_SCT + sizeOfCell arg <= cap) \/
  (appendStreamCommand cap l op arg = (false, l) /\
   (cap < DisplayList.writePos l + sizeOf_SCT \/
    cap < DisplayList.writePos l + sizeOf_SCT + sizeOfCell arg)).
Proof.
  intros Hw. unfold appendStreamCommand.
  destruct (DisplayList.create cap sizeOf_SCT l) as [[pOp|] l1] eqn:E1;
    destruct (DisplayList.create cap (sizeOfCell arg) l1) as [[pArg|] l2] eqn:E2;
    cbn [nonnull].
  - left.
    apply create_Some in E1 as (-> & -> & H1).
    apply create_Some in E2 as (-> & -> & H2). cbn in H2 |- *.
    split; [reflexivity | lia].
  - right.
    apply create_None in E2 as (-> & H2).
    pose proof (create_Some _ _ _ _ _ E1) as (_ & Hl1 & H1).
    apply create_remove in E1 as (-> & _); [|exact Hw].
    rewrite Hl1 in H2. cbn in H2 |- *. split; [reflexivity | lia].
  - right.
    apply create_None in E1 as (-> & H1).
    apply create_remove in E2 as (-> & _); [|exact Hw].
    cbn. split; [reflexivity | lia].
  - right.
    apply create_None in E1 as (-> & H1).
    apply create_None in E2 as (-> & H2).
    cbn. split; [reflexivity | lia].
Qed.

Lemma appendStreamCommand_back_spec op arg r :
  0 <= DisplayList.writePos (backList r) < 2 ^ 32 ->
  (appendStreamCommand_back op arg r
     = (true, set_backList (appended op arg (backList r)) r) /\
   DisplayList.writePos (backList r) + sizeOf_SCT + sizeOfCell arg
     <= DISPLAY_LIST_SIZE) \/
  (appendStreamCommand_back op arg r = (false, r) /\
   (DISPLAY_LIST_SIZE < DisplayList.writePos (backList r) + sizeOf_SCT \/
    DISPLAY_LIST_SIZE
      < DisplayList.writePos (backList r) + sizeOf_SCT + sizeOfCell arg)).
Proof.
  intros Hw. unfold appendStreamCommand_back.
  destruct (appendStreamCommand_spec DISPLAY_LIST_SIZE (backList r) op arg Hw)
    as [(-> & _ & H) | (-> & H)].
  - left. split; [reflexivity | exact H].
  - right. split; [|exact H]. unfold set_backList, backList.
    rewrite set_list_same. reflexivity.
Qed.

Lemma backList_set_backList l r : backList (set_backList l r) = l.
Proof. rsimpl. reflexivity. Qed.

Lemma append_back_atomic op arg r r0 :
  backList r0 = backList r ->
  0 <= DisplayList.writePos (backList r) < 2 ^ 32 ->
  atomic_on_back r
    (let '(b, r') := appendStreamCommand_back op arg r0 in (RBool b, r')).
Proof.
  intros Hb Hw. rewrite <- Hb in Hw.
  destruct (appendStreamCommand_back_spec op arg r0 Hw) as [(-> & _) | (-> & _)].
  - left. split; [reflexivity|]. exists op, arg. cbn [snd].
    rewrite backList_set_backList, Hb. reflexivity.
  - right. split; [reflexivity | exact Hb].
Qed.

Lemma call_atomic (m : Mutator) r :
  0 <= DisplayList.writePos (backList r) < 2 ^ 32 ->
  atomic_on_back r (call m r).
Proof.
  intros Hw.
  destruct m; cbn [call];
    unfold setClearColor, setClearDepth, setTexEnvColor, setDepthMask,
      enableDepthTest_, setColorMask, setDepthFunc, setAlphaFunc, setTexEnv,
      setBlendFunc, setTextureWrapModeS, setTextureWrapModeT,
      emitConfReg1, emitConfReg2;
    try (apply append_back_atomic; [reflexivity | exact Hw]).
  unfold useTexture.
  destruct (negb (texWidth =? texHeight)).
  { right. split; reflexivity. }
  destruct (texWidth =? 256); [apply append_back_atomic; [reflexivity|exact Hw]|].
  destruct (texWidth =? 128); [apply append_back_atomic; [reflexivity|exact Hw]|].
  destruct (texWidth =? 64); [apply append_back_atomic; [reflexivity|exact Hw]|].
  destruct (texWidth =? 32); [apply append_back_atomic; [reflexivity|exact Hw]|].
  right. split; reflexivity.
Qed.

End Encoder.

(** ** The band walker: what a step leaves alone *)

Section WalkerFrame.
Context `{T : Target}.
Implicit Types r : Renderer.
Implicit Types l : List.

Lemma fill_frame_refl r : fill_frame r r.
Proof. split; intros; reflexivity. Qed.

Lemma fill_frame_trans r1 r2 r3 :
  fill_frame r1 r2 -> fill_frame r2 r3 -> fill_frame r1 r3.
Proof.
  intros [] []. split; intros; try congruence.
  rewrite ff_other1 by congruence. auto.
Qed.

Lemma fill_frame_set_upload u r : fill_frame r (set_m_displayListUpload u r).
Proof. split; intros; reflexivity. Qed.

Lemma fill_frame_set_texture a r : fill_frame r (set_m_textureStreamArg a r).
Proof. split; intros; reflexivity. Qed.

Lemma fill_frame_set_front l r :
  DisplayList.mem l = DisplayList.mem (frontList r) ->
  DisplayList.writePos l = DisplayList.writePos (frontList r) ->
  DisplayList.state l = DisplayList.state (frontList r) ->
  fill_frame r (set_frontList l r).
Proof.
  intros Hm Hw Hs. split; intros; rsimpl; try reflexivity; try assumption.
  apply list_set_list_ne. assumption.
Qed.

Lemma getNext_frame size l p l' :
  DisplayList.getNext size l = (p, l') ->
  DisplayList.mem l' = DisplayList.mem l /\
  DisplayList.writePos l' = DisplayList.writePos l /\
  DisplayList.state l' = DisplayList.state l.
Proof.
  unfold DisplayList.getNext.
  destruct (_ <=? _); intros [= <- <-]; auto.
Qed.

Lemma fill_frame_getNext size r p l' :
  DisplayList.getNext size (frontList r) = (p, l') ->
  fill_frame r (set_frontList l' r).
Proof.
  intros E. apply getNext_frame in E as (? & ? & ?).
  apply fill_frame_set_front; assumption.
Qed.

Lemma case_TRIANGLE_STREAM_frame r r' :
  case_TRIANGLE_STREAM r = Ok r' -> fill_frame r r'.
Proof.
  unfold case_TRIANGLE_STREAM. intros H. outcome H.
  destruct (negb _); injection H as <-;
    (eapply fill_frame_trans; [eapply fill_frame_getNext; eassumption|]);
    (eapply fill_frame_trans; [apply fill_frame_set_upload|]);
    apply fill_frame_set_upload.
Qed.

Lemma case_TEXTURE_STREAM_frame r b r' :
  case_TEXTURE_STREAM r = Ok (b, r') -> fill_frame r r'.
Proof.
  unfold case_TEXTURE_STREAM. intros H. outcome H.
  destruct (_ =? _); injection H as <- <-;
    (eapply fill_frame_trans; [eapply fill_frame_getNext; eassumption|]);
    (eapply fill_frame_trans; [apply fill_frame_set_texture|]).
  - eapply fill_frame_trans; [apply fill_frame_set_texture|].
    apply fill_frame_set_upload.
  - apply fill_frame_refl.
Qed.

Lemma case_SET_REG_frame r r' : case_SET_REG r = Ok r' -> fill_frame r r'.
Proof.
  unfold case_SET_REG. intros H. outcome H. injection H as <-.
  eapply fill_frame_trans; [apply fill_frame_set_upload|].
  eapply fill_frame_trans; [eapply fill_frame_getNext; eassumption|].
  apply fill_frame_set_upload.
Qed.

End WalkerFrame.

Section WalkerSteps.
Context `{T : Target}.
Implicit Types r : Renderer.
Implicit Types l : List.

Lemma switchCommand_frame opv r b r' :
  switchCommand opv r = Ok (b, r') -> fill_frame r r'.
Proof.
  unfold switchCommand. intros H.
  destruct (_ =? TRIANGLE_STREAM).
  { outcome H. injection H as <- <-.
    eapply case_TRIANGLE_STREAM_frame; eassumption. }
  destruct (orb _ _).
  { injection H as <- <-. apply fill_frame_refl. }
  destruct (_ =? TEXTURE_STREAM).
  { eapply case_TEXTURE_STREAM_frame; eassumption. }
  destruct (_ =? SET_REG).
  { outcome H. injection H as <- <-.
    eapply case_SET_REG_frame; eassumption. }
  injection H as <- <-. apply fill_frame_set_upload.
Qed.

Lemma fillStep_frame r ctl r' : fillStep r = Ok (ctl, r') -> fill_frame r r'.
Proof.
  unfold fillStep. intros H.
  destruct (DisplayList.getNext sizeOf_SCT (frontList r)) as [[pOp|] front] eqn:E.
  2: { injection H as <- <-. apply fill_frame_refl. }
  outcome H. injection H as <- <-.
  eapply fill_frame_trans; [eapply fill_frame_getNext; eassumption|].
  eapply fill_frame_trans; [apply fill_frame_set_upload|].
  eapply fill_frame_trans; [apply fill_frame_set_upload|].
  eapply switchCommand_frame; eassumption.
Qed.

Lemma fillLoop_frame fuel : forall leaveLoop r r',
  fillLoop fuel leaveLoop r = Ok r' -> fill_frame r r'.
Proof.
  induction fuel as [|fuel IH]; intros leaveLoop r r' H; cbn [fillLoop] in H.
  - destruct (andb _ _); [discriminate H|]. injection H as <-.
    apply fill_frame_refl.
  - destruct (andb _ _).
    2: { injection H as <-. apply fill_frame_refl. }
    outcome H. destruct o as [leave|].
    + eapply fill_frame_trans; [eapply fillStep_frame; eassumption|].
      eapply IH; eassumption.
    + injection H as <-. eapply fillStep_frame; eassumption.
Qed.

End WalkerSteps.

(** ** The band walker: one call of [uploadDisplayList] *)

Section Tick.
Context `{T : Target}.
Implicit Types r : Renderer.
Implicit Types l : List.

Lemma tick_frame_refl r : tick_frame 0 r r.
Proof. split; intros; reflexivity. Qed.

Lemma tick_frame_trans n m r1 r2 r3 :
  tick_frame n r1 r2 -> tick_frame m r2 r3 -> tick_frame (m + n) r1 r3.
Proof.
  intros [] []. split; intros; try congruence.
  - rewrite tf_other1 by congruence. auto.
  - lia.
Qed.

Lemma fill_frame_tick r r' : fill_frame r r' -> tick_frame 0 r r'.
Proof. intros []. split; intros; cbn; try congruence; auto. Qed.

Lemma polled_frame r : tick_frame 1 r (polled r).
Proof. split; intros; reflexivity. Qed.

Lemma transferBlock_texture r :
  0 < remainingPixels (m_textureStreamArg r) ->
  transferBlock r =
    Ok (true,
        set_m_textureStreamArg
          (mkTextureStreamArg
             (ptr_add (pixels (m_textureStreamArg r)) PIXEL_INC)
             (i32 (u32 (remainingPixels (m_textureStreamArg r) - PIXEL_INC))))
          (set_m_busConnector
             (writeData (FromPixels (pixels (m_textureStreamArg r)))
                HARDWARE_BUFFER_SIZE (m_busConnector r)) r)).
Proof.
  intros H. unfold transferBlock.
  destruct (Z.ltb_spec 0 (remainingPixels (m_textureStreamArg r))); [|lia].
  reflexivity.
Qed.

(** The step that flushes the upload list for the current display line. *)
Lemma transferBlock_band r b r' :
  remainingPixels (m_textureStreamArg r) <= 0 ->
  transferBlock r = Ok (b, r') ->
  tick_frame 0 r r' /\
  (exists u,
     log (m_busConnector r') =
       log (m_busConnector r) ++
         [EvStartColorBufferTransfer (m_uploadIndexPosition r);
          EvWriteData (FromUploadList (DisplayList.mem u))
            (DisplayList.writePos u)]) /\
  ((b = false /\ m_uploadIndexPosition r = 0 /\
    DisplayList.state (frontList r') = DisplayList.FREE /\
    DisplayList.writePos (frontList r') = 0 /\
    DisplayList.readPos (frontList r') = 0) \/
   (b = true /\
    DisplayList.state (frontList r') = DisplayList.state (frontList r) /\
    DisplayList.writePos (frontList r') = DisplayList.writePos (frontList r) /\
    m_uploadIndexPosition r' = m_uploadIndexPosition r /\
    DisplayList.readPos (frontList r') <> DisplayList.writePos (frontList r')) \/
   (b = true /\
    DisplayList.state (frontList r') = DisplayList.state (frontList r) /\
    DisplayList.writePos (frontList r') = DisplayList.writePos (frontList r) /\
    m_uploadIndexPosition r <> 0 /\
    m_uploadIndexPosition r' = u32 (m_uploadIndexPosition r - 1) /\
    DisplayList.readPos (frontList r') = 0)).
Proof.
  intros Hrem H. unfold transferBlock in H.
  destruct (Z.ltb_spec 0 (remainingPixels (m_textureStreamArg r))); [lia|].
  outcome H.
  match type of E with fillLoop _ _ ?r0 = Ok ?r1 =>
    assert (F : fill_frame r r1) by
      (eapply fill_frame_trans;
       [apply (fill_frame_set_upload (DisplayList.clear (m_displayListUpload r)))
       | eapply fillLoop_frame; exact E])
  end.
  destruct F as [Ff Fb Fi Fbus Fc F1 F2 Fo Fm Fw Fs].
  unfold DisplayList.atEnd in H.
  destruct (Z.eqb_spec (DisplayList.readPos (frontList
     (set_m_busConnector
        (writeData (FromUploadList (DisplayList.mem (m_displayListUpload a)))
           (DisplayList.getSize (m_displayListUpload a))
           (startColorBufferTransfer (m_uploadIndexPosition a)
              (m_busConnector a))) a)))
     (DisplayList.writePos (frontList
     (set_m_busConnector
        (writeData (FromUploadList (DisplayList.mem (m_displayListUpload a)))
           (DisplayList.getSize (m_displayListUpload a))
           (startColorBufferTransfer (m_uploadIndexPosition a)
              (m_busConnector a))) a)))) as [Hend|Hend].
  - rsimpl.
    destruct (Z.eqb_spec (m_uploadIndexPosition a) 0) as [Hz|Hz];
      injection H as <- <-.
    + split; [|split].
      * split; frame_goal.
      * exists (m_displayListUpload a). rsimpl.
        rewrite <- app_assoc, Fbus, Fi. reflexivity.
      * left. rsimpl. rewrite <- Fi. auto.
    + split; [|split].
      * split; frame_goal.
      * exists (m_displayListUpload a). rsimpl.
        rewrite <- app_assoc, Fbus, Fi. reflexivity.
      * right. right. rsimpl. rewrite <- Fi.
        repeat split; first [assumption | reflexivity].
  - injection H as <- <-. rsimpl.
    split; [|split].
    + split; frame_goal.
    + exists (m_displayListUpload a).
      rewrite <- app_assoc, Fbus, Fi. reflexivity.
    + right. left. repeat split; first [assumption | reflexivity].
Qed.

End Tick.

Section Step.
Context `{T : Target}.
Implicit Types r : Renderer.
Implicit Types l : List.

Lemma queuedBlock_spec r :
  tick_frame 0 r (queuedBlock r) /\
  m_busConnector (queuedBlock r) = m_busConnector r /\
  m_textureStreamArg (queuedBlock r) = m_textureStreamArg r /\
  m_uploadIndexPosition (queuedBlock r) = start_index r /\
  DisplayList.writePos (frontList (queuedBlock r))
    = DisplayList.writePos (frontList r) /\
  DisplayList.readPos (frontList (queuedBlock r))
    = DisplayList.readPos (frontList r) /\
  DisplayList.state (frontList (queuedBlock r)) =
    match DisplayList.state (frontList r) with
    | DisplayList.QUEUED => DisplayList.TRANSFERRING
    | s => s
    end.
Proof.
  unfold queuedBlock, start_index.
  destruct (DisplayList.state (frontList r)) eqn:Es; cbn [DisplayList.State_eqb];
    rewrite ?Es;
    try (split; [apply tick_frame_refl | repeat split; reflexivity]).
  assert (Et : DisplayList.transfer (frontList r)
               = DisplayList.set_state DisplayList.TRANSFERRING (frontList r)).
  { unfold DisplayList.transfer. rewrite Es. reflexivity. }
  split; [split; frame_goal | repeat split; frame_goal].
  all: rewrite Et; reflexivity.
Qed.

Lemma uploadDisplayList_Step r b r' :
  uploadDisplayList r = Ok (b, r') -> Step r b r' /\ tick_frame 1 r r'.
Proof.
  unfold uploadDisplayList. cbn [clearToSend]. fold (bus_ready r).
  change (set_m_busConnector _ r) with (polled r).
  destruct (bus_ready r) eqn:Hready; cbn [negb].
  2: { intros [= <- <-]. split; [apply Step_wait; assumption|apply polled_frame]. }
  destruct (queuedBlock_spec (polled r)) as (Fq & Qbus & Qtex & Qidx & Qwp & Qrp & Qst).
  change (frontList (polled r)) with (frontList r) in *.
  change (start_index (polled r)) with (start_index r) in *.
  change (m_textureStreamArg (polled r)) with (m_textureStreamArg r) in *.
  assert (Hlog : log (m_busConnector (queuedBlock (polled r)))
                 = log (m_busConnector r)) by (rewrite Qbus; reflexivity).
  pose proof (tick_frame_trans _ _ _ _ _ (polled_frame r) Fq) as F1.
  destruct (DisplayList.State_eqb
              (DisplayList.state (frontList (queuedBlock (polled r))))
              DisplayList.TRANSFERRING) eqn:Ht.
  - assert (Hst : DisplayList.state (frontList (queuedBlock (polled r)))
                  = DisplayList.TRANSFERRING).
    { destruct (DisplayList.state (frontList (queuedBlock (polled r))));
        (discriminate Ht || reflexivity). }
    assert (Hnf : DisplayList.state (frontList r) <> DisplayList.FREE).
    { intros Hf. rewrite Hf in Qst. congruence. }
    destruct (Z.lt_ge_cases 0 (remainingPixels (m_textureStreamArg r)))
      as [Hrem|Hrem].
    + rewrite transferBlock_texture by (rewrite Qtex; exact Hrem).
      intros [= <- <-]. split.
      * apply Step_texture; try assumption; rsimpl; congruence.
      * eapply (tick_frame_trans _ 0); [exact F1|]. split; frame_goal.
    + intros H.
      apply transferBlock_band in H as (F2 & (u & Hl) & Hc);
        [|rewrite Qtex; exact Hrem].
      split; [|apply (tick_frame_trans _ 0 _ _ _ F1 F2)].
      rewrite Hlog, Qidx in Hl. rewrite Hst, Qwp, Qidx in Hc.
      destruct Hc as [(-> & ? & ? & ? & ?) | [(-> & ? & ? & ? & ?)
                     | (-> & ? & ? & ? & ? & ?)]].
      * eapply Step_last; eassumption.
      * eapply Step_band; eassumption.
      * eapply Step_rewind; eassumption.
  - intros [= <- <-].
    assert (Hf : DisplayList.state (frontList r) = DisplayList.FREE).
    { destruct (DisplayList.state (frontList r));
        [reflexivity | rewrite Qst in Ht; discriminate Ht
        | rewrite Qst in Ht; discriminate Ht]. }
    assert (Hq : queuedBlock (polled r) = polled r).
    { unfold queuedBlock. change (frontList (polled r)) with (frontList r).
      rewrite Hf. reflexivity. }
    rewrite Hq. split; [apply Step_idle; assumption | apply polled_frame].
Qed.

End Step.

(** ** The order of the display lines of a frame *)

Section Traces.
Implicit Types l : list Z.






End Traces.

Section Frames.
Context `{T : Target}.
Implicit Types r : Renderer.




(** When the drain loop of [commit] returns, the front list is free and the
    other list is the one it was. *)
Lemma Step_false r r' :
  Step r false r' -> DisplayList.state (frontList r') = DisplayList.FREE.
Proof.
  intros H. inversion H; subst; try assumption.
Qed.

Lemma drain_frame fuel : forall r r',
  drain fuel r = Ok r' ->
  (exists n, tick_frame n r r') /\
  DisplayList.state (frontList r') = DisplayList.FREE.
Proof.
  induction fuel as [|fuel IH]; intros r r' H; cbn [drain] in H.
  - discriminate H.
  - outcome H.
    apply uploadDisplayList_Step in E as [HS F].
    destruct b.
    + apply IH in H as [[n Fn] Hs]. split; [|exact Hs].
      exists (n + 1)%nat. eapply tick_frame_trans; eassumption.
    + injection H as <-. split; [exists 1%nat; exact F|].
      eapply Step_false; exact HS.
Qed.

End Frames.

(** ** One turn of the fill loop on a triangle or a texture *)

Section FillStep.
Context `{T : Target}.
Implicit Types r : Renderer.

Lemma sizeOf_lt (align raw : Z) :
  0 < align -> DisplayList.sizeOf align raw < raw + align.
Proof.
  intros Ha. unfold DisplayList.sizeOf.
  assert (Hnz : align <> 0) by lia.
  pose proof (Z.div_mod (raw + align - 1) align Hnz) as Hd.
  pose proof (Z.mod_pos_bound (raw + align - 1) align Ha) as Hm.
  nia.
Qed.

Lemma ALIGNMENT_range : target_ok -> 1 <= ALIGNMENT <= 8191.
Proof.
  intros (HB & _). unfold ALIGNMENT. split.
  - apply Z.div_le_lower_bound; lia.
  - enough (BUS_WIDTH / 8 < 8192) by lia. apply Z.div_lt_upper_bound; lia.
Qed.

Lemma sizes_range :
  target_ok ->
  0 < sizeOf_SCT < 2 ^ 14 /\
  0 < sizeOf_RasterizedTriangle < 2 ^ 31 + 2 ^ 14 /\
  0 < sizeOf_TextureStreamArg < 2 ^ 31 + 2 ^ 14.
Proof.
  intros Hok. pose proof (ALIGNMENT_range Hok) as HA.
  destruct Hok as (_ & _ & _ & _ & Ht & Hx).
  unfold sizeOf_SCT, sizeOf_RasterizedTriangle, sizeOf_TextureStreamArg.
  assert (Ha : 0 < ALIGNMENT) by lia.
  pose proof (sizeOf_pos ALIGNMENT 2 Ha eq_refl).
  pose proof (sizeOf_lt ALIGNMENT 2 Ha).
  assert (Ht0 : 0 < sizeof_RasterizedTriangle) by lia.
  pose proof (sizeOf_pos ALIGNMENT sizeof_RasterizedTriangle Ha Ht0).
  pose proof (sizeOf_lt ALIGNMENT sizeof_RasterizedTriangle Ha).
  pose proof (sizeOf_pos ALIGNMENT sizeof_TextureStreamArg Ha (proj1 Hx)).
  pose proof (sizeOf_lt ALIGNMENT sizeof_TextureStreamArg Ha).
  lia.
Qed.

Lemma getNext_ok {C} size (l : DisplayList.t C) :
  DisplayList.readPos l + size <= DisplayList.writePos l ->
  DisplayList.getNext size l =
    (Some (DisplayList.readPos l),
     DisplayList.set_readPos (DisplayList.readPos l + size) l).
Proof.
  intros H. unfold DisplayList.getNext.
  destruct (Z.leb_spec (DisplayList.readPos l + size) (DisplayList.writePos l));
    [reflexivity | lia].
Qed.

Lemma create_ok {C} cap size (l : DisplayList.t C) :
  DisplayList.writePos l + size <= cap ->
  DisplayList.create cap size l =
    (Some (DisplayList.writePos l),
     DisplayList.set_writePos (DisplayList.writePos l + size) l).
Proof.
  intros H. unfold DisplayList.create.
  destruct (Z.leb_spec (DisplayList.writePos l + size) cap); [reflexivity | lia].
Qed.

(** The guard of the fill loop leaves room for an opcode and a triangle. *)
Lemma hasEnoughSpace_room (u : ListUpload) :
  target_ok ->
  0 <= DisplayList.writePos u <= HARDWARE_BUFFER_SIZE ->
  hasEnoughSpace HARDWARE_BUFFER_SIZE u = true ->
  DisplayList.writePos u + sizeOf_SCT + sizeOf_RasterizedTriangle
    <= HARDWARE_BUFFER_SIZE.
Proof.
  intros Hok Hw. pose proof (sizes_range Hok) as (Hs & Ht & _).
  unfold hasEnoughSpace, DisplayList.getFreeSpace, HARDWARE_BUFFER_SIZE in *.
  rewrite !u32_small by lia. intros H. apply Z.leb_le in H. lia.
Qed.

(** The two band limits handed to [calcLineIncrement]. *)
Lemma band_limits (i : Z) :
  0 <= i -> 0 <= LINE_RESOLUTION -> (i + 1) * LINE_RESOLUTION <= 65535 ->
  u16 (u32 (i * LINE_RESOLUTION)) = i * LINE_RESOLUTION /\
  u16 (u32 (u32 (i + 1) * LINE_RESOLUTION)) = (i + 1) * LINE_RESOLUTION.
Proof.
  intros Hi HL Hfit.
  destruct (Z.eq_dec LINE_RESOLUTION 0) as [->|Hne].
  - rewrite !Z.mul_0_r. split; reflexivity.
  - assert (i + 1 <= 65535) by nia.
    rewrite (u32_small (i + 1)) by lia.
    rewrite !u16_u32. split; apply u16_small; nia.
Qed.

End FillStep.

Section FillCases.
Context `{T : Target}.
Implicit Types r : Renderer.

Lemma fillStep_command r op :
  DisplayList.writePos (m_displayListUpload r) + sizeOf_SCT
    <= HARDWARE_BUFFER_SIZE ->
  DisplayList.readPos (frontList r) + sizeOf_SCT
    <= DisplayList.writePos (frontList r) ->
  DisplayList.load (DisplayList.readPos (frontList r)) (frontList r)
    = Some (CCommand op) ->
  fillStep r =
    ('(leaveLoop, r') ← switchCommand op (copied op r); Ok (Some leaveLoop, r')).
Proof.
  intros Hup Hrp Hop. unfold fillStep.
  rewrite getNext_ok by lia.
  unfold loadCommand. rsimpl. unfold DisplayList.load in *. rsimpl.
  rewrite Hop. cbn [mbind Outcome_bind].
  rewrite create_ok by lia. cbn [deref mbind Outcome_bind]. rsimpl.
  reflexivity.
Qed.

Lemma switchCommand_TRIANGLE op r :
  Z.land op STREAM_COMMAND_OP_MASK = TRIANGLE_STREAM ->
  switchCommand op r = (r' ← case_TRIANGLE_STREAM r; Ok (false, r')).
Proof. intros H. unfold switchCommand. rewrite H. reflexivity. Qed.

Lemma switchCommand_TEXTURE op r :
  Z.land op STREAM_COMMAND_OP_MASK = TEXTURE_STREAM ->
  switchCommand op r = case_TEXTURE_STREAM r.
Proof. intros H. unfold switchCommand. rewrite H. reflexivity. Qed.

Lemma case_TRIANGLE_STREAM_ok r tIn :
  target_ok ->
  0 <= DisplayList.writePos (m_displayListUpload r) - sizeOf_SCT ->
  DisplayList.writePos (m_displayListUpload r) + sizeOf_RasterizedTriangle
    <= HARDWARE_BUFFER_SIZE ->
  DisplayList.readPos (frontList r) + sizeOf_RasterizedTriangle
    <= DisplayList.writePos (frontList r) ->
  DisplayList.load (DisplayList.readPos (frontList r)) (frontList r)
    = Some (CTriangle tIn) ->
  0 <= m_uploadIndexPosition r ->
  (m_uploadIndexPosition r + 1) * LINE_RESOLUTION <= 65535 ->
  exists r',
    case_TRIANGLE_STREAM r = Ok r' /\
    DisplayList.readPos (frontList r') =
      DisplayList.readPos (frontList r) + sizeOf_RasterizedTriangle /\
    DisplayList.mem (m_displayListUpload r') =
      <[DisplayList.writePos (m_displayListUpload r) :=
          CTriangle (snd (calcLineIncrement tIn
                            (m_uploadIndexPosition r * LINE_RESOLUTION)
                            ((m_uploadIndexPosition r + 1) * LINE_RESOLUTION)))]>
        (DisplayList.mem (m_displayListUpload r)) /\
    DisplayList.writePos (m_displayListUpload r') =
      (if fst (calcLineIncrement tIn
                 (m_uploadIndexPosition r * LINE_RESOLUTION)
                 ((m_uploadIndexPosition r + 1) * LINE_RESOLUTION))
       then DisplayList.writePos (m_displayListUpload r)
            + sizeOf_RasterizedTriangle
       else DisplayList.writePos (m_displayListUpload r) - sizeOf_SCT).
Proof.
  intros Hok Hsct Hup Hrp Htri Hi Hfit.
  pose proof (sizes_range Hok) as (Hs & Ht & _).
  assert (HL : 0 <= LINE_RESOLUTION) by (destruct Hok as (_ & _ & ? & _); lia).
  destruct (band_limits _ Hi HL Hfit) as [Hstart Hend].
  unfold case_TRIANGLE_STREAM.
  rewrite getNext_ok by lia.
  rsimpl. rewrite create_ok by lia. rsimpl.
  cbn [deref mbind Outcome_bind]. unfold loadTriangle.
  unfold DisplayList.load in *. rsimpl. rewrite Htri. cbn [mbind Outcome_bind].
  rewrite Hstart, Hend.
  destruct (calcLineIncrement tIn _ _) as [visible tOut].
  destruct visible; cbn [negb fst snd].
  - eexists. split; [reflexivity|]. rsimpl. auto.
  - eexists. split; [reflexivity|]. rsimpl. split; [reflexivity|].
    split; [reflexivity|].
    unfold HARDWARE_BUFFER_SIZE in *.
    replace (DisplayList.writePos (m_displayListUpload r)
             + sizeOf_RasterizedTriangle - sizeOf_RasterizedTriangle)
      with (DisplayList.writePos (m_displayListUpload r)) by lia.
    rewrite (u32_small (DisplayList.writePos _)) by lia.
    apply u32_small. lia.
Qed.

Lemma case_TEXTURE_STREAM_ok r new :
  target_ok ->
  0 <= DisplayList.writePos (m_displayListUpload r) - sizeOf_SCT ->
  DisplayList.writePos (m_displayListUpload r) <= HARDWARE_BUFFER_SIZE ->
  DisplayList.readPos (frontList r) + sizeOf_TextureStreamArg
    <= DisplayList.writePos (frontList r) ->
  DisplayList.load (DisplayList.readPos (frontList r)) (frontList r)
    = Some (CTexture new) ->
  let popped :=
    set_frontList
      (DisplayList.set_readPos
         (DisplayList.readPos (frontList r) + sizeOf_TextureStreamArg)
         (frontList r)) r in
  case_TEXTURE_STREAM r =
    if ptr_add (pixels new) (remainingPixels new)
         =? pixels (m_textureStreamArg r)
    then
      Ok (false,
          set_m_displayListUpload
            (DisplayList.set_writePos
               (DisplayList.writePos (m_displayListUpload r) - sizeOf_SCT)
               (m_displayListUpload r))
            (set_m_textureStreamArg
               (mkTextureStreamArg
                  (ptr_add (pixels new) (remainingPixels new)) 0) popped))
    else Ok (true, set_m_textureStreamArg new popped).
Proof.
  intros Hok Hsct Hup Hrp Htex popped. subst popped.
  pose proof (sizes_range Hok) as (Hs & _ & Hx).
  unfold case_TEXTURE_STREAM.
  rewrite getNext_ok by lia.
  rsimpl. cbn [deref mbind Outcome_bind]. unfold loadTextureStreamArg.
  unfold DisplayList.load in *. rsimpl. rewrite Htex. cbn [mbind Outcome_bind].
  rsimpl.
  destruct (_ =? _); [|reflexivity].
  unfold HARDWARE_BUFFER_SIZE, DisplayList.remove in *.
  rewrite u32_small by lia. reflexivity.
Qed.

End FillCases.

(** ** The walker goes on: a well-formed frame is sent in full *)

Section Progress.
Context `{T : Target}.
Implicit Types r : Renderer.
Implicit Types l : List.

Lemma payload_size_nonneg op : target_ok -> 0 <= payload_size op.
Proof.
  intros Hok. pose proof (sizes_range Hok) as (Hs & Ht & Hx).
  unfold payload_size, sizeOf_u16. fold sizeOf_SCT.
  repeat match goal with |- context [if ?c then _ else _] => destruct c end; lia.
Qed.

Lemma Stream_le l p : target_ok -> Stream l p -> p <= DisplayList.writePos l.
Proof.
  intros Hok H. pose proof (sizes_range Hok) as (Hs & _).
  induction H as [|pos op _ _ _ IH]; [lia|].
  pose proof (payload_size_nonneg op Hok). lia.
Qed.

Lemma Stream_ext l l' p :
  DisplayList.mem l' = DisplayList.mem l ->
  DisplayList.writePos l' = DisplayList.writePos l ->
  Stream l p -> Stream l' p.
Proof.
  intros Hm Hw H. induction H as [|pos op Hop Hpay _ IH].
  - rewrite <- Hw. apply Stream_end.
  - apply (Stream_record l' pos op); [| |exact IH].
    + unfold DisplayList.load in *. rewrite Hm. exact Hop.
    + unfold payload_ok, loadU16, DisplayList.load in *. rewrite Hm. exact Hpay.
Qed.

Lemma sizeOf_mono (align a b : Z) :
  0 < align -> a <= b -> DisplayList.sizeOf align a <= DisplayList.sizeOf align b.
Proof.
  intros Ha Hab. unfold DisplayList.sizeOf.
  apply Z.mul_le_mono_nonneg_r; [lia|].
  apply Z.div_le_mono; lia.
Qed.

Lemma sizeOf_u16_le : target_ok -> sizeOf_u16 <= sizeOf_RasterizedTriangle.
Proof.
  intros Hok. pose proof (ALIGNMENT_range Hok).
  destruct Hok as (_ & _ & _ & _ & Ht & _).
  apply sizeOf_mono; lia.
Qed.

Lemma case_TRIANGLE_STREAM_total r tIn :
  target_ok ->
  0 <= DisplayList.writePos (m_displayListUpload r) - sizeOf_SCT ->
  DisplayList.writePos (m_displayListUpload r) + sizeOf_RasterizedTriangle
    <= HARDWARE_BUFFER_SIZE ->
  DisplayList.readPos (frontList r) + sizeOf_RasterizedTriangle
    <= DisplayList.writePos (frontList r) ->
  DisplayList.load (DisplayList.readPos (frontList r)) (frontList r)
    = Some (CTriangle tIn) ->
  exists r',
    case_TRIANGLE_STREAM r = Ok r' /\
    DisplayList.readPos (frontList r') =
      DisplayList.readPos (frontList r) + sizeOf_RasterizedTriangle /\
    m_textureStreamArg r' = m_textureStreamArg r /\
    (DisplayList.writePos (m_displayListUpload r')
       = DisplayList.writePos (m_displayListUpload r) + sizeOf_RasterizedTriangle \/
     DisplayList.writePos (m_displayListUpload r')
       = DisplayList.writePos (m_displayListUpload r) - sizeOf_SCT).
Proof.
  intros Hok Hsct Hup Hrp Htri.
  pose proof (sizes_range Hok) as (Hs & Ht & _).
  unfold case_TRIANGLE_STREAM.
  rewrite getNext_ok by lia.
  rsimpl. rewrite create_ok by lia. rsimpl.
  cbn [deref mbind Outcome_bind]. unfold loadTriangle.
  unfold DisplayList.load in *. rsimpl. rewrite Htri. cbn [mbind Outcome_bind].
  destruct (calcLineIncrement tIn _ _) as [visible tOut].
  destruct visible; cbn [negb fst snd].
  - eexists. split; [reflexivity|]. rsimpl. auto.
  - eexists. split; [reflexivity|]. rsimpl. split; [reflexivity|].
    split; [reflexivity|]. right.
    unfold HARDWARE_BUFFER_SIZE in *.
    replace (DisplayList.writePos (m_displayListUpload r)
             + sizeOf_RasterizedTriangle - sizeOf_RasterizedTriangle)
      with (DisplayList.writePos (m_displayListUpload r)) by lia.
    rewrite (u32_small (DisplayList.writePos _)) by lia.
    apply u32_small. lia.
Qed.

Lemma case_SET_REG_total r c :
  DisplayList.writePos (m_displayListUpload r) + sizeOf_u16
    <= HARDWARE_BUFFER_SIZE ->
  DisplayList.readPos (frontList r) + sizeOf_u16
    <= DisplayList.writePos (frontList r) ->
  loadU16 (frontList r) (DisplayList.readPos (frontList r)) = Ok c ->
  exists r',
    case_SET_REG r = Ok r' /\
    DisplayList.readPos (frontList r') =
      DisplayList.readPos (frontList r) + sizeOf_u16 /\
    m_textureStreamArg r' = m_textureStreamArg r /\
    DisplayList.writePos (m_displayListUpload r')
      = DisplayList.writePos (m_displayListUpload r) + sizeOf_u16.
Proof.
  intros Hup Hrp Hld. unfold case_SET_REG.
  rewrite create_ok by lia. rsimpl.
  rewrite getNext_ok by lia. rsimpl.
  cbn [deref mbind Outcome_bind].
  unfold loadU16, DisplayList.load in *. rsimpl.
  destruct (DisplayList.mem (m_displayList (m_frontList r) r)
              !! DisplayList.readPos (m_displayList (m_frontList r) r))
    as [[| | | | |]|]; try discriminate Hld; cbn [mbind Outcome_bind];
    (eexists; split; [reflexivity|]; rsimpl; auto).
Qed.

(** Whatever the opcode, the [switch] goes through on a payload of the right
    kind. *)
Lemma switchCommand_total op r :
  target_ok ->
  0 <= DisplayList.writePos (m_displayListUpload r) - sizeOf_SCT ->
  DisplayList.writePos (m_displayListUpload r) + sizeOf_RasterizedTriangle
    <= HARDWARE_BUFFER_SIZE ->
  payload_ok (frontList r) (DisplayList.readPos (frontList r)) op ->
  DisplayList.readPos (frontList r) + payload_size op
    <= DisplayList.writePos (frontList r) ->
  - 2 ^ 31 <= remainingPixels (m_textureStreamArg r) < 2 ^ 31 ->
  exists leaveLoop r',
    switchCommand op r = Ok (leaveLoop, r') /\
    DisplayList.readPos (frontList r') =
      DisplayList.readPos (frontList r) + payload_size op /\
    - 2 ^ 31 <= remainingPixels (m_textureStreamArg r') < 2 ^ 31 /\
    DisplayList.writePos (m_displayListUpload r) - sizeOf_SCT
      <= DisplayList.writePos (m_displayListUpload r')
      <= HARDWARE_BUFFER_SIZE.
Proof.
  intros Hok Hsct Hup Hpay Hrp Hrem.
  pose proof (sizes_range Hok) as (Hs & Ht & Hx).
  pose proof (sizeOf_u16_le Hok) as Hu.
  assert (Hu0 : 0 < sizeOf_u16) by exact (proj1 Hs).
  unfold switchCommand, payload_ok, payload_size in *.
  destruct (_ =? TRIANGLE_STREAM).
  { destruct Hpay as [tIn Htri].
    destruct (case_TRIANGLE_STREAM_total r tIn Hok Hsct Hup Hrp Htri)
      as (r' & -> & Hr & Hc & Hw).
    cbn [mbind Outcome_bind]. exists false, r'.
    split; [reflexivity|]. split; [exact Hr|]. rewrite Hc.
    split; [exact Hrem|]. lia. }
  destruct (orb _ _).
  { exists false, r. split; [reflexivity|]. split; [lia|].
    split; [exact Hrem|]. lia. }
  destruct (_ =? TEXTURE_STREAM).
  { destruct Hpay as (a & Htex & Ha).
    assert (Hup' : DisplayList.writePos (m_displayListUpload r)
                   <= HARDWARE_BUFFER_SIZE) by lia.
    rewrite (case_TEXTURE_STREAM_ok r a Hok Hsct Hup' Hrp Htex).
    destruct (_ =? _); eexists _, _; (split; [reflexivity|]); rsimpl;
      cbn [remainingPixels pixels];
      (split; [reflexivity|]); (split; [lia|]); lia. }
  destruct (_ =? SET_REG).
  { destruct Hpay as [c Hc].
    assert (Hup' : DisplayList.writePos (m_displayListUpload r) + sizeOf_u16
                   <= HARDWARE_BUFFER_SIZE) by lia.
    destruct (case_SET_REG_total r c Hup' Hrp Hc) as (r' & -> & Hr & Ht' & Hw).
    cbn [mbind Outcome_bind]. exists false, r'.
    split; [reflexivity|]. split; [exact Hr|]. rewrite Ht'.
    split; [exact Hrem|]. lia. }
  exists false. eexists. split; [reflexivity|]. rsimpl.
  split; [lia|]. split; [exact Hrem|].
  unfold HARDWARE_BUFFER_SIZE in *. rewrite u32_small by lia. lia.
Qed.

Lemma payload_ok_ext l l' p op :
  DisplayList.mem l' = DisplayList.mem l ->
  payload_ok l p op -> payload_ok l' p op.
Proof.
  intros Hm. unfold payload_ok, loadU16, DisplayList.load. rewrite Hm. auto.
Qed.

Lemma filling_copied_frame op r : fill_frame r (copied op r).
Proof.
  unfold copied.
  eapply fill_frame_trans; [|apply fill_frame_set_upload].
  apply fill_frame_set_front; reflexivity.
Qed.

(** One turn of the fill loop on a well-formed list goes through: it stops
    at the end of the list or takes a whole record. *)
Lemma fillStep_total r :
  target_ok -> filling r ->
  hasEnoughSpace HARDWARE_BUFFER_SIZE (m_displayListUpload r) = true ->
  (DisplayList.readPos (frontList r) = DisplayList.writePos (frontList r) /\
   fillStep r = Ok (None, r)) \/
  (exists leaveLoop r',
     fillStep r = Ok (Some leaveLoop, r') /\ filling r' /\
     DisplayList.readPos (frontList r) < DisplayList.readPos (frontList r')).
Proof.
  intros Hok (Hrp0 & HS & Hup & Hrem) Hroom.
  pose proof (sizes_range Hok) as (Hs & Ht & Hx).
  pose proof (hasEnoughSpace_room _ Hok Hup Hroom) as Hfree.
  remember (DisplayList.readPos (frontList r)) as rp eqn:Erp.
  destruct HS as [|pos op Hop Hpay Htail].
  - left. split; [reflexivity|]. unfold fillStep, DisplayList.getNext.
    rewrite <- Erp.
    destruct (Z.leb_spec (DisplayList.writePos (frontList r) + sizeOf_SCT)
                (DisplayList.writePos (frontList r))); [lia|reflexivity].
  - right. subst pos.
    pose proof (Stream_le _ _ Hok Htail) as Hle.
    pose proof (payload_size_nonneg op Hok) as Hps.
    rewrite (fillStep_command r op) by (assumption || lia).
    pose proof (filling_copied_frame op r) as [_ _ _ _ _ _ _ _ Fm Fw _].
    assert (Hrc : DisplayList.readPos (frontList (copied op r))
                  = DisplayList.readPos (frontList r) + sizeOf_SCT)
      by (unfold copied; rsimpl; reflexivity).
    assert (Huc : DisplayList.writePos (m_displayListUpload (copied op r))
                  = DisplayList.writePos (m_displayListUpload r) + sizeOf_SCT)
      by (unfold copied; rsimpl; reflexivity).
    assert (Htc : m_textureStreamArg (copied op r) = m_textureStreamArg r)
      by (unfold copied; rsimpl; reflexivity).
    destruct (switchCommand_total op (copied op r) Hok)
      as (leaveLoop & r' & E & Hr' & Hrem' & Hw').
    + rewrite Huc. lia.
    + rewrite Huc. lia.
    + rewrite Hrc. eapply payload_ok_ext; [exact Fm | exact Hpay].
    + rewrite Hrc, Fw. lia.
    + rewrite Htc. exact Hrem.
    + rewrite E. cbn [mbind Outcome_bind]. exists leaveLoop, r'.
      split; [reflexivity|].
      pose proof (switchCommand_frame _ _ _ _ E) as [_ _ _ _ _ _ _ _ Fm' Fw' _].
      rewrite Hrc in Hr'. rewrite Huc in Hw'.
      split; [|lia].
      split; [lia|]. split; [|split; [lia | exact Hrem']].
      rewrite Hr'. eapply Stream_ext; [| |exact Htail]; congruence.
Qed.

Lemma fillLoop_total fuel : forall leaveLoop r,
  target_ok -> filling r ->
  (Z.to_nat (DisplayList.writePos (frontList r)
             - DisplayList.readPos (frontList r)) < fuel)%nat ->
  exists r',
    fillLoop fuel leaveLoop r = Ok r' /\ filling r' /\
    DisplayList.readPos (frontList r) <= DisplayList.readPos (frontList r') /\
    (leaveLoop = false ->
     hasEnoughSpace HARDWARE_BUFFER_SIZE (m_displayListUpload r) = true ->
     DisplayList.readPos (frontList r) < DisplayList.writePos (frontList r) ->
     DisplayList.readPos (frontList r) < DisplayList.readPos (frontList r')).
Proof.
  induction fuel as [|fuel IH]; intros leaveLoop r Hok Hf Hfuel; [lia|].
  cbn [fillLoop].
  destruct (negb leaveLoop
            && hasEnoughSpace HARDWARE_BUFFER_SIZE (m_displayListUpload r))
    eqn:Hc.
  2: { exists r. split; [reflexivity|]. split; [exact Hf|]. split; [lia|].
       intros -> Hroom _. rewrite Hroom in Hc. discriminate Hc. }
  apply andb_true_iff in Hc as [_ Hroom].
  destruct (fillStep_total r Hok Hf Hroom)
    as [(Hend & E) | (leave' & r1 & E & Hf1 & Hlt)]; rewrite E;
    cbn [mbind Outcome_bind].
  - exists r. split; [reflexivity|]. split; [exact Hf|]. split; lia.
  - pose proof Hf1 as (Hrp1 & HS1 & _).
    pose proof (Stream_le _ _ Hok HS1) as Hle1.
    pose proof (fillStep_frame _ _ _ E) as [_ _ _ _ _ _ _ _ _ Fw _].
    destruct (IH leave' r1 Hok Hf1) as (r' & E' & Hf' & Hle & _); [lia|].
    exists r'. split; [exact E'|]. split; [exact Hf'|]. split; lia.
Qed.

Lemma i32_small (x : Z) : - 2 ^ 31 <= x < 2 ^ 31 -> i32 x = x.
Proof. intros H. unfold i32. rewrite Z.mod_small by lia. lia. Qed.

Lemma i32_u32 (x : Z) : i32 (u32 x) = i32 x.
Proof.
  unfold i32, u32.
  rewrite Zplus_mod_idemp_l. reflexivity.
Qed.

(** The block for a list in transfer goes through on a well-formed list,
    and unless it ends the frame it leaves less work. *)
Lemma transferBlock_total r :
  target_ok ->
  sizeOf_SCT + sizeOf_RasterizedTriangle <= HARDWARE_BUFFER_SIZE ->
  DisplayList.state (frontList r) = DisplayList.TRANSFERRING ->
  sending r ->
  exists b r',
    transferBlock r = Ok (b, r') /\
    (b = false \/ (sending r' /\ less_work (work r') (work r))).
Proof.
  intros Hok Hfit Hst (_ & Hrp & HS0 & HS & Hidx & Hrem & Hbus).
  pose proof (sizes_range Hok) as (Hs & Ht & Hx).
  assert (Hsi : start_index r = m_uploadIndexPosition r).
  { unfold start_index. rewrite Hst. reflexivity. }
  destruct (Z.lt_ge_cases 0 (remainingPixels (m_textureStreamArg r)))
    as [Hpos|Hnon].
  - rewrite transferBlock_texture by exact Hpos.
    eexists _, _. split; [reflexivity|]. right.
    assert (Hnew : i32 (u32 (remainingPixels (m_textureStreamArg r) - PIXEL_INC))
                   = remainingPixels (m_textureStreamArg r) - 1024).
    { rewrite i32_u32. apply i32_small. unfold PIXEL_INC, HARDWARE_BUFFER_SIZE.
      change (2048 / 2) with 1024. lia. }
    split.
    + unfold sending. rsimpl. cbn [remainingPixels]. rewrite Hnew.
      repeat split; auto; lia.
    + unfold work, start_index. rsimpl. cbn [remainingPixels].
      rewrite Hst, Hnew. cbn [less_work DisplayList.State_eqb].
      right. right. repeat split; lia.
  - unfold transferBlock.
    destruct (Z.ltb_spec 0 (remainingPixels (m_textureStreamArg r))); [lia|].
    set (r0 := set_m_displayListUpload
                 (DisplayList.clear (m_displayListUpload r)) r).
    assert (Hf0 : filling r0).
    { unfold filling, r0, HARDWARE_BUFFER_SIZE. rsimpl.
      repeat split; auto; lia. }
    assert (Hroom0 : hasEnoughSpace HARDWARE_BUFFER_SIZE (m_displayListUpload r0)
                     = true).
    { unfold hasEnoughSpace, DisplayList.getFreeSpace, r0, HARDWARE_BUFFER_SIZE in *.
      rsimpl. rewrite !u32_small by lia. apply Z.leb_le. lia. }
    pose proof (Stream_le _ _ Hok HS) as Hle.
    destruct (fillLoop_total (fillFuel r0) false r0 Hok Hf0)
      as (r1 & E & Hf1 & Hmono & Hprog).
    { unfold fillFuel, r0. rsimpl. lia. }
    rewrite E. cbn [mbind Outcome_bind].
    pose proof (fillLoop_frame _ _ _ _ E) as [Ff Fb Fi Fbus Fc F1 F2 Fo Fm Fw Fs].
    change (frontList r0) with (frontList r) in *.
    change (m_uploadIndexPosition r0) with (m_uploadIndexPosition r) in *.
    change (m_busConnector r0) with (m_busConnector r) in *.
    destruct Hf1 as (Hrp1 & HS1 & _ & Hrem1).
    pose proof (Stream_le _ _ Hok HS1) as Hle1.
    assert (HS01 : Stream (frontList r1) 0)
      by (eapply Stream_ext; [exact Fm | exact Fw | exact HS0]).
    unfold DisplayList.atEnd. rsimpl.
    destruct (Z.eqb_spec (DisplayList.readPos (m_displayList (m_frontList r1) r1))
                (DisplayList.writePos (m_displayList (m_frontList r1) r1)))
      as [Hend|Hend].
    + destruct (Z.eqb_spec (m_uploadIndexPosition r1) 0) as [Hz|Hz].
      * eexists _, _. split; [reflexivity|]. left. reflexivity.
      * eexists _, _. split; [reflexivity|]. right.
        assert (Hidx1 : u32 (m_uploadIndexPosition r1 - 1)
                        = m_uploadIndexPosition r1 - 1)
          by (apply u32_small; lia).
        split.
        -- unfold sending. rsimpl. rewrite Hidx1, Fs, Hst, Fbus.
           split; [right; reflexivity|]. split; [lia|].
           assert (HSr : Stream
                     (DisplayList.set_readPos 0 (m_displayList (m_frontList r1) r1))
                     0)
             by (eapply Stream_ext; [| |exact HS01]; reflexivity).
           repeat split; auto; lia.
        -- unfold work, start_index. rsimpl. rewrite Hidx1, Fs, Hst, Fi.
           cbn [less_work DisplayList.State_eqb]. left. lia.
    + eexists _, _. split; [reflexivity|]. right. split.
      * unfold sending. rsimpl. rewrite Fs, Hst, Fi, Fbus.
        split; [right; reflexivity|]. repeat split; auto; lia.
      * unfold work, start_index. rsimpl. rewrite Fs, Hst, Fi, Fw.
        cbn [less_work DisplayList.State_eqb]. right. left.
        assert (DisplayList.readPos (m_displayList (m_frontList r) r)
                < DisplayList.readPos (m_displayList (m_frontList r1) r1)).
        { apply Hprog; [reflexivity | exact Hroom0 |]. lia. }
        split; [reflexivity|]. lia.
Qed.

Lemma uploadDisplayList_total r :
  target_ok ->
  sizeOf_SCT + sizeOf_RasterizedTriangle <= HARDWARE_BUFFER_SIZE ->
  sending r ->
  exists b r',
    uploadDisplayList r = Ok (b, r') /\
    (b = false \/ (sending r' /\ less_work (work r') (work r))).
Proof.
  intros Hok Hfit Hsend.
  pose proof Hsend as (Hst & Hrp & HS0 & HS & Hidx & Hrem & Hbus).
  unfold uploadDisplayList. cbn [clearToSend].
  rewrite (Hbus _ (le_n _)). cbn [negb].
  change (set_m_busConnector _ r) with (polled r).
  destruct (queuedBlock_spec (polled r))
    as (Fq & Qbus & Qtex & Qidx & Qwp & Qrp & Qst).
  change (frontList (polled r)) with (frontList r) in *.
  change (start_index (polled r)) with (start_index r) in *.
  change (m_textureStreamArg (polled r)) with (m_textureStreamArg r) in *.
  set (q := queuedBlock (polled r)) in *.
  assert (Hq : DisplayList.state (frontList q) = DisplayList.TRANSFERRING).
  { rewrite Qst. destruct Hst as [-> | ->]; reflexivity. }
  rewrite Hq. cbn [DisplayList.State_eqb].
  destruct Fq as [_ _ _ _ _ _ Fm _ _].
  change (frontList (polled r)) with (frontList r) in Fm.
  assert (Hsq : sending q).
  { unfold sending. rewrite Qrp, Qidx, Qtex, Qbus.
    split; [right; exact Hq|]. split; [exact Hrp|].
    split; [eapply Stream_ext; [exact Fm | exact Qwp | exact HS0]|].
    split; [eapply Stream_ext; [exact Fm | exact Qwp | exact HS]|].
    split; [|split; [exact Hrem|]].
    2: { intros n Hn. apply Hbus. cbn [polled clearToSend snd polls
           set_m_busConnector m_busConnector] in Hn. lia. }
    unfold start_index. destruct (DisplayList.State_eqb _ _); [|exact Hidx].
    unfold u32. apply Z.mod_pos_bound. lia. }
  assert (Hwq : work q = work r).
  { unfold work. rewrite Qwp, Qrp, Qtex.
    unfold start_index at 1. rewrite Hq. cbn [DisplayList.State_eqb].
    rewrite Qidx. reflexivity. }
  destruct (transferBlock_total q Hok Hfit Hq Hsq) as (b & r' & E & Hres).
  exists b, r'. split; [exact E|]. rewrite <- Hwq. exact Hres.
Qed.

(** On a bus that is always clear to send, the drain loop returns. *)
Lemma drain_total :
  target_ok ->
  sizeOf_SCT + sizeOf_RasterizedTriangle <= HARDWARE_BUFFER_SIZE ->
  forall a b c r,
    sending r -> work r = (a, b, c) ->
    exists fuel r', drain fuel r = Ok r'.
Proof.
  intros Hok Hfit.
  induction a as [a IHa] using lt_wf_ind.
  induction b as [b IHb] using lt_wf_ind.
  induction c as [c IHc] using lt_wf_ind.
  intros r Hsend Hw.
  destruct (uploadDisplayList_total r Hok Hfit Hsend)
    as (busy & r' & E & [-> | [Hsend' Hless]]).
  - exists 1%nat, r'. cbn [drain]. rewrite E. reflexivity.
  - rewrite Hw in Hless.
    destruct (work r') as [[a' b'] c'] eqn:Hw'. cbn [less_work] in Hless.
    assert (Hnext : exists fuel r'', drain fuel r' = Ok r'').
    { destruct Hless as [Ha | [[-> Hb] | (-> & -> & Hc)]].
      - exact (IHa a' Ha b' c' r' Hsend' Hw').
      - exact (IHb b' Hb c' r' Hsend' Hw').
      - exact (IHc c' Hc r' Hsend' Hw'). }
    destruct Hnext as (fuel & r'' & E').
    destruct busy.
    + exists (S fuel), r''. cbn [drain]. rewrite E. exact E'.
    + exists 1%nat, r'. cbn [drain]. rewrite E. reflexivity.
Qed.

Lemma payload_okb_sound l p op : payload_okb l p op = true -> payload_ok l p op.
Proof.
  unfold payload_okb, payload_ok.
  destruct (_ =? TRIANGLE_STREAM).
  { destruct (DisplayList.load p l) as [[| t | | | |]|]; try discriminate.
    intros _. exists t. reflexivity. }
  destruct (orb _ _); [auto|].
  destruct (_ =? TEXTURE_STREAM).
  { destruct (DisplayList.load p l) as [[| | a | | |]|]; try discriminate.
    intros H. apply andb_true_iff in H as [H1 H2].
    apply Z.leb_le in H1. apply Z.ltb_lt in H2. exists a. split; [reflexivity|lia]. }
  destruct (_ =? SET_REG); [|auto].
  destruct (loadU16 l p) as [c| |]; try discriminate.
  intros _. exists c. reflexivity.
Qed.

Lemma streamb_sound fuel : forall l pos, streamb fuel l pos = true -> Stream l pos.
Proof.
  induction fuel as [|fuel IH]; intros l pos H; cbn [streamb] in H;
    [discriminate H|].
  destruct (Z.eqb_spec pos (DisplayList.writePos l)) as [Heq|_];
    [rewrite Heq; apply Stream_end|].
  destruct (DisplayList.load pos l) as [[op| | | | |]|] eqn:E;
    try discriminate H.
  apply andb_true_iff in H as [H1 H2].
  apply (Stream_record l pos op);
    [exact E | apply payload_okb_sound; exact H1 | apply IH; exact H2].
Qed.

End Progress.

(** * The properties of the specification *)

Section Claims.
Context `{T : Target}.
Implicit Types r : Renderer.

Lemma wf_writePos (l : List) :
  target_ok -> DisplayList.wf DISPLAY_LIST_SIZE l ->
  0 <= DisplayList.writePos l < 2 ^ 32.
Proof. intros (_ & _ & _ & HS & _) (H0 & H1 & H2). lia. Qed.

Lemma tick_frame_back n r r' :
  indices_ok r -> tick_frame n r r' ->
  backList r' = backList r /\ indices_ok r'.
Proof.
  intros Hi [Ff Fb _ _ _ Fo _ _ _]. unfold backList, indices_ok.
  rewrite Ff, Fb. split; [|exact Hi].
  apply Fo. destruct Hi as [[-> ->] | [-> ->]]; discriminate.
Qed.

(** C9: for a colour whose four channels lie in [0, 255], [convertColor]
    returns [((R>>4)<<12) | ((G>>4)<<8) | ((B>>4)<<4) | (A>>4)]: red is the
    most significant nibble of the 16 bit value and alpha the least. *)
Theorem convertColor_packs (R G B A : Z) :
  0 <= R <= 255 -> 0 <= G <= 255 -> 0 <= B <= 255 -> 0 <= A <= 255 ->
  convertColor (mkVec4i R G B A) =
    Z.lor (Z.lor (Z.lor (Z.shiftl (Z.shiftr R 4) 12)
                        (Z.shiftl (Z.shiftr G 4) 8))
                 (Z.shiftl (Z.shiftr B 4) 4))
          (Z.shiftr A 4).
Proof.
  intros HR HG HB HA. unfold convertColor, Vec4i_shr. cbn [ch0 ch1 ch2 ch3].
  pose proof (shiftr4_range R HR) as Hr.
  pose proof (shiftr4_range G HG) as Hg.
  pose proof (shiftr4_range B HB) as Hb.
  pose proof (shiftr4_range A HA) as Ha.
  rewrite !(u16_small (Z.shiftr _ 4)) by lia.
  rewrite Z.shiftl_0_r.
  set (r := Z.shiftr R 4) in *. set (g := Z.shiftr G 4) in *.
  set (b := Z.shiftr B 4) in *. set (a := Z.shiftr A 4) in *.
  rewrite u16_land, !Z.land_lor_distr_l, <- !u16_land.
  rewrite (u16_small a) by lia.
  rewrite !u16_small by (rewrite Z.shiftl_mul_pow2 by lia; lia).
  rewrite (Z.lor_comm (Z.lor (Z.lor a _) _) _).
  rewrite (Z.lor_comm (Z.lor a _) _).
  rewrite (Z.lor_comm a _).
  rewrite !Z.lor_assoc. reflexivity.
Qed.

(** C10: the outcome of [setTexEnv] depends on its [param] argument only:
    two calls in the same state with the same [param] and any [target] and
    [pname] return the same value and leave the same state behind, in
    particular the same [ConfReg2] and the same back list. *)
Theorem setTexEnv_ignores_target_and_pname r
    (target1 pname1 target2 pname2 param : Z) :
  let res1 := setTexEnv target1 pname1 param r in
  let res2 := setTexEnv target2 pname2 param r in
  res1 = res2 /\
  fst res1 = fst res2 /\
  m_confReg2 (snd res1) = m_confReg2 (snd res2) /\
  backList (snd res1) = backList (snd res2).
Proof. cbv zeta. repeat split; reflexivity. Qed.

(** C8: [useTexture pixels w h] returns true and appends the opcode
    [TEXTURE_STREAM_wxw] and the argument [{pixels, w*h}] to the back list
    exactly when [w = h], [w] is 32, 64, 128 or 256, and the two records
    fit; in every other case it returns false and the state of the
    renderer is the one before the call. *)
Theorem useTexture_spec (pixels w h : Z) r :
  target_ok -> DisplayList.wf DISPLAY_LIST_SIZE (backList r) ->
  let supported := w = h /\ (w = 32 \/ w = 64 \/ w = 128 \/ w = 256) in
  let fits :=
    DisplayList.writePos (backList r) + sizeOf_SCT + sizeOf_TextureStreamArg
      <= DISPLAY_LIST_SIZE in
  (fst (useTexture pixels w h r) = RBool true <-> supported /\ fits) /\
  (supported /\ fits ->
   useTexture pixels w h r =
     (RBool true,
      set_backList
        (appended (TEXTURE_STREAM_for w)
           (CTexture (mkTextureStreamArg pixels (w * h))) (backList r)) r)) /\
  (~ (supported /\ fits) -> useTexture pixels w h r = (RBool false, r)).
Proof.
  intros Hok Hwf supported fits.
  pose proof (wf_writePos _ Hok Hwf) as Hw.
  pose proof (sizes_range Hok) as (Hs & _ & Hx).
  assert (Hcases :
    (supported /\ fits /\
     useTexture pixels w h r =
       (RBool true,
        set_backList
          (appended (TEXTURE_STREAM_for w)
             (CTexture (mkTextureStreamArg pixels (w * h))) (backList r)) r)) \/
    (~ (supported /\ fits) /\ useTexture pixels w h r = (RBool false, r))).
  { unfold useTexture, supported, fits.
    destruct (Z.eqb_spec w h) as [<-|Hne]; cbn [negb].
    2: { right. split; [intros [[? _] _]; contradiction | reflexivity]. }
    assert (Happ : forall op,
      op = TEXTURE_STREAM_for w ->
      (w = 32 \/ w = 64 \/ w = 128 \/ w = 256) ->
      i32 (w * w) = w * w ->
      ((w = w /\ (w = 32 \/ w = 64 \/ w = 128 \/ w = 256)) /\
       DisplayList.writePos (backList r) + sizeOf_SCT + sizeOf_TextureStreamArg
         <= DISPLAY_LIST_SIZE /\
       (let '(b, r') :=
          appendStreamCommand_back op
            (CTexture (mkTextureStreamArg pixels (i32 (w * w)))) r in
        (RBool b, r')) =
         (RBool true,
          set_backList
            (appended (TEXTURE_STREAM_for w)
               (CTexture (mkTextureStreamArg pixels (w * w))) (backList r)) r)) \/
      (~ ((w = w /\ (w = 32 \/ w = 64 \/ w = 128 \/ w = 256)) /\
          DisplayList.writePos (backList r) + sizeOf_SCT
            + sizeOf_TextureStreamArg <= DISPLAY_LIST_SIZE) /\
       (let '(b, r') :=
          appendStreamCommand_back op
            (CTexture (mkTextureStreamArg pixels (i32 (w * w)))) r in
        (RBool b, r')) = (RBool false, r))).
    { intros op -> Hsz ->.
      destruct (appendStreamCommand_back_spec (TEXTURE_STREAM_for w)
                  (CTexture (mkTextureStreamArg pixels (w * w))) r Hw)
        as [(-> & Hfit) | (-> & Hno)]; cbn [sizeOfCell] in *.
      - left. auto.
      - right. split; [|reflexivity]. intros [_ Hfit]. lia. }
    destruct (Z.eqb_spec w 256) as [->|H256].
    { apply Happ; [reflexivity | auto | reflexivity]. }
    destruct (Z.eqb_spec w 128) as [->|H128].
    { apply Happ; [reflexivity | auto | reflexivity]. }
    destruct (Z.eqb_spec w 64) as [->|H64].
    { apply Happ; [reflexivity | auto | reflexivity]. }
    destruct (Z.eqb_spec w 32) as [->|H32].
    { apply Happ; [reflexivity | auto | reflexivity]. }
    right. split; [|reflexivity]. intros [[_ Hsz] _]. lia. }
  destruct Hcases as [(Hs1 & Hf1 & E) | (Hn & E)]; rewrite E; cbn [fst].
  - split; [tauto|]. split; [reflexivity|]. intros Hc. tauto.
  - split; [|split].
    + split; [discriminate | intros Hc; contradiction].
    + intros Hc. contradiction.
    + reflexivity.
Qed.

(** C4: every call of the encoder that appends an opcode with its payload to
    the back list is atomic.  It returns true and the back list has grown by
    exactly the two records, or it returns false and the back list (its
    contents, its write position and the rest of it) is the one before the
    call.  This holds for the [SET_REG] setters, for the setters of the two
    configuration registers, for [useTexture], and for the append that
    [drawTriangle] makes for a triangle the rasterizer accepts. *)
Theorem encoder_append_atomic r :
  target_ok -> DisplayList.wf DISPLAY_LIST_SIZE (backList r) ->
  (forall m : Mutator,
     (fst (call m r) = RBool true /\
      exists op arg, backList (snd (call m r)) = appended op arg (backList r)) \/
     (fst (call m r) = RBool false /\
      backList (snd (call m r)) = backList r)) /\
  (forall v0 v1 v2 st0 st1 st2 color ret r',
     indices_ok r ->
     fst (rasterize v0 st0 v1 st1 v2 st2) = true ->
     drawTriangle v0 v1 v2 st0 st1 st2 color r = Ok (ret, r') ->
     (ret = RBool true /\
      exists triangle,
        backList r' = appended TRIANGLE_FULL (CTriangle triangle) (backList r)) \/
     (ret = RBool false /\ backList r' = backList r)).
Proof.
  intros Hok Hwf. pose proof (wf_writePos _ Hok Hwf) as Hw. split.
  - intros m. exact (call_atomic m r Hw).
  - intros v0 v1 v2 st0 st1 st2 color ret r' Hi Hvis H.
    unfold drawTriangle in H.
    destruct (rasterize v0 st0 v1 st1 v2 st2) as [visible triangleConf].
    cbn [fst] in Hvis. subst visible. cbn [negb] in H.
    destruct (appendStreamCommand_spec DISPLAY_LIST_SIZE (backList r)
                TRIANGLE_FULL
                (CTriangle (mkTriangle (triangleData triangleConf)
                                       (convertColor color))) Hw)
      as [(E & _) | (E & _)]; rewrite E in H; outcome H;
      injection H as <- <-;
      apply uploadDisplayList_Step in E0 as [_ F];
      apply tick_frame_back in F as [Hb _].
    + left. split; [reflexivity|]. eexists. rewrite Hb.
      apply backList_set_backList.
    + unfold indices_ok in *. rsimpl. exact Hi.
    + right. split; [reflexivity|]. rewrite Hb. apply backList_set_backList.
    + unfold indices_ok in *. rsimpl. exact Hi.
Qed.

(** C2: when the fill loop takes a [TRIANGLE_STREAM] record off the front
    list while the walker is on display line [i], it copies the opcode to
    the upload list and writes behind it the triangle that
    [calcLineIncrement] makes for the rows from [i * LINE_RESOLUTION] up to
    [(i + 1) * LINE_RESOLUTION] (which have to be rows that a [uint16_t]
    can hold).  The pair stays in the upload list exactly when
    [calcLineIncrement] returns true; when it returns false the write
    position is back where it was before the opcode was copied, so neither
    record is within the bytes sent. *)
Theorem triangle_stream_step r op tIn :
  target_ok ->
  0 <= DisplayList.writePos (m_displayListUpload r) <= HARDWARE_BUFFER_SIZE ->
  hasEnoughSpace HARDWARE_BUFFER_SIZE (m_displayListUpload r) = true ->
  DisplayList.readPos (frontList r) + sizeOf_SCT + sizeOf_RasterizedTriangle
    <= DisplayList.writePos (frontList r) ->
  DisplayList.load (DisplayList.readPos (frontList r)) (frontList r)
    = Some (CCommand op) ->
  Z.land op STREAM_COMMAND_OP_MASK = TRIANGLE_STREAM ->
  DisplayList.load (DisplayList.readPos (frontList r) + sizeOf_SCT) (frontList r)
    = Some (CTriangle tIn) ->
  0 <= m_uploadIndexPosition r ->
  (m_uploadIndexPosition r + 1) * LINE_RESOLUTION <= 65535 ->
  let i := m_uploadIndexPosition r in
  let wp := DisplayList.writePos (m_displayListUpload r) in
  let res :=
    calcLineIncrement tIn (i * LINE_RESOLUTION) ((i + 1) * LINE_RESOLUTION) in
  exists r',
    fillStep r = Ok (Some false, r') /\
    DisplayList.readPos (frontList r') =
      DisplayList.readPos (frontList r) + sizeOf_SCT + sizeOf_RasterizedTriangle /\
    DisplayList.load wp (m_displayListUpload r') = Some (CCommand op) /\
    DisplayList.load (wp + sizeOf_SCT) (m_displayListUpload r')
      = Some (CTriangle (snd res)) /\
    (fst res = true ->
     DisplayList.writePos (m_displayListUpload r')
       = wp + sizeOf_SCT + sizeOf_RasterizedTriangle) /\
    (fst res = false -> DisplayList.writePos (m_displayListUpload r') = wp) /\
    (holds_pair (m_displayListUpload r') wp op (CTriangle (snd res))
       <-> fst res = true).
Proof.
  intros Hok Hwp Hroom Hrec Hop Hclass Htri Hi Hfit i wp res.
  pose proof (sizes_range Hok) as (Hs & Ht & _).
  pose proof (hasEnoughSpace_room _ Hok Hwp Hroom) as Hfree.
  rewrite (fillStep_command r op) by (assumption || lia).
  rewrite switchCommand_TRIANGLE by assumption.
  destruct (case_TRIANGLE_STREAM_ok (copied op r) tIn) as (r' & E & Hrp & Hmem & Hw);
    [ try exact Hok; unfold copied, HARDWARE_BUFFER_SIZE, DisplayList.load in *;
      rsimpl; first [assumption | lia] .. | ].
  rewrite E. cbn [mbind Outcome_bind]. exists r'.
  unfold copied in Hrp, Hmem, Hw. rsimpl. fold i wp res in Hmem, Hw.
  assert (Hop' : DisplayList.load wp (m_displayListUpload r') = Some (CCommand op)).
  { unfold DisplayList.load. rewrite Hmem.
    rewrite lookup_insert_ne by lia. apply lookup_insert_eq. }
  assert (Htri' : DisplayList.load (wp + sizeOf_SCT) (m_displayListUpload r')
                  = Some (CTriangle (snd res))).
  { unfold DisplayList.load. rewrite Hmem. apply lookup_insert_eq. }
  split; [reflexivity|]. split; [lia|]. split; [exact Hop'|].
  split; [exact Htri'|].
  destruct (fst res) eqn:Hvis.
  - split; [intros _; lia|]. split; [discriminate|].
    split; [reflexivity|]. split; [exact Hop'|]. split; [exact Htri'|].
    cbn [sizeOfCell]. lia.
  - split; [discriminate|]. split; [intros _; lia|].
    split; [|discriminate]. intros (_ & _ & Hin). cbn [sizeOfCell] in Hin. lia.
Qed.

(** C5: when the fill loop takes a [TEXTURE_STREAM] record with the
    argument [new] off the front list and
    [new.pixels + new.remainingPixels] is where the texture cursor points,
    the cursor becomes [{new.pixels + new.remainingPixels, 0}], the opcode
    just copied is removed from the upload list and the loop goes on with
    [leaveLoop] false.  Otherwise the cursor becomes [new], the opcode
    stays, [leaveLoop] is set and the loop ends. *)
Theorem texture_stream_step r op new :
  target_ok ->
  0 <= DisplayList.writePos (m_displayListUpload r) <= HARDWARE_BUFFER_SIZE ->
  hasEnoughSpace HARDWARE_BUFFER_SIZE (m_displayListUpload r) = true ->
  DisplayList.readPos (frontList r) + sizeOf_SCT + sizeOf_TextureStreamArg
    <= DisplayList.writePos (frontList r) ->
  DisplayList.load (DisplayList.readPos (frontList r)) (frontList r)
    = Some (CCommand op) ->
  Z.land op STREAM_COMMAND_OP_MASK = TEXTURE_STREAM ->
  DisplayList.load (DisplayList.readPos (frontList r) + sizeOf_SCT) (frontList r)
    = Some (CTexture new) ->
  let cursor := m_textureStreamArg r in
  let wp := DisplayList.writePos (m_displayListUpload r) in
  (ptr_add (pixels new) (remainingPixels new) = pixels cursor ->
   exists r',
     fillStep r = Ok (Some false, r') /\
     m_textureStreamArg r' =
       mkTextureStreamArg (ptr_add (pixels new) (remainingPixels new)) 0 /\
     DisplayList.writePos (m_displayListUpload r') = wp /\
     forall fuel, fillLoop (S fuel) false r = fillLoop fuel false r') /\
  (ptr_add (pixels new) (remainingPixels new) <> pixels cursor ->
   exists r',
     fillStep r = Ok (Some true, r') /\
     m_textureStreamArg r' = new /\
     DisplayList.writePos (m_displayListUpload r') = wp + sizeOf_SCT /\
     DisplayList.load wp (m_displayListUpload r') = Some (CCommand op) /\
     forall fuel, fillLoop (S fuel) false r = Ok r').
Proof.
  intros Hok Hwp Hroom Hrec Hop Hclass Htex cursor wp.
  pose proof (sizes_range Hok) as (Hs & Ht & Hx).
  pose proof (hasEnoughSpace_room _ Hok Hwp Hroom) as Hfree.
  assert (Hstep : fillStep r =
            ('(leaveLoop, r') ← case_TEXTURE_STREAM (copied op r);
             Ok (Some leaveLoop, r'))).
  { rewrite (fillStep_command r op) by (assumption || lia).
    rewrite switchCommand_TEXTURE by assumption. reflexivity. }
  rewrite (case_TEXTURE_STREAM_ok (copied op r) new) in Hstep;
    [ | try exact Hok; unfold copied, HARDWARE_BUFFER_SIZE, DisplayList.load in *;
        rsimpl; first [assumption | lia] .. ].
  assert (Hc : m_textureStreamArg (copied op r) = cursor)
    by (unfold copied; rsimpl; reflexivity).
  rewrite Hc in Hstep.
  assert (Hloop : forall fuel, fillLoop (S fuel) false r =
            ('(ctl, r1) ← fillStep r;
             match ctl with
             | None => Ok r1
             | Some leaveLoop => fillLoop fuel leaveLoop r1
             end)).
  { intros fuel. cbn [fillLoop negb andb]. rewrite Hroom. reflexivity. }
  split; intros Hptr.
  - apply Z.eqb_eq in Hptr. rewrite Hptr in Hstep.
    cbn [mbind Outcome_bind] in Hstep.
    match type of Hstep with _ = Ok (_, ?x) => set (r' := x) in * end.
    exists r'. split; [exact Hstep|]. split; [|split].
    + subst r'. unfold copied. rsimpl. reflexivity.
    + subst r'. unfold copied, wp. rsimpl. lia.
    + intros fuel. rewrite Hloop, Hstep. reflexivity.
  - apply Z.eqb_neq in Hptr. rewrite Hptr in Hstep.
    cbn [mbind Outcome_bind] in Hstep.
    match type of Hstep with _ = Ok (_, ?x) => set (r' := x) in * end.
    exists r'. split; [exact Hstep|]. split; [|split; [|split]].
    + subst r'. unfold copied. rsimpl. reflexivity.
    + subst r'. unfold copied, wp. rsimpl. reflexivity.
    + subst r'. unfold copied, wp, DisplayList.load. rsimpl.
      apply lookup_insert_eq.
    + intros fuel. rewrite Hloop, Hstep. cbn [mbind Outcome_bind].
      destruct fuel; reflexivity.
Qed.


(** C1 (as the code has it): when the opcode
    [FRAMEBUFFER_COMMIT | FRAMEBUFFER_COLOR] does not fit into the back
    list, [commit] clears the back list and returns at once.  It makes no
    call of [uploadDisplayList] (the bus is not polled and nothing is sent),
    it neither enqueues nor swaps the lists, and the front list is the one
    before the call.  [commit] returns no value: the caller is not told. *)
Theorem commit_abort (fuel : nat) r :
  indices_ok r ->
  fst (DisplayList.create DISPLAY_LIST_SIZE sizeOf_SCT (backList r)) = None ->
  exists r',
    commit fuel r = Ok (RVoid, r') /\
    backList r' = DisplayList.clear (backList r) /\
    DisplayList.state (backList r') = DisplayList.FREE /\
    DisplayList.writePos (backList r') = 0 /\
    frontList r' = frontList r /\
    m_frontList r' = m_frontList r /\
    m_backList r' = m_backList r /\
    m_busConnector r' = m_busConnector r /\
    m_displayListUpload r' = m_displayListUpload r /\
    m_uploadIndexPosition r' = m_uploadIndexPosition r /\
    m_textureStreamArg r' = m_textureStreamArg r.
Proof.
  intros Hi Hfull. unfold commit.
  destruct (DisplayList.create DISPLAY_LIST_SIZE sizeOf_SCT (backList r))
    as [[p|] l] eqn:E; [discriminate Hfull|].
  apply create_None in E as [-> _].
  eexists. split; [reflexivity|].
  unfold indices_ok in Hi. rsimpl.
  repeat split; try reflexivity.
  apply list_set_list_ne. destruct Hi as [[-> ->] | [-> ->]]; discriminate.
Qed.

(** C6 (as the code has it): when the opcode of [commit] fits and [commit]
    returns, the two indices have changed places and the new back list is
    [FREE].  The new front list is [QUEUED] when the lists are swapped, and
    [commit] then makes one more call of [uploadDisplayList]: the list is
    still [QUEUED] when [commit] returns if the bus was not clear to send
    at that last poll, and has become [TRANSFERRING] (or [FREE], once all
    its display lines are sent) if it was. *)
Theorem commit_list_states (fuel : nat) r ret r' :
  indices_ok r ->
  DisplayList.state (backList r) = DisplayList.FREE ->
  fst (DisplayList.create DISPLAY_LIST_SIZE sizeOf_SCT (backList r)) <> None ->
  commit fuel r = Ok (ret, r') ->
  let last_poll :=
    ready (m_busConnector r') (Nat.pred (polls (m_busConnector r'))) in
  m_frontList r' = m_backList r /\
  m_backList r' = m_frontList r /\
  DisplayList.state (backList r') = DisplayList.FREE /\
  (exists r1 b,
     uploadDisplayList r1 = Ok (b, r') /\
     m_frontList r1 = m_backList r /\
     DisplayList.state (frontList r1) = DisplayList.QUEUED) /\
  (last_poll = false ->
   DisplayList.state (frontList r') = DisplayList.QUEUED) /\
  (last_poll = true ->
   DisplayList.state (frontList r') = DisplayList.TRANSFERRING \/
   DisplayList.state (frontList r') = DisplayList.FREE).
Proof.
  intros Hi Hfree Hfits H. unfold commit in H.
  destruct (DisplayList.create DISPLAY_LIST_SIZE sizeOf_SCT (backList r))
    as [[p|] l] eqn:E; [|contradiction].
  apply create_Some in E as (-> & -> & _).
  outcome H. injection H as <- <-.
  match type of E with drain _ ?r0 = _ => set (r1 := r0) in * end.
  assert (Hi1 : indices_ok r1).
  { subst r1. unfold indices_ok in *. rsimpl. exact Hi. }
  assert (Hb1 : DisplayList.state (backList r1) = DisplayList.FREE).
  { subst r1. rsimpl. exact Hfree. }
  apply drain_frame in E as [[n F] Hf].
  destruct (tick_frame_back _ _ _ Hi1 F) as [Hb Hi2].
  destruct F as [Ff Fb _ _ _ _ _ _ _].
  assert (Hidx : m_frontList r1 = m_frontList r /\ m_backList r1 = m_backList r).
  { subst r1. rsimpl. auto. }
  destruct Hidx as [Hf1 Hbk1].
  match type of E0 with uploadDisplayList ?r0 = _ => set (r3 := r0) in * end.
  assert (Hs3 : m_frontList r3 = m_backList r /\ m_backList r3 = m_frontList r /\
                DisplayList.state (frontList r3) = DisplayList.QUEUED /\
                DisplayList.state (backList r3) = DisplayList.FREE /\
                indices_ok r3).
  { subst r3. unfold indices_ok in *. rsimpl.
    rewrite Ff, Fb, Hf1, Hbk1 in *.
    assert (Hq : DisplayList.state
                   (DisplayList.enqueue (m_displayList (m_backList r) a))
                 = DisplayList.QUEUED).
    { unfold DisplayList.enqueue. rewrite Hb, Hb1. reflexivity. }
    destruct Hi as [[Hx Hy] | [Hx Hy]]; rewrite Hx, Hy in *;
      cbn [Z.eqb]; rsimpl; rewrite ?list_set_list_ne by discriminate; rsimpl;
      auto 10. }
  destruct Hs3 as (Hf3 & Hb3 & Hq3 & Hfr3 & Hi3).
  pose proof (uploadDisplayList_Step _ _ _ E0) as [HS F3].
  destruct (tick_frame_back _ _ _ Hi3 F3) as [Hb' _].
  destruct F3 as [Ff3 Fb3 _ _ _ _ _ Fr3 Fp3].
  assert (Hlast : ready (m_busConnector r0)
                    (Nat.pred (polls (m_busConnector r0))) = bus_ready r3).
  { unfold bus_ready. rewrite Fr3, Fp3. reflexivity. }
  cbv zeta. rewrite Hlast.
  split; [congruence|]. split; [congruence|]. split; [congruence|].
  split; [exists r3, b; auto|].
  inversion HS; subst; split; intros Hr; try congruence; auto.
Qed.

(** C7 (as the code has it): [drawTriangle] makes one step of the band
    walker when the rasterizer accepts the triangle: the call is the append
    to the back list followed by [uploadDisplayList], and the bus is polled
    exactly once.  When the rasterizer reports the triangle invisible the
    call returns true at once, and the state (with it the number of polls
    of the bus) is the one before the call. *)
Theorem drawTriangle_walker_step (v0 v1 v2 : Vec4) (st0 st1 st2 : Vec2)
    (color : Vec4i) r :
  (fst (rasterize v0 st0 v1 st1 v2 st2) = false ->
   drawTriangle v0 v1 v2 st0 st1 st2 color r = Ok (RBool true, r)) /\
  (fst (rasterize v0 st0 v1 st1 v2 st2) = true ->
   let triangle :=
     mkTriangle (triangleData (snd (rasterize v0 st0 v1 st1 v2 st2)))
                (convertColor color) in
   let res :=
     appendStreamCommand DISPLAY_LIST_SIZE (backList r) TRIANGLE_FULL
       (CTriangle triangle) in
   drawTriangle v0 v1 v2 st0 st1 st2 color r =
     ('(_, r') ← uploadDisplayList (set_backList (snd res) r);
      Ok (RBool (fst res), r')) /\
   forall ret r',
     drawTriangle v0 v1 v2 st0 st1 st2 color r = Ok (ret, r') ->
     polls (m_busConnector r') = S (polls (m_busConnector r))).
Proof.
  unfold drawTriangle.
  destruct (rasterize v0 st0 v1 st1 v2 st2) as [visible triangleConf].
  cbn [fst snd]. split; intros ->; cbn [negb]; [reflexivity|].
  destruct (appendStreamCommand _ _ _ _) as [retVal l]. cbn [fst snd].
  split; [reflexivity|].
  intros ret r' H. outcome H. injection H as <- <-.
  apply uploadDisplayList_Step in E as [_ F].
  destruct F as [_ _ _ _ _ _ _ _ Fp]. rewrite Fp. rsimpl. reflexivity.
Qed.

End Claims.

(** * The properties on the example target *)

(** C9 at the colour (255, 128, 64, 0): the packed value is [0xf840]. *)
Lemma convertColor_packs_witness :
  convertColor (mkVec4i 255 128 64 0) = 0xf840.
Proof.
  rewrite (convertColor_packs 255 128 64 0); [reflexivity | lia ..].
Defined.

(** C8 on the renderer as constructed: a texture of 32 by 32 is taken. *)
Lemma useTexture_spec_witness :
  fst (@useTexture Example.target 4096 32 32 Example.init) = RBool true.
Proof.
  apply (@useTexture_spec Example.target 4096 32 32 Example.init).
  - unfold target_ok. cbn. lia.
  - vm_compute. repeat split; discriminate.
  - vm_compute. split; [auto | discriminate].
Defined.

(** C4 on the renderer as constructed, where [setClearDepth] fits. *)
Lemma encoder_append_atomic_witness :
  fst (@call Example.target (SetClearDepth 7) Example.init) = RBool true /\
  exists op arg,
    @backList Example.target
      (snd (@call Example.target (SetClearDepth 7) Example.init))
    = @appended Example.target op arg (@backList Example.target Example.init).
Proof.
  destruct (@encoder_append_atomic Example.target Example.init) as [H _].
  - unfold target_ok. cbn. lia.
  - vm_compute. repeat split; discriminate.
  - destruct (H (SetClearDepth 7)) as [E | [E _]]; [exact E|].
    vm_compute in E. discriminate E.
Defined.

(** C1 on the full back list. *)
Lemma commit_abort_witness :
  exists r',
    @commit Example.target 3 Example.full = Ok (RVoid, r') /\
    @frontList Example.target r' = @frontList Example.target Example.full /\
    m_busConnector r' = m_busConnector Example.full.
Proof.
  destruct (@commit_abort Example.target 3 Example.full) as (r' & E & H).
  - vm_compute. left. split; reflexivity.
  - vm_compute. reflexivity.
  - exists r'. split; [exact E|]. split; apply H.
Defined.

(** C1 as stated fails: on the full back list the opcode does not fit, and
    [commit] does not return false; it returns no value at all. *)
Lemma commit_returns_no_value :
  fst (DisplayList.create (@DISPLAY_LIST_SIZE Example.target)
         (@sizeOf_SCT Example.target)
         (@backList Example.target Example.full)) = None /\
  forall r', @commit Example.target 3 Example.full <> Ok (RBool false, r').
Proof.
  split; [vm_compute; reflexivity|].
  intros r' H. vm_compute in H. discriminate H.
Qed.

(** C2 on display line 1, which the triangle on the rows 10 to 50 does not
    touch: the upload list is as long as before. *)
Lemma triangle_stream_step_witness :
  exists r',
    @fillStep Example.target (Example.at_triangle 1) = Ok (Some false, r') /\
    DisplayList.writePos (m_displayListUpload r') = 0.
Proof.
  destruct (@triangle_stream_step Example.target (Example.at_triangle 1) 16396
              (mkTriangle (10, 50) 65535))
    as (r' & E & _ & _ & _ & _ & Hw & _).
  - unfold target_ok. cbn. lia.
  - vm_compute. split; discriminate.
  - vm_compute. reflexivity.
  - vm_compute. discriminate.
  - vm_compute. reflexivity.
  - vm_compute. reflexivity.
  - vm_compute. reflexivity.
  - vm_compute. discriminate.
  - vm_compute. discriminate.
  - exists r'. split; [exact E|]. apply Hw. vm_compute. reflexivity.
Defined.

(** C2 as stated fails on a display line whose rows end beyond 65535.  On
    the target of 512 lines of 128 rows the fill loop takes, on line 511,
    the triangle on the rows 65410 to 65500.  [calcLineIncrement] on the
    rows of that line, from 511 * 128 up to 512 * 128, returns true, but
    the end of the line is handed over as a [uint16_t], which is 0: the
    triangle is clipped to nothing, the write position of the upload list
    is back where it was, and the pair is not in the list.  The whole call
    sends 80 bytes for the line, the nine registers and the opcodes of
    [clear] and [commit]. *)
Lemma triangle_stream_band_end_wraps :
  let r := Tall.at_triangle in
  let wp := DisplayList.writePos (@m_displayListUpload Tall.target r) in
  let tIn := mkTriangle (65410, 65500) 65535 in
  let res :=
    @calcLineIncrement Tall.target tIn
      (511 * @LINE_RESOLUTION Tall.target)
      ((511 + 1) * @LINE_RESOLUTION Tall.target) in
  @target_ok Tall.target /\
  @consistent Tall.target r /\
  @m_uploadIndexPosition Tall.target r = 511 /\
  hasEnoughSpace HARDWARE_BUFFER_SIZE (@m_displayListUpload Tall.target r)
    = true /\
  DisplayList.load (DisplayList.readPos (@frontList Tall.target r))
    (@frontList Tall.target r) = Some (CCommand 16396) /\
  Z.land 16396 STREAM_COMMAND_OP_MASK = TRIANGLE_STREAM /\
  DisplayList.load
    (DisplayList.readPos (@frontList Tall.target r) + @sizeOf_SCT Tall.target)
    (@frontList Tall.target r) = Some (CTriangle tIn) /\
  fst res = true /\
  exists r',
    @fillStep Tall.target r = Ok (Some false, r') /\
    DisplayList.writePos (@m_displayListUpload Tall.target r') = wp /\
    DisplayList.load (wp + @sizeOf_SCT Tall.target)
      (@m_displayListUpload Tall.target r')
      = Some (CTriangle (mkTriangle (65410, -1) 65535)) /\
    ~ @holds_pair Tall.target (@m_displayListUpload Tall.target r') wp 16396
        (CTriangle (snd res)) /\
    exists m,
      log (m_busConnector (Tall.result (@uploadDisplayList Tall.target Tall.queued)))
        = log (@m_busConnector Tall.target Tall.queued)
            ++ [EvStartColorBufferTransfer 511; EvWriteData m 80].
Proof.
  cbv zeta.
  split; [unfold target_ok; cbn; lia|].
  split.
  { constructor;
      first
        [ apply (streamb_sound 40); vm_compute; reflexivity
        | vm_compute;
          first
            [ reflexivity
            | discriminate
            | split; first [reflexivity | discriminate]
            | left; split; reflexivity
            | right; split; reflexivity
            | let H := fresh in
              intros H; first [discriminate H | split; reflexivity] ] ]. }
  split; [vm_compute; reflexivity|].
  split; [vm_compute; reflexivity|].
  split; [vm_compute; reflexivity|].
  split; [vm_compute; reflexivity|].
  split; [vm_compute; reflexivity|].
  split; [vm_compute; reflexivity|].
  exists (Tall.result (@fillStep Tall.target Tall.at_triangle)).
  split; [vm_compute; reflexivity|].
  split; [vm_compute; reflexivity|].
  split; [vm_compute; reflexivity|].
  split; [intros (_ & H & _); vm_compute in H; discriminate H|].
  eexists. vm_compute. reflexivity.
Qed.


(** C5 on the first use of the texture, which is uploaded, and on the
    second use, which is skipped. *)
Lemma texture_stream_step_witness :
  (exists r',
     @fillStep Example.target Example.at_texture = Ok (Some true, r') /\
     m_textureStreamArg r' = mkTextureStreamArg 4096 1024) /\
  (exists r',
     @fillStep Example.target Example.at_texture_again = Ok (Some false, r') /\
     m_textureStreamArg r' = mkTextureStreamArg 6144 0).
Proof.
  split.
  - destruct (@texture_stream_step Example.target Example.at_texture 4113
                (mkTextureStreamArg 4096 1024)) as [_ H].
    + unfold target_ok. cbn. lia.
    + vm_compute. split; discriminate.
    + vm_compute. reflexivity.
    + vm_compute. discriminate.
    + vm_compute. reflexivity.
    + vm_compute. reflexivity.
    + vm_compute. reflexivity.
    + destruct H as (r' & E & Ht & _); [vm_compute; discriminate|].
      exists r'. auto.
  - destruct (@texture_stream_step Example.target Example.at_texture_again 4113
                (mkTextureStreamArg 4096 1024)) as [H _].
    + unfold target_ok. cbn. lia.
    + vm_compute. split; discriminate.
    + vm_compute. reflexivity.
    + vm_compute. discriminate.
    + vm_compute. reflexivity.
    + vm_compute. reflexivity.
    + vm_compute. reflexivity.
    + destruct H as (r' & E & Ht & _); [vm_compute; reflexivity|].
      exists r'. auto.
Defined.

(** C6 on the frame committed while the bus is busy at the last poll. *)
Lemma commit_list_states_witness :
  DisplayList.state (@backList Example.target Example.queued)
    = DisplayList.FREE /\
  DisplayList.state (@frontList Example.target Example.queued)
    = DisplayList.QUEUED.
Proof.
  destruct (@commit_list_states Example.target 4
              (Example.drawn (Example.bus_busy_at 2)) RVoid Example.queued)
    as (_ & _ & Hb & _ & Hq & _).
  - vm_compute. left. split; reflexivity.
  - vm_compute. reflexivity.
  - vm_compute. discriminate.
  - vm_compute. reflexivity.
  - split; [exact Hb|]. apply Hq. vm_compute. reflexivity.
Defined.

(** C6 as stated fails: on a bus that is clear to send, the opcode of
    [commit] fits, and when [commit] returns the new front list is already
    [TRANSFERRING]. *)
Lemma commit_front_list_transferring :
  fst (DisplayList.create (@DISPLAY_LIST_SIZE Example.target)
         (@sizeOf_SCT Example.target)
         (@backList Example.target (Example.drawn Example.bus_clear)))
    <> None /\
  @commit Example.target 4 (Example.drawn Example.bus_clear)
    = Ok (RVoid, Example.committed) /\
  DisplayList.state (@frontList Example.target Example.committed)
    = DisplayList.TRANSFERRING /\
  DisplayList.state (@frontList Example.target Example.committed)
    <> DisplayList.QUEUED.
Proof.
  split; [vm_compute; discriminate|].
  split; [vm_compute; reflexivity|].
  split; [vm_compute; reflexivity|].
  vm_compute. discriminate.
Qed.

(** C7 on a triangle on the rows 10 to 50, drawn on the renderer as
    constructed: the bus has been polled once. *)
Lemma drawTriangle_walker_step_witness :
  polls (m_busConnector (Example.drawn Example.bus_clear)) = 1%nat.
Proof.
  destruct (@drawTriangle_walker_step Example.target (0, 10) (20, 50) (10, 30)
              tt tt tt Example.white
              (snd (@clear Example.target true true Example.init))) as [_ H].
  destruct H as [_ H]; [vm_compute; reflexivity|].
  apply (H (RBool true)). vm_compute. reflexivity.
Defined.

(** C7 as stated fails: for a triangle below the screen the rasterizer
    reports that nothing is visible, and [drawTriangle] returns true without
    a step of the walker: the bus has not been polled, and the state
    returned is not the result of any call of [uploadDisplayList]. *)
Lemma drawTriangle_without_walker_step :
  fst (@rasterize Example.target (0, 200) tt (5, 300) tt (9, 250) tt) = false /\
  @drawTriangle Example.target (0, 200) (5, 300) (9, 250) tt tt tt
    Example.white Example.init = Ok (RBool true, Example.init) /\
  polls (m_busConnector Example.init) = 0%nat /\
  forall r b, @uploadDisplayList Example.target r <> Ok (b, Example.init).
Proof.
  split; [vm_compute; reflexivity|].
  split; [vm_compute; reflexivity|].
  split; [vm_compute; reflexivity|].
  intros r b H. apply uploadDisplayList_Step in H as [_ F].
  destruct F as [_ _ _ _ _ _ _ _ Fp]. vm_compute in Fp. discriminate Fp.
Qed.

(** * Further properties of the renderer *)

(** ** The setters of the configuration registers *)

Section RegisterSetters.
Context `{T : Target}.
Implicit Types r : Renderer.
Implicit Types l : List.

Lemma emitConfReg1_spec c r :
  target_ok ->
  0 <= DisplayList.writePos (backList r) < 2 ^ 32 ->
  (emitConfReg1 (set_m_confReg1 c r) =
     (RBool true,
      set_backList (appended SET_CONF_REG1 (CConfReg1 c) (backList r))
        (set_m_confReg1 c r)) /\
   DisplayList.writePos (backList r) + sizeOf_SCT + sizeOf_ConfReg1
     <= DISPLAY_LIST_SIZE) \/
  (emitConfReg1 (set_m_confReg1 c r) = (RBool false, set_m_confReg1 c r) /\
   DISPLAY_LIST_SIZE
     < DisplayList.writePos (backList r) + sizeOf_SCT + sizeOf_ConfReg1).
Proof.
  intros Hok Hw. unfold emitConfReg1.
  pose proof (sizes_range Hok) as (Hs & _ & _).
  assert (Hb : backList (set_m_confReg1 c r) = backList r) by (rsimpl; reflexivity).
  destruct (appendStreamCommand_back_spec SET_CONF_REG1
              (CConfReg1 (m_confReg1 (set_m_confReg1 c r))) (set_m_confReg1 c r))
    as [(E & Hfit) | (E & Hno)]; [rewrite Hb; exact Hw | |];
    rewrite E; rewrite Hb in *; cbn [sizeOfCell m_confReg1 set_m_confReg1] in *.
  - left. split; [reflexivity | exact Hfit].
  - right. split; [reflexivity|].
    change sizeOf_ConfReg1 with sizeOf_SCT in *. lia.
Qed.

Lemma emitConfReg2_spec c r :
  target_ok ->
  0 <= DisplayList.writePos (backList r) < 2 ^ 32 ->
  (emitConfReg2 (set_m_confReg2 c r) =
     (RBool true,
      set_backList (appended SET_CONF_REG2 (CConfReg2 c) (backList r))
        (set_m_confReg2 c r)) /\
   DisplayList.writePos (backList r) + sizeOf_SCT + sizeOf_ConfReg2
     <= DISPLAY_LIST_SIZE) \/
  (emitConfReg2 (set_m_confReg2 c r) = (RBool false, set_m_confReg2 c r) /\
   DISPLAY_LIST_SIZE
     < DisplayList.writePos (backList r) + sizeOf_SCT + sizeOf_ConfReg2).
Proof.
  intros Hok Hw. unfold emitConfReg2.
  pose proof (sizes_range Hok) as (Hs & _ & _).
  assert (Hb : backList (set_m_confReg2 c r) = backList r) by (rsimpl; reflexivity).
  destruct (appendStreamCommand_back_spec SET_CONF_REG2
              (CConfReg2 (m_confReg2 (set_m_confReg2 c r))) (set_m_confReg2 c r))
    as [(E & Hfit) | (E & Hno)]; [rewrite Hb; exact Hw | |];
    rewrite E; rewrite Hb in *; cbn [sizeOfCell m_confReg2 set_m_confReg2] in *.
  - left. split; [reflexivity | exact Hfit].
  - right. split; [reflexivity|].
    change sizeOf_ConfReg2 with sizeOf_SCT in *. lia.
Qed.

(** X2: a setter of a configuration register that succeeds appends
    [SET_CONF_REG1] (or [SET_CONF_REG2]) with the whole register as it is
    after the update, not the one field it was called for.  It leaves the
    other register alone, and the calls that are no setters of a register
    leave both alone. *)
Theorem register_setter_sends_whole_register (m : Mutator) r :
  target_ok -> DisplayList.wf DISPLAY_LIST_SIZE (backList r) ->
  let res := call m r in
  (confReg1_setter m = true ->
   m_confReg2 (snd res) = m_confReg2 r /\
   (fst res = RBool true ->
    backList (snd res) =
      appended SET_CONF_REG1 (CConfReg1 (m_confReg1 (snd res))) (backList r))) /\
  (confReg2_setter m = true ->
   m_confReg1 (snd res) = m_confReg1 r /\
   (fst res = RBool true ->
    backList (snd res) =
      appended SET_CONF_REG2 (CConfReg2 (m_confReg2 (snd res))) (backList r))) /\
  (confReg1_setter m = false -> m_confReg1 (snd res) = m_confReg1 r) /\
  (confReg2_setter m = false -> m_confReg2 (snd res) = m_confReg2 r).
Proof.
  intros Hok Hwf. pose proof (wf_writePos _ Hok Hwf) as Hw. cbv zeta.
  assert (H1 : forall c,
    m_confReg2 (snd (emitConfReg1 (set_m_confReg1 c r))) = m_confReg2 r /\
    m_confReg1 (snd (emitConfReg1 (set_m_confReg1 c r))) = c /\
    (fst (emitConfReg1 (set_m_confReg1 c r)) = RBool true ->
     backList (snd (emitConfReg1 (set_m_confReg1 c r))) =
       appended SET_CONF_REG1 (CConfReg1 c) (backList r))).
  { intros c. destruct (emitConfReg1_spec c r Hok Hw) as [[-> _] | [-> _]];
      cbn [fst snd]; rsimpl; (split; [reflexivity|]); (split; [reflexivity|]);
      [intros _; reflexivity | discriminate]. }
  assert (H2 : forall c,
    m_confReg1 (snd (emitConfReg2 (set_m_confReg2 c r))) = m_confReg1 r /\
    m_confReg2 (snd (emitConfReg2 (set_m_confReg2 c r))) = c /\
    (fst (emitConfReg2 (set_m_confReg2 c r)) = RBool true ->
     backList (snd (emitConfReg2 (set_m_confReg2 c r))) =
       appended SET_CONF_REG2 (CConfReg2 c) (backList r))).
  { intros c. destruct (emitConfReg2_spec c r Hok Hw) as [[-> _] | [-> _]];
      cbn [fst snd]; rsimpl; (split; [reflexivity|]); (split; [reflexivity|]);
      [intros _; reflexivity | discriminate]. }
  assert (H0 : forall op arg,
    let res := (let '(b, r') := appendStreamCommand_back op arg r in (RBool b, r')) in
    m_confReg1 (snd res) = m_confReg1 r /\ m_confReg2 (snd res) = m_confReg2 r).
  { intros op arg.
    destruct (appendStreamCommand_back_spec op arg r Hw) as [[-> _] | [-> _]];
      cbn [fst snd]; rsimpl; auto. }
  destruct m; cbn [call confReg1_setter confReg2_setter];
    unfold setClearColor, setClearDepth, setTexEnvColor, setDepthMask,
      enableDepthTest_, setColorMask, setDepthFunc, setAlphaFunc, setTexEnv,
      setBlendFunc, setTextureWrapModeS, setTextureWrapModeT; cbv zeta.
  1-3: (split; [discriminate|]; split; [discriminate|];
        split; intros _; apply H0).
  1-5: match goal with |- context [emitConfReg1 (set_m_confReg1 ?c _)] =>
         destruct (H1 c) as (Ha & Hb & Hc) end;
       (split; [intros _; split; [exact Ha|]; intros Ht; rewrite Hb; exact (Hc Ht)|]);
       (split; [discriminate|]); (split; [discriminate|]); intros _; exact Ha.
  1-4: match goal with |- context [emitConfReg2 (set_m_confReg2 ?c _)] =>
         destruct (H2 c) as (Ha & Hb & Hc) end;
       (split; [discriminate|]);
       (split; [intros _; split; [exact Ha|]; intros Ht; rewrite Hb; exact (Hc Ht)|]);
       (split; [intros _; exact Ha|]); discriminate.
  (* useTexture *)
  split; [discriminate|]. split; [discriminate|].
  unfold useTexture.
  destruct (negb (texWidth =? texHeight)); [split; reflexivity|].
  destruct (if texWidth =? 256 then _ else _); [|split; reflexivity].
  split; intros _; apply H0.
Qed.

End RegisterSetters.

(** ** Lists that grow behind their write position *)

Section StreamGrow.
Context `{T : Target}.
Implicit Types r : Renderer.
Implicit Types l : List.

Lemma payload_ok_load l l' p op :
  DisplayList.load p l' = DisplayList.load p l ->
  payload_ok l p op -> payload_ok l' p op.
Proof.
  intros H. unfold payload_ok, loadU16. rewrite H. auto.
Qed.

Lemma payload_ok_empty l p op : payload_size op = 0 -> target_ok -> payload_ok l p op.
Proof.
  intros H Hok. pose proof (sizes_range Hok) as (Hs & Ht & Hx).
  unfold payload_ok, payload_size in *.
  destruct (_ =? TRIANGLE_STREAM); [lia|].
  destruct (orb _ _); [exact I|].
  destruct (_ =? TEXTURE_STREAM); [lia|].
  destruct (_ =? SET_REG); [|exact I].
  change sizeOf_u16 with sizeOf_SCT in H. lia.
Qed.

(** A list that is extended behind its write position keeps its records. *)
Lemma Stream_extend l l' p :
  target_ok ->
  Stream l p ->
  (forall q, q < DisplayList.writePos l ->
             DisplayList.load q l' = DisplayList.load q l) ->
  Stream l' (DisplayList.writePos l) ->
  Stream l' p.
Proof.
  intros Hok HS Hsame Hnew.
  pose proof (sizes_range Hok) as (Hs & _ & _).
  induction HS as [|pos op Hop Hpay Htail IH]; [exact Hnew|].
  pose proof (Stream_le _ _ Hok Htail) as Hle.
  pose proof (payload_size_nonneg op Hok) as Hps.
  apply (Stream_record l' pos op).
  - rewrite Hsame by lia. exact Hop.
  - destruct (Z.eq_dec (payload_size op) 0) as [Hz|Hnz].
    + apply payload_ok_empty; assumption.
    + eapply payload_ok_load; [|exact Hpay]. apply Hsame. lia.
  - exact IH.
Qed.

Lemma Stream_appended l op arg :
  target_ok ->
  0 <= DisplayList.writePos l ->
  Stream l 0 ->
  payload_size op = sizeOfCell arg ->
  payload_ok (appended op arg l) (DisplayList.writePos l + sizeOf_SCT) op ->
  Stream (appended op arg l) 0.
Proof.
  intros Hok Hw HS Hsize Hpay.
  pose proof (sizes_range Hok) as (Hs & _ & _).
  apply (Stream_extend l); [exact Hok | exact HS | |].
  - intros q Hq. unfold appended, DisplayList.load. cbn [DisplayList.mem].
    rewrite !lookup_insert_ne by lia. reflexivity.
  - apply (Stream_record _ _ op).
    + unfold appended, DisplayList.load. cbn [DisplayList.mem].
      rewrite lookup_insert_ne by lia. apply lookup_insert_eq.
    + exact Hpay.
    + rewrite Hsize.
      change (DisplayList.writePos l + sizeOf_SCT + sizeOfCell arg)
        with (DisplayList.writePos (appended op arg l)).
      apply Stream_end.
Qed.

(** The list with one more opcode that has no payload. *)
Lemma Stream_opcode l op :
  target_ok ->
  Stream l 0 ->
  payload_size op = 0 ->
  Stream (DisplayList.store (DisplayList.writePos l) (CCommand op)
            (DisplayList.set_writePos (DisplayList.writePos l + sizeOf_SCT) l)) 0.
Proof.
  intros Hok HS Hsize.
  pose proof (sizes_range Hok) as (Hs & _ & _).
  apply (Stream_extend l); [exact Hok | exact HS | |].
  - intros q Hq. unfold DisplayList.load. rsimpl.
    rewrite lookup_insert_ne by lia. reflexivity.
  - apply (Stream_record _ _ op).
    + unfold DisplayList.load. rsimpl. apply lookup_insert_eq.
    + apply payload_ok_empty; assumption.
    + rewrite Hsize, Z.add_0_r.
      match goal with |- Stream ?l' _ =>
        change (DisplayList.writePos l + sizeOf_SCT) with (DisplayList.writePos l')
      end.
      apply Stream_end.
Qed.

End StreamGrow.

(** ** The records that the encoder appends *)

Section Records.
Context `{T : Target}.
Implicit Types r : Renderer.
Implicit Types l : List.

Lemma i32_range (x : Z) : - 2 ^ 31 <= i32 x < 2 ^ 31.
Proof.
  unfold i32. pose proof (Z.mod_pos_bound (x + 2 ^ 31) (2 ^ 32)). lia.
Qed.

Lemma walker_state_back l r :
  indices_ok r -> walker_state (set_backList l r) = walker_state r.
Proof.
  intros Hi. unfold walker_state. rsimpl.
  rewrite list_set_list_ne; [reflexivity|].
  destruct Hi as [[-> ->] | [-> ->]]; discriminate.
Qed.

Lemma record_ok_SET_REG op arg :
  Z.land op STREAM_COMMAND_OP_MASK = SET_REG ->
  (exists v, arg = CU16 v) \/ (exists c, arg = CConfReg1 c) \/
    (exists c, arg = CConfReg2 c) ->
  record_ok op arg.
Proof.
  intros Hc Harg. split.
  - unfold payload_size. rewrite Hc.
    destruct Harg as [[v ->] | [[c ->] | [c ->]]]; reflexivity.
  - intros l p Hl. unfold payload_ok. rewrite Hc. cbn.
    unfold loadU16. rewrite Hl.
    destruct Harg as [[v ->] | [[c ->] | [c ->]]]; eexists; reflexivity.
Qed.

Lemma record_ok_TEXTURE op a :
  Z.land op STREAM_COMMAND_OP_MASK = TEXTURE_STREAM ->
  - 2 ^ 31 <= remainingPixels a < 2 ^ 31 ->
  record_ok op (CTexture a).
Proof.
  intros Hc Ha. split.
  - unfold payload_size. rewrite Hc. reflexivity.
  - intros l p Hl. unfold payload_ok. rewrite Hc. cbn.
    exists a. split; [exact Hl | exact Ha].
Qed.

Lemma record_ok_TRIANGLE op t :
  Z.land op STREAM_COMMAND_OP_MASK = TRIANGLE_STREAM ->
  record_ok op (CTriangle t).
Proof.
  intros Hc. split.
  - unfold payload_size. rewrite Hc. reflexivity.
  - intros l p Hl. unfold payload_ok. rewrite Hc. cbn.
    exists t. exact Hl.
Qed.

Lemma land_imm_op (s : Z) :
  0 <= s < 4096 -> Z.land s STREAM_COMMAND_OP_MASK = 0.
Proof.
  intros Hs. unfold STREAM_COMMAND_OP_MASK.
  rewrite <- (Z.mod_small s (2 ^ 12)) by lia.
  rewrite <- Z.land_ones by lia.
  rewrite <- Z.land_assoc. change (Z.land (Z.ones 12) 61440) with 0.
  apply Z.land_0_r.
Qed.

Lemma land_imm_imm (s : Z) :
  0 <= s < 4096 -> Z.land s STREAM_COMMAND_IMM_MASK = s.
Proof.
  intros Hs. unfold STREAM_COMMAND_IMM_MASK.
  change 4095 with (Z.ones 12). rewrite Z.land_ones by lia.
  apply Z.mod_small. lia.
Qed.

End Records.

Section Appends.
Context `{T : Target}.
Implicit Types r : Renderer.
Implicit Types l : List.

Lemma TRIANGLE_FULL_class :
  target_ok -> sizeOf_RasterizedTriangle < 4096 ->
  Z.land TRIANGLE_FULL STREAM_COMMAND_OP_MASK = TRIANGLE_STREAM /\
  Z.land TRIANGLE_FULL STREAM_COMMAND_IMM_MASK = sizeOf_RasterizedTriangle.
Proof.
  intros Hok Hlt. pose proof (sizes_range Hok) as (_ & Ht & _).
  unfold TRIANGLE_FULL, TRIANGLE_SIZE_ALIGNED.
  rewrite u16_small by lia. rewrite !Z.land_lor_distr_l.
  rewrite (land_imm_op sizeOf_RasterizedTriangle),
    (land_imm_imm sizeOf_RasterizedTriangle) by lia.
  split; reflexivity.
Qed.

(** What a call of the encoder does to the state. *)
Lemma append_effect op arg r :
  target_ok ->
  0 <= DisplayList.writePos (backList r) < 2 ^ 32 ->
  indices_ok r ->
  let res := appendStreamCommand_back op arg r in
  walker_state (snd res) = walker_state r /\
  m_confReg1 (snd res) = m_confReg1 r /\
  m_confReg2 (snd res) = m_confReg2 r /\
  ((fst res = false /\ snd res = r) \/
   (fst res = true /\
    backList (snd res) = appended op arg (backList r) /\
    DisplayList.writePos (backList r) + sizeOf_SCT + sizeOfCell arg
      <= DISPLAY_LIST_SIZE)).
Proof.
  intros Hok Hw Hi. cbv zeta.
  destruct (appendStreamCommand_back_spec op arg r Hw) as [[-> Hfit] | [-> _]];
    cbn [fst snd].
  - split; [apply walker_state_back; exact Hi|].
    rsimpl. split; [reflexivity|]. split; [reflexivity|]. right.
    split; [reflexivity|]. split; [reflexivity | exact Hfit].
  - split; [reflexivity|]. split; [reflexivity|]. split; [reflexivity|].
    left. split; reflexivity.
Qed.

End Appends.

Section Encoded.
Context `{T : Target}.
Implicit Types r : Renderer.
Implicit Types l : List.

Lemma append_call op arg r0 r :
  target_ok ->
  0 <= DisplayList.writePos (backList r) < 2 ^ 32 ->
  indices_ok r ->
  walker_state r0 = walker_state r ->
  backList r0 = backList r ->
  record_ok op arg ->
  encoded r (let '(b, r') := appendStreamCommand_back op arg r0 in (RBool b, r')).
Proof.
  intros Hok Hw Hi Hws Hb Hrec.
  assert (Hi0 : indices_ok r0).
  { unfold walker_state in Hws. unfold indices_ok in *.
    injection Hws as -> -> _ _ _ _ _. exact Hi. }
  rewrite <- Hb in Hw.
  destruct (append_effect op arg r0 Hok Hw Hi0) as (Hs & _ & _ & Hres).
  destruct (appendStreamCommand_back op arg r0) as [b r'].
  unfold encoded. cbn [fst snd] in *.
  split; [congruence|].
  destruct Hres as [[-> ->] | (-> & Happ & Hfit)].
  - left. split; [reflexivity | exact Hb].
  - right. split; [reflexivity|]. exists op, arg. rewrite <- Hb. auto.
Qed.

Lemma call_encoded (m : Mutator) r :
  target_ok ->
  0 <= DisplayList.writePos (backList r) < 2 ^ 32 ->
  indices_ok r ->
  encoded r (call m r).
Proof.
  intros Hok Hw Hi.
  assert (Hreg : forall op arg,
    Z.land op STREAM_COMMAND_OP_MASK = SET_REG ->
    (exists v, arg = CU16 v) \/ (exists c, arg = CConfReg1 c) \/
      (exists c, arg = CConfReg2 c) ->
    forall r0, walker_state r0 = walker_state r -> backList r0 = backList r ->
    encoded r (let '(b, r') := appendStreamCommand_back op arg r0 in (RBool b, r'))).
  { intros op arg Hc Ha r0 Hws Hb.
    apply append_call; auto using record_ok_SET_REG. }
  destruct m as [color | depth | color | flag | enable | red green blue alpha
                | func | func ref | target pname param | sfactor dfactor
                | mode | mode | px w h]; cbn [call];
    unfold setClearColor, setClearDepth, setTexEnvColor, setDepthMask,
      enableDepthTest_, setColorMask, setDepthFunc, setAlphaFunc, setTexEnv,
      setBlendFunc, setTextureWrapModeS, setTextureWrapModeT,
      emitConfReg1, emitConfReg2; cbv zeta.
  1-12: (apply Hreg; [reflexivity | eauto | reflexivity | reflexivity]).
  unfold useTexture.
  assert (Hno : encoded r (RBool false, r)).
  { split; [reflexivity|]. left. split; reflexivity. }
  destruct (negb (w =? h)); [exact Hno|].
  assert (Htex : forall op,
    Z.land op STREAM_COMMAND_OP_MASK = TEXTURE_STREAM ->
    encoded r
      (let '(b, r') :=
         appendStreamCommand_back op
           (CTexture (mkTextureStreamArg px (i32 (w * h)))) r in
       (RBool b, r'))).
  { intros op Hc. apply append_call; auto.
    apply record_ok_TEXTURE; [exact Hc | apply i32_range]. }
  destruct (w =? 256); [apply Htex; reflexivity|].
  destruct (w =? 128); [apply Htex; reflexivity|].
  destruct (w =? 64); [apply Htex; reflexivity|].
  destruct (w =? 32); [apply Htex; reflexivity|].
  exact Hno.
Qed.

Lemma clear_encoded (colorBuffer depthBuffer : bool) r :
  target_ok -> indices_ok r ->
  let res := clear colorBuffer depthBuffer r in
  walker_state (snd res) = walker_state r /\
  m_confReg1 (snd res) = m_confReg1 r /\
  m_confReg2 (snd res) = m_confReg2 r /\
  ((fst res = RBool false /\ snd res = r /\
    DISPLAY_LIST_SIZE < DisplayList.writePos (backList r) + sizeOf_SCT) \/
   (fst res = RBool true /\
    DisplayList.writePos (backList r) + sizeOf_SCT <= DISPLAY_LIST_SIZE /\
    exists v,
      backList (snd res) =
        DisplayList.store (DisplayList.writePos (backList r)) (CCommand v)
          (DisplayList.set_writePos
             (DisplayList.writePos (backList r) + sizeOf_SCT) (backList r)) /\
      Z.land v STREAM_COMMAND_OP_MASK =
        (if colorBuffer || depthBuffer then FRAMEBUFFER_OP else NOP) /\
      Z.land v STREAM_COMMAND_IMM_MASK =
        (if colorBuffer || depthBuffer then 0x02 else 0)
        + (if colorBuffer then 0x10 else 0)
        + (if depthBuffer then 0x20 else 0))).
Proof.
  intros Hok Hi. cbv zeta. unfold clear.
  destruct (DisplayList.create DISPLAY_LIST_SIZE sizeOf_SCT (backList r))
    as [[p|] l] eqn:E.
  - apply create_Some in E as (-> & -> & Hfit). cbn [fst snd].
    split; [apply walker_state_back; exact Hi|]. rsimpl.
    split; [reflexivity|]. split; [reflexivity|]. right.
    split; [reflexivity|]. split; [exact Hfit|].
    eexists. split; [reflexivity|].
    destruct colorBuffer, depthBuffer; split; reflexivity.
  - apply create_None in E as (-> & Hno). cbn [fst snd].
    unfold set_backList, backList. rewrite set_list_same.
    split; [reflexivity|]. split; [reflexivity|]. split; [reflexivity|].
    left. split; [reflexivity|]. split; [reflexivity|]. exact Hno.
Qed.

End Encoded.

(** ** What the calls keep: the encoder and the band walker *)

Section Consistent.
Context `{T : Target}.
Implicit Types r : Renderer.
Implicit Types l : List.

Lemma Stream_empty l p : DisplayList.writePos l = p -> Stream l p.
Proof. intros <-. apply Stream_end. Qed.

Lemma consistent_encoder r r' l :
  consistent r ->
  walker_state r' = walker_state r ->
  backList r' = l ->
  DisplayList.state l = DisplayList.FREE ->
  DisplayList.readPos l = 0 ->
  0 <= DisplayList.writePos l <= DISPLAY_LIST_SIZE ->
  Stream l 0 ->
  consistent r'.
Proof.
  intros [Ci Cbs Cbr Cbw Cbst Cfr Cfw Cfs Cfrest Cff Cu Cidx Ctex] Hws <- Hst Hrp Hwp HS. unfold walker_state in Hws.
  injection Hws as Hf Hb Hfl Hu Hi Ht _.
  constructor; try assumption; try congruence.
  - unfold indices_ok in *. congruence.
  - rewrite Hfl. assumption.
Qed.

Lemma consistent_walked r r1 :
  target_ok -> consistent r -> fill_frame r r1 -> filling r1 -> consistent r1.
Proof.
  intros Hok [Ci Cbs Cbr Cbw Cbst Cfr Cfw Cfs Cfrest Cff Cu Cidx Ctex] [Ff Fb Fi _ _ _ _ Fo Fm Fw Fs] (Hrp & HS & Hup & Hrem).
  assert (Hback : backList r1 = backList r).
  { unfold backList. rewrite Fb. apply Fo.
    destruct Ci as [[-> ->] | [-> ->]]; discriminate. }
  pose proof (Stream_le _ _ Hok HS) as Hle.
  constructor; try assumption; try congruence.
  - unfold indices_ok in *. congruence.
  - eapply Stream_ext; [| |exact Cfs]; congruence.
  - rewrite Fs, Fw. intros Hfree. apply Cff in Hfree as [Hw0 _].
    split; [exact Hw0|]. lia.
Qed.

Lemma consistent_set_bus b r : consistent r -> consistent (set_m_busConnector b r).
Proof.
  intros [Ci Cbs Cbr Cbw Cbst Cfr Cfw Cfs Cfrest Cff Cu Cidx Ctex].
  constructor; unfold indices_ok in *; rsimpl; assumption.
Qed.

Lemma consistent_set_texture a r :
  - 2 ^ 31 <= remainingPixels a < 2 ^ 31 ->
  consistent r -> consistent (set_m_textureStreamArg a r).
Proof.
  intros Ha [Ci Cbs Cbr Cbw Cbst Cfr Cfw Cfs Cfrest Cff Cu Cidx Ctex].
  constructor; unfold indices_ok in *; rsimpl; assumption.
Qed.

Lemma consistent_set_index i r :
  0 <= i < DISPLAY_LINES ->
  consistent r -> consistent (set_m_uploadIndexPosition i r).
Proof.
  intros Ha [Ci Cbs Cbr Cbw Cbst Cfr Cfw Cfs Cfrest Cff Cu Cidx Ctex].
  constructor; unfold indices_ok in *; rsimpl; assumption.
Qed.

Lemma consistent_set_upload u r :
  0 <= DisplayList.writePos u <= HARDWARE_BUFFER_SIZE ->
  consistent r -> consistent (set_m_displayListUpload u r).
Proof.
  intros Ha [Ci Cbs Cbr Cbw Cbst Cfr Cfw Cfs Cfrest Cff Cu Cidx Ctex].
  constructor; unfold indices_ok in *; rsimpl; assumption.
Qed.

Lemma consistent_set_front l r :
  0 <= DisplayList.readPos l ->
  DisplayList.writePos l <= DISPLAY_LIST_SIZE ->
  Stream l 0 ->
  Stream l (DisplayList.readPos l) ->
  (DisplayList.state l = DisplayList.FREE ->
   DisplayList.writePos l = 0 /\ DisplayList.readPos l = 0) ->
  consistent r -> consistent (set_frontList l r).
Proof.
  intros H1 H2 H3 H4 H5 [Ci Cbs Cbr Cbw Cbst Cfr Cfw Cfs Cfrest Cff Cu Cidx Ctex].
  assert (Hne : (m_frontList r =? 0) <> (m_backList r =? 0))
    by (destruct Ci as [[-> ->] | [-> ->]]; discriminate).
  constructor; unfold indices_ok in *; rsimpl;
    rewrite ?list_set_list_ne by exact Hne;
    rewrite ?list_set_list_eq; assumption.
Qed.

Lemma consistent_polled r : consistent r -> consistent (polled r).
Proof. apply consistent_set_bus. Qed.

Lemma sent_ok_refl r : sent_ok r r.
Proof. exists []. rewrite app_nil_r. auto. Qed.

Lemma sent_ok_trans r1 r2 r3 : sent_ok r1 r2 -> sent_ok r2 r3 -> sent_ok r1 r3.
Proof.
  intros (e1 & H1 & F1) (e2 & H2 & F2). exists (e1 ++ e2).
  rewrite H2, H1, app_assoc. split; [reflexivity|].
  apply Forall_app. auto.
Qed.

Lemma sent_ok_bus r r2 r' :
  log (m_busConnector r') = log (m_busConnector r2) ->
  sent_ok r r2 -> sent_ok r r'.
Proof. intros H (evs & Hl & Hf). exists evs. rewrite H. auto. Qed.

Lemma transferBlock_consistent r :
  target_ok ->
  DisplayList.state (frontList r) = DisplayList.TRANSFERRING ->
  consistent r ->
  exists b r', transferBlock r = Ok (b, r') /\ consistent r' /\ sent_ok r r'.
Proof.
  intros Hok Hst Hc.
  pose proof (sizes_range Hok) as (Hs & Ht & Hx).
  destruct (Z.lt_ge_cases 0 (remainingPixels (m_textureStreamArg r)))
    as [Hpos|Hnon].
  - rewrite transferBlock_texture by exact Hpos.
    eexists _, _. split; [reflexivity|]. split.
    + apply consistent_set_texture; [apply i32_range|].
      apply consistent_set_bus. exact Hc.
    + eexists. rsimpl. split; [reflexivity|].
      constructor; [|constructor].
      cbn. unfold HARDWARE_BUFFER_SIZE. lia.
  - unfold transferBlock.
    destruct (Z.ltb_spec 0 (remainingPixels (m_textureStreamArg r))); [lia|].
    set (r0 := set_m_displayListUpload
                 (DisplayList.clear (m_displayListUpload r)) r).
    assert (Hc0 : consistent r0).
    { apply consistent_set_upload; [|exact Hc].
      cbn. unfold HARDWARE_BUFFER_SIZE. lia. }
    assert (Hf0 : filling r0).
    { destruct Hc0 as [Ci Cbs Cbr Cbw Cbst Cfr Cfw Cfs Cfrest Cff Cu Cidx Ctex]. repeat split; assumption || lia. }
    pose proof (Stream_le _ _ Hok (co_front_rest _ Hc0)) as Hle.
    pose proof (co_front_readPos _ Hc0) as Hrp0.
    destruct (fillLoop_total (fillFuel r0) false r0 Hok Hf0)
      as (r1 & E & Hf1 & _ & _).
    { unfold fillFuel. lia. }
    rewrite E. cbn [mbind Outcome_bind].
    pose proof (fillLoop_frame _ _ _ _ E) as F.
    pose proof (consistent_walked _ _ Hok Hc0 F Hf1) as Hc1.
    destruct F as [_ _ Fi Fbus _ _ _ _ _ _ Fs].
    change (frontList r0) with (frontList r) in Fs.
    change (m_uploadIndexPosition r0) with (m_uploadIndexPosition r) in Fi.
    change (m_busConnector r0) with (m_busConnector r) in Fbus.
    match goal with |- context [set_m_busConnector ?b r1] =>
      set (r2 := set_m_busConnector b r1) end.
    assert (Hc2 : consistent r2) by (apply consistent_set_bus; exact Hc1).
    assert (Hfront2 : frontList r2 = frontList r1) by (unfold r2; rsimpl; reflexivity).
    assert (Hidx2 : m_uploadIndexPosition r2 = m_uploadIndexPosition r1)
      by reflexivity.
    assert (Hs2 : sent_ok r r2).
    { eexists. unfold r2. rsimpl. rewrite Fbus, <- app_assoc.
      split; [reflexivity|].
      pose proof (co_index _ Hc1) as Hi1. pose proof (co_upload _ Hc1) as Hu1.
      cbn [app]. constructor; [exact Hi1|]. constructor; [exact Hu1|].
      constructor. }
    destruct (DisplayList.atEnd (frontList r2)).
    2: { eexists _, _. split; [reflexivity|]. split; [exact Hc2 | exact Hs2]. }
    set (r3 := set_frontList (DisplayList.resetGet (frontList r2)) r2).
    assert (Hfront3 : frontList r3 = DisplayList.resetGet (frontList r2)).
    { unfold r3. rsimpl. rewrite ?list_set_list_eq. reflexivity. }
    assert (Hc3 : consistent r3).
    { pose proof Hc2 as [Ci Cbs Cbr Cbw Cbst Cfr Cfw Cfs Cfrest Cff Cu Cidx Ctex].
      apply consistent_set_front; rsimpl; try assumption; try lia.
      - eapply Stream_ext; [| |exact Cfs]; reflexivity.
      - eapply Stream_ext; [| |exact Cfs]; reflexivity.
      - rewrite Hfront2, Fs, Hst in *. discriminate. }
    assert (Hidx3 : m_uploadIndexPosition r3 = m_uploadIndexPosition r2)
      by (unfold r3; rsimpl; reflexivity).
    rewrite Hidx3.
    destruct (Z.eqb_spec (m_uploadIndexPosition r2) 0) as [Hz|Hz].
    + eexists _, _. split; [reflexivity|]. split.
      * apply consistent_set_front; cbn; try lia;
          try (apply Stream_empty; reflexivity); auto; try exact Hc3.
        destruct Hok as (_ & _ & _ & ? & _). lia.
      * apply (sent_ok_bus r r2); [|exact Hs2]. unfold r3. rsimpl. reflexivity.
    + eexists _, _. split; [reflexivity|]. split.
      * pose proof (co_index _ Hc2) as Hi.
        destruct Hok as (_ & HD & _).
        apply consistent_set_index; [|exact Hc3].
        rewrite u32_small by lia. lia.
      * apply (sent_ok_bus r r2); [|exact Hs2]. unfold r3. rsimpl. reflexivity.
Qed.

End Consistent.

Section WalkerSafe.
Context `{T : Target}.
Implicit Types r : Renderer.
Implicit Types l : List.

Lemma queuedBlock_consistent r :
  target_ok -> consistent r -> consistent (queuedBlock r).
Proof.
  intros Hok Hc. unfold queuedBlock.
  destruct (DisplayList.state (frontList r)) eqn:Hst; cbn [DisplayList.State_eqb];
    try exact Hc.
  pose proof Hok as (_ & HD & _).
  set (r1 := set_m_uploadIndexPosition (u32 (DISPLAY_LINES - 1)) r).
  assert (Hc1 : consistent r1).
  { apply consistent_set_index; [|exact Hc]. rewrite u32_small by lia. lia. }
  assert (Hf1 : frontList r1 = frontList r) by reflexivity.
  pose proof Hc1 as [Ci Cbs Cbr Cbw Cbst Cfr Cfw Cfs Cfrest Cff Cu Cidx Ctex].
  unfold DisplayList.transfer. rewrite Hf1, Hst.
  apply consistent_set_front; cbn; rewrite <- ?Hf1; try assumption.
  - eapply Stream_ext; [| |exact Cfs]; reflexivity.
  - eapply Stream_ext; [| |exact Cfrest]; reflexivity.
  - discriminate.
Qed.

Lemma uploadDisplayList_sent r :
  target_ok -> consistent r ->
  exists b r', uploadDisplayList r = Ok (b, r') /\ consistent r' /\ sent_ok r r'.
Proof.
  intros Hok Hc. unfold uploadDisplayList. cbn [clearToSend].
  change (set_m_busConnector _ r) with (polled r).
  assert (Hp : sent_ok r (polled r))
    by (apply (sent_ok_bus r r); [reflexivity | apply sent_ok_refl]).
  destruct (ready (m_busConnector r) (polls (m_busConnector r))); cbn [negb].
  2: { eexists _, _. split; [reflexivity|].
       split; [apply consistent_polled; exact Hc | exact Hp]. }
  pose proof (queuedBlock_consistent _ Hok (consistent_polled _ Hc)) as Hq.
  assert (Hqs : sent_ok r (queuedBlock (polled r))).
  { apply (sent_ok_bus r (polled r)); [|exact Hp].
    destruct (queuedBlock_spec (polled r)) as (_ & -> & _). reflexivity. }
  destruct (DisplayList.state (frontList (queuedBlock (polled r)))) eqn:Hst;
    cbn [DisplayList.State_eqb].
  - eexists _, _. split; [reflexivity | auto].
  - eexists _, _. split; [reflexivity | auto].
  - destruct (transferBlock_consistent _ Hok Hst Hq) as (b & r' & E & Hc' & Hs').
    exists b, r'. split; [exact E|]. split; [exact Hc'|].
    exact (sent_ok_trans _ _ _ Hqs Hs').
Qed.

Lemma uploadDisplayList_consistent r :
  target_ok -> consistent r ->
  exists b r', uploadDisplayList r = Ok (b, r') /\ consistent r'.
Proof.
  intros Hok Hc.
  destruct (uploadDisplayList_sent r Hok Hc) as (b & r' & E & Hc' & _).
  exists b, r'. auto.
Qed.

Lemma drain_consistent fuel : forall r,
  target_ok -> consistent r ->
  drain fuel r = OutOfFuel \/
  exists r', drain fuel r = Ok r' /\ consistent r' /\
             DisplayList.state (frontList r') = DisplayList.FREE.
Proof.
  induction fuel as [|fuel IH]; intros r Hok Hc; [left; reflexivity|].
  cbn [drain].
  destruct (uploadDisplayList_consistent r Hok Hc) as (b & r1 & E & Hc1).
  rewrite E. cbn [mbind Outcome_bind].
  destruct b; [apply IH; assumption|].
  right. exists r1. split; [reflexivity|]. split; [exact Hc1|].
  apply uploadDisplayList_Step in E as [HS _]. exact (Step_false _ _ HS).
Qed.

Lemma call_consistent (m : Mutator) r :
  target_ok -> consistent r -> consistent (snd (call m r)).
Proof.
  intros Hok Hc.
  pose proof Hc as [Ci Cbs Cbr Cbw Cbst Cfr Cfw Cfs Cfrest Cff Cu Cidx Ctex].
  assert (Hw : 0 <= DisplayList.writePos (backList r) < 2 ^ 32).
  { destruct Hok as (_ & _ & _ & ? & _). lia. }
  destruct (call_encoded m r Hok Hw Ci) as [Hws [[_ Hb] | [_ (op & arg & Hb & Hfit & Hsz & Hpay)]]].
  - apply (consistent_encoder r _ (backList r)); auto.
  - pose proof (sizes_range Hok) as (Hs & _ & _).
    apply (consistent_encoder r _ (appended op arg (backList r))); auto.
    + pose proof (payload_size_nonneg op Hok).
      unfold appended. cbn [DisplayList.writePos]. lia.
    + apply Stream_appended; auto; [lia|].
      apply Hpay. unfold appended, DisplayList.load. cbn [DisplayList.mem].
      apply lookup_insert_eq.
Qed.

Lemma clear_consistent (colorBuffer depthBuffer : bool) r :
  target_ok -> consistent r -> consistent (snd (clear colorBuffer depthBuffer r)).
Proof.
  intros Hok Hc.
  pose proof Hc as [Ci Cbs Cbr Cbw Cbst Cfr Cfw Cfs Cfrest Cff Cu Cidx Ctex].
  destruct (clear_encoded colorBuffer depthBuffer r Hok Ci)
    as (Hws & _ & _ & [(_ & -> & _) | (_ & Hfit & v & Hb & Hcl & _)]);
    [exact Hc|].
  pose proof (sizes_range Hok) as (Hs & _ & _).
  eapply (consistent_encoder r); [exact Hc | exact Hws | exact Hb | ..];
    rsimpl; auto; [lia|].
  apply Stream_opcode; auto.
  unfold payload_size. rewrite Hcl.
  destruct (colorBuffer || depthBuffer); reflexivity.
Qed.


Lemma setDepthFunc_consistent func r :
  target_ok -> consistent r -> consistent (snd (setDepthFunc func r)).
Proof. exact (call_consistent (SetDepthFunc func) r). Qed.

Lemma setDepthMask_consistent flag r :
  target_ok -> consistent r -> consistent (snd (setDepthMask flag r)).
Proof. exact (call_consistent (SetDepthMask flag) r). Qed.

Lemma setColorMask_consistent red green blue alpha r :
  target_ok -> consistent r ->
  consistent (snd (setColorMask red green blue alpha r)).
Proof. exact (call_consistent (SetColorMask red green blue alpha) r). Qed.

Lemma setAlphaFunc_consistent func ref r :
  target_ok -> consistent r -> consistent (snd (setAlphaFunc func ref r)).
Proof. exact (call_consistent (SetAlphaFunc func ref) r). Qed.

Lemma setTexEnv_consistent target pname param r :
  target_ok -> consistent r -> consistent (snd (setTexEnv target pname param r)).
Proof. exact (call_consistent (SetTexEnv target pname param) r). Qed.

Lemma setBlendFunc_consistent sfactor dfactor r :
  target_ok -> consistent r -> consistent (snd (setBlendFunc sfactor dfactor r)).
Proof. exact (call_consistent (SetBlendFunc sfactor dfactor) r). Qed.

Lemma setTexEnvColor_consistent color r :
  target_ok -> consistent r -> consistent (snd (setTexEnvColor color r)).
Proof. exact (call_consistent (SetTexEnvColor color) r). Qed.

Lemma setClearColor_consistent color r :
  target_ok -> consistent r -> consistent (snd (setClearColor color r)).
Proof. exact (call_consistent (SetClearColor color) r). Qed.

Lemma setClearDepth_consistent depth r :
  target_ok -> consistent r -> consistent (snd (setClearDepth depth r)).
Proof. exact (call_consistent (SetClearDepth depth) r). Qed.

Lemma setLogicOp_consistent opcode r :
  consistent r -> consistent (snd (setLogicOp opcode r)).
Proof. intros H. exact H. Qed.

Lemma Renderer_new_consistent busConnector c1 c2 :
  target_ok -> consistent (Renderer_new busConnector c1 c2).
Proof.
  intros Hok. unfold Renderer_new. cbv zeta.
  apply setClearDepth_consistent; [exact Hok|].
  apply setClearColor_consistent; [exact Hok|].
  apply setTexEnvColor_consistent; [exact Hok|].
  apply setLogicOp_consistent.
  apply setBlendFunc_consistent; [exact Hok|].
  apply setTexEnv_consistent; [exact Hok|].
  apply setAlphaFunc_consistent; [exact Hok|].
  apply setColorMask_consistent; [exact Hok|].
  apply setDepthMask_consistent; [exact Hok|].
  apply setDepthFunc_consistent; [exact Hok|].
  destruct Hok as (_ & HD & _ & HS & _).
  constructor.
  all: cbn [backList frontList m_displayList m_backList m_frontList Z.eqb
    m_displayList_0 m_displayList_1 DisplayList.clear emptyList
    DisplayList.state DisplayList.readPos DisplayList.writePos
    m_displayListUpload m_uploadIndexPosition m_textureStreamArg remainingPixels].
  all: try reflexivity; try (apply Stream_empty; reflexivity);
    try (unfold HARDWARE_BUFFER_SIZE; lia).
  left. split; reflexivity.
Qed.

End WalkerSafe.

Section CommitShape.
Context `{T : Target}.
Implicit Types r : Renderer.
Implicit Types l : List.

Lemma drawTriangle_consistent v0 v1 v2 st0 st1 st2 color r :
  target_ok -> sizeOf_RasterizedTriangle < 4096 -> consistent r ->
  exists ret r',
    drawTriangle v0 v1 v2 st0 st1 st2 color r = Ok (ret, r') /\ consistent r'.
Proof.
  intros Hok Hsz Hc. unfold drawTriangle.
  destruct (rasterize v0 st0 v1 st1 v2 st2) as [visible t].
  destruct visible; cbn [negb].
  2: { eexists _, _. split; [reflexivity | exact Hc]. }
  pose proof Hc as [Ci Cbs Cbr Cbw Cbst Cfr Cfw Cfs Cfrest Cff Cu Cidx Ctex].
  pose proof (sizes_range Hok) as (Hs & Ht & _).
  assert (Hw : 0 <= DisplayList.writePos (backList r) < 2 ^ 32).
  { destruct Hok as (_ & _ & _ & ? & _). lia. }
  set (tri := CTriangle (mkTriangle (triangleData t) (convertColor color))).
  assert (Hc1 : forall l,
    l = backList r \/
    (l = appended TRIANGLE_FULL tri (backList r) /\
     DisplayList.writePos (backList r) + sizeOf_SCT + sizeOfCell tri
       <= DISPLAY_LIST_SIZE) ->
    consistent (set_backList l r)).
  { intros l [-> | [-> Hfit]].
    - unfold set_backList, backList. rewrite set_list_same. exact Hc.
    - cbn [sizeOfCell tri] in Hfit.
      apply (consistent_encoder r _ (appended TRIANGLE_FULL tri (backList r)));
        auto.
      + apply walker_state_back. exact Ci.
      + apply backList_set_backList.
      + unfold appended. cbn [DisplayList.writePos sizeOfCell tri]. lia.
      + destruct (TRIANGLE_FULL_class Hok Hsz) as [Hcl _].
        destruct (record_ok_TRIANGLE TRIANGLE_FULL
                    (mkTriangle (triangleData t) (convertColor color)) Hcl)
          as [Hps Hpay].
        apply Stream_appended; auto; [lia|].
        apply Hpay. unfold appended, DisplayList.load. cbn [DisplayList.mem].
        apply lookup_insert_eq. }
  destruct (appendStreamCommand_spec DISPLAY_LIST_SIZE (backList r)
              TRIANGLE_FULL tri Hw) as [(E & _ & Hfit) | (E & _)]; rewrite E.
  - destruct (uploadDisplayList_consistent
                (set_backList (appended TRIANGLE_FULL tri (backList r)) r) Hok)
      as (b & r' & E' & Hc'); [apply Hc1; auto|].
    rewrite E'. eexists _, _. split; [reflexivity | exact Hc'].
  - destruct (uploadDisplayList_consistent (set_backList (backList r) r) Hok)
      as (b & r' & E' & Hc'); [apply Hc1; auto|].
    rewrite E'. eexists _, _. split; [reflexivity | exact Hc'].
Qed.

Lemma swapped_spec r :
  indices_ok r ->
  DisplayList.state (backList r) = DisplayList.FREE ->
  indices_ok (swapped r) /\
  m_frontList (swapped r) = m_backList r /\
  m_backList (swapped r) = m_frontList r /\
  frontList (swapped r) = DisplayList.set_state DisplayList.QUEUED (backList r) /\
  backList (swapped r) = frontList r /\
  m_displayListUpload (swapped r) = m_displayListUpload r /\
  m_uploadIndexPosition (swapped r) = m_uploadIndexPosition r /\
  m_textureStreamArg (swapped r) = m_textureStreamArg r /\
  m_busConnector (swapped r) = m_busConnector r.
Proof.
  intros Hi Hst. unfold swapped, DisplayList.enqueue. rewrite Hst.
  unfold indices_ok, backList, frontList, set_backList in *.
  destruct Hi as [[Hf Hb] | [Hf Hb]]; rewrite ?Hf, ?Hb; rsimpl;
    rewrite ?Hf, ?Hb; cbn [Z.eqb]; rsimpl;
    rewrite ?list_set_list_ne by discriminate; rewrite ?list_set_list_eq;
    auto 12.
Qed.

Lemma consistent_swapped r :
  consistent r ->
  DisplayList.state (frontList r) = DisplayList.FREE ->
  consistent (swapped r).
Proof.
  intros [Ci Cbs Cbr Cbw Cbst Cfr Cfw Cfs Cfrest Cff Cu Cidx Ctex] Hfree.
  destruct (swapped_spec r Ci Cbs)
    as (Hi & _ & _ & Hf & Hb & Hu & Hx & Ht & _).
  destruct (Cff Hfree) as [Hw0 Hr0].
  constructor; rewrite ?Hf, ?Hb, ?Hu, ?Hx, ?Ht;
    cbn [DisplayList.set_state DisplayList.state DisplayList.readPos
         DisplayList.writePos];
    rewrite ?Cbr;
    first [ assumption | lia | discriminate
          | eapply Stream_ext; [| |exact Cbst]; reflexivity ].
Qed.

Lemma set_backList_twice (x y : List) r :
  set_backList x (set_backList y r) = set_backList x r.
Proof. unfold set_backList. rewrite back_set_list. apply set_list_twice. Qed.

Lemma commit_eq fuel r :
  DisplayList.writePos (backList r) + sizeOf_SCT <= DISPLAY_LIST_SIZE ->
  commit fuel r =
    (r2 ← drain fuel
            (set_backList
               (DisplayList.store (DisplayList.writePos (backList r))
                  (CCommand (Z.lor FRAMEBUFFER_COMMIT FRAMEBUFFER_COLOR))
                  (DisplayList.set_writePos
                     (DisplayList.writePos (backList r) + sizeOf_SCT)
                     (backList r))) r);
     '(_, r') ← uploadDisplayList (swapped r2);
     Ok (RVoid, r')).
Proof.
  intros Hfit. unfold commit. rewrite create_ok by exact Hfit.
  cbv zeta. rewrite backList_set_backList, set_backList_twice.
  reflexivity.
Qed.

Lemma commit_abort_eq fuel r :
  DISPLAY_LIST_SIZE < DisplayList.writePos (backList r) + sizeOf_SCT ->
  commit fuel r = Ok (RVoid, set_backList (DisplayList.clear (backList r)) r).
Proof.
  intros Hno. unfold commit, DisplayList.create.
  destruct (Z.leb_spec (DisplayList.writePos (backList r) + sizeOf_SCT)
              DISPLAY_LIST_SIZE); [lia|].
  cbv zeta. rewrite set_backList_twice, backList_set_backList. reflexivity.
Qed.

End CommitShape.

Section CommitSafe.
Context `{T : Target}.
Implicit Types r : Renderer.
Implicit Types l : List.

Lemma committing_consistent r :
  target_ok -> consistent r ->
  DisplayList.writePos (backList r) + sizeOf_SCT <= DISPLAY_LIST_SIZE ->
  consistent (committing r).
Proof.
  intros Hok Hc Hfit.
  pose proof Hc as [Ci Cbs Cbr Cbw Cbst Cfr Cfw Cfs Cfrest Cff Cu Cidx Ctex].
  pose proof (sizes_range Hok) as (Hs & _ & _).
  eapply (consistent_encoder r); [exact Hc | | apply backList_set_backList | ..];
    rsimpl; auto; try lia.
  - apply walker_state_back. exact Ci.
  - apply Stream_opcode; auto.
Qed.

Lemma abort_consistent r :
  consistent r -> consistent (set_backList (DisplayList.clear (backList r)) r).
Proof.
  intros Hc.
  pose proof Hc as [Ci Cbs Cbr Cbw Cbst Cfr Cfw Cfs Cfrest Cff Cu Cidx Ctex].
  eapply (consistent_encoder r); [exact Hc | | apply backList_set_backList | ..];
    rsimpl; auto; try lia.
  - apply walker_state_back. exact Ci.
  - apply Stream_empty. reflexivity.
Qed.

Lemma commit_cases fuel r :
  target_ok -> consistent r ->
  (DISPLAY_LIST_SIZE < DisplayList.writePos (backList r) + sizeOf_SCT /\
   commit fuel r = Ok (RVoid, set_backList (DisplayList.clear (backList r)) r)) \/
  (DisplayList.writePos (backList r) + sizeOf_SCT <= DISPLAY_LIST_SIZE /\
   ((drain fuel (committing r) = OutOfFuel /\ commit fuel r = OutOfFuel) \/
    (exists r2 b r',
       drain fuel (committing r) = Ok r2 /\
       consistent r2 /\
       DisplayList.state (frontList r2) = DisplayList.FREE /\
       uploadDisplayList (swapped r2) = Ok (b, r') /\
       commit fuel r = Ok (RVoid, r') /\
       consistent r'))).
Proof.
  intros Hok Hc.
  destruct (Z.le_gt_cases (DisplayList.writePos (backList r) + sizeOf_SCT)
              DISPLAY_LIST_SIZE) as [Hfit|Hno].
  2: { left. split; [lia|]. apply commit_abort_eq. lia. }
  right. split; [exact Hfit|].
  rewrite (commit_eq fuel r Hfit). fold (committing r).
  destruct (drain_consistent fuel (committing r) Hok
              (committing_consistent r Hok Hc Hfit))
    as [E | (r2 & E & Hc2 & Hfree)]; rewrite E; cbn [mbind Outcome_bind].
  - left. split; reflexivity.
  - right.
    destruct (uploadDisplayList_consistent (swapped r2) Hok
                (consistent_swapped r2 Hc2 Hfree)) as (b & r' & E' & Hc').
    exists r2, b, r'. rewrite E'. cbn [mbind Outcome_bind]. auto 10.
Qed.

Lemma commit_safe_lemma fuel r :
  target_ok -> consistent r ->
  commit fuel r = OutOfFuel \/
  exists r', commit fuel r = Ok (RVoid, r') /\ consistent r'.
Proof.
  intros Hok Hc.
  destruct (commit_cases fuel r Hok Hc)
    as [[_ E] | [_ [[_ E] | (r2 & b & r' & _ & _ & _ & _ & E & Hc')]]].
  - right. eexists. split; [exact E|]. apply abort_consistent. exact Hc.
  - left. exact E.
  - right. exists r'. auto.
Qed.

Lemma consistent_sending r :
  target_ok -> consistent r ->
  DisplayList.state (frontList r) <> DisplayList.FREE ->
  (forall n, (polls (m_busConnector r) <= n)%nat ->
             ready (m_busConnector r) n = true) ->
  sending r.
Proof.
  intros Hok [Ci Cbs Cbr Cbw Cbst Cfr Cfw Cfs Cfrest Cff Cu Cidx Ctex] Hst Hbus.
  destruct Hok as (_ & HD & _).
  split; [destruct (DisplayList.state (frontList r)); auto; contradiction|].
  repeat split; auto; lia.
Qed.

Lemma drain_returns r :
  target_ok ->
  sizeOf_SCT + sizeOf_RasterizedTriangle <= HARDWARE_BUFFER_SIZE ->
  consistent r ->
  (forall n, (polls (m_busConnector r) <= n)%nat ->
             ready (m_busConnector r) n = true) ->
  exists fuel r', drain fuel r = Ok r'.
Proof.
  intros Hok Hfit Hc Hbus.
  destruct (DisplayList.state (frontList r)) eqn:Hst.
  - exists 1%nat. cbn [drain].
    destruct (uploadDisplayList_consistent r Hok Hc) as (b & r' & E & _).
    rewrite E. cbn [mbind Outcome_bind].
    apply uploadDisplayList_Step in E as [HS _].
    assert (Hr : bus_ready r = true) by (apply Hbus; lia).
    inversion HS; subst; try congruence; eauto.
  - destruct (work r) as [[a b] c] eqn:Hw.
    apply (drain_total Hok Hfit a b c r); [|exact Hw].
    apply consistent_sending; auto. rewrite Hst. discriminate.
  - destruct (work r) as [[a b] c] eqn:Hw.
    apply (drain_total Hok Hfit a b c r); [|exact Hw].
    apply consistent_sending; auto. rewrite Hst. discriminate.
Qed.

Lemma commit_returns_lemma r :
  target_ok ->
  sizeOf_SCT + sizeOf_RasterizedTriangle <= HARDWARE_BUFFER_SIZE ->
  consistent r ->
  (forall n, (polls (m_busConnector r) <= n)%nat ->
             ready (m_busConnector r) n = true) ->
  exists fuel r', commit fuel r = Ok (RVoid, r') /\ consistent r'.
Proof.
  intros Hok Hfit Hc Hbus.
  destruct (Z.le_gt_cases (DisplayList.writePos (backList r) + sizeOf_SCT)
              DISPLAY_LIST_SIZE) as [Hroom|Hno].
  2: { exists 0%nat. eexists. split; [apply commit_abort_eq; lia|].
       apply abort_consistent. exact Hc. }
  destruct (drain_returns (committing r) Hok Hfit
              (committing_consistent r Hok Hc Hroom)) as (fuel & r2 & E).
  { unfold committing. rsimpl. exact Hbus. }
  exists fuel.
  destruct (commit_cases fuel r Hok Hc)
    as [[Hx _] | [_ [[E' _] | (r2' & b & r' & _ & _ & _ & _ & Ec & Hc')]]].
  - lia.
  - congruence.
  - exists r'. auto.
Qed.

End CommitSafe.

(** ** The band walker on a busy bus, and on a texture *)

Section BusyBus.
Context `{T : Target}.
Implicit Types r : Renderer.
Implicit Types l : List.

Lemma uploadDisplayList_busy r :
  bus_ready r = false -> uploadDisplayList r = Ok (true, polled r).
Proof.
  intros H. unfold uploadDisplayList, bus_ready in *. cbn [clearToSend].
  rewrite H. reflexivity.
Qed.

Lemma drain_busy fuel : forall r,
  (forall n, (polls (m_busConnector r) <= n)%nat ->
             ready (m_busConnector r) n = false) ->
  drain fuel r = OutOfFuel.
Proof.
  induction fuel as [|fuel IH]; intros r Hbus; [reflexivity|].
  cbn [drain]. rewrite uploadDisplayList_busy by (apply Hbus; lia).
  cbn [mbind Outcome_bind]. apply IH.
  intros n Hn. cbn in Hn |- *. apply Hbus. lia.
Qed.

Lemma uploads_busy (n : nat) : forall r,
  (forall k, (k < n)%nat ->
             ready (m_busConnector r) (polls (m_busConnector r) + k) = false) ->
  uploads n r =
    Ok (repeat true n,
        set_m_busConnector
          (mkBus (ready (m_busConnector r)) (n + polls (m_busConnector r))
             (log (m_busConnector r))) r).
Proof.
  induction n as [|n IH]; intros r Hbus.
  - cbn. destruct r as [? ? ? ? ? ? ? [? ? ?] ? ? ?]. reflexivity.
  - cbn [uploads].
    rewrite uploadDisplayList_busy
      by (unfold bus_ready; rewrite <- (Nat.add_0_r (polls _)); apply Hbus; lia).
    cbn [mbind Outcome_bind]. rewrite IH.
    + cbn [mbind Outcome_bind repeat]. unfold polled. cbn.
      rewrite Nat.add_succ_r. reflexivity.
    + intros k Hk. cbn. rewrite <- Nat.add_succ_r. apply Hbus. lia.
Qed.

(** One chunk of a texture. *)
Lemma uploadDisplayList_texture r :
  bus_ready r = true ->
  DisplayList.state (frontList r) = DisplayList.TRANSFERRING ->
  0 < remainingPixels (m_textureStreamArg r) < 2 ^ 31 ->
  uploadDisplayList r =
    Ok (true,
        set_m_textureStreamArg
          (mkTextureStreamArg
             (ptr_add (pixels (m_textureStreamArg r)) PIXEL_INC)
             (remainingPixels (m_textureStreamArg r) - PIXEL_INC))
          (set_m_busConnector
             (writeData (FromPixels (pixels (m_textureStreamArg r)))
                HARDWARE_BUFFER_SIZE (snd (clearToSend (m_busConnector r)))) r)).
Proof.
  intros Hr Hst Hrem. unfold uploadDisplayList, bus_ready in *.
  cbn [clearToSend]. rewrite Hr. cbn [negb].
  unfold queuedBlock. rsimpl. rewrite Hst. cbn [DisplayList.State_eqb].
  rsimpl. rewrite Hst. cbn [DisplayList.State_eqb].
  rewrite transferBlock_texture by (rsimpl; lia). rsimpl.
  rewrite i32_u32, i32_small; [reflexivity|].
  unfold PIXEL_INC, HARDWARE_BUFFER_SIZE. change (2048 / 2) with 1024. lia.
Qed.

End BusyBus.

Section TextureChunks.
Context `{T : Target}.
Implicit Types r : Renderer.
Implicit Types l : List.

Lemma chunks_S (p : Z) (n : nat) :
  chunks p (S n) =
    EvWriteData (FromPixels p) HARDWARE_BUFFER_SIZE
      :: chunks (ptr_add p PIXEL_INC) n.
Proof.
  unfold chunks. cbn [seq map]. f_equal.
  - unfold ptr_add. do 2 f_equal. lia.
  - rewrite <- seq_shift, map_map. apply map_ext. intros k.
    unfold ptr_add. do 2 f_equal. lia.
Qed.

Lemma uploads_texture (n : nat) : forall r,
  DisplayList.state (frontList r) = DisplayList.TRANSFERRING ->
  Z.of_nat n * PIXEL_INC - PIXEL_INC < remainingPixels (m_textureStreamArg r) ->
  remainingPixels (m_textureStreamArg r) < 2 ^ 31 ->
  (forall k, (k < n)%nat ->
             ready (m_busConnector r) (polls (m_busConnector r) + k) = true) ->
  exists r',
    uploads n r = Ok (repeat true n, r') /\
    log (m_busConnector r') =
      log (m_busConnector r) ++ chunks (pixels (m_textureStreamArg r)) n /\
    m_textureStreamArg r' =
      mkTextureStreamArg
        (ptr_add (pixels (m_textureStreamArg r)) (Z.of_nat n * PIXEL_INC))
        (remainingPixels (m_textureStreamArg r) - Z.of_nat n * PIXEL_INC) /\
    frontList r' = frontList r /\
    m_uploadIndexPosition r' = m_uploadIndexPosition r /\
    polls (m_busConnector r') = (n + polls (m_busConnector r))%nat.
Proof.
  assert (HI : PIXEL_INC = 1024) by reflexivity.
  induction n as [|n IH]; intros r Hst Hlo Hhi Hbus.
  - exists r. split; [reflexivity|]. rewrite app_nil_r.
    split; [reflexivity|]. split; [|auto].
    destruct (m_textureStreamArg r) as [p R]. unfold ptr_add. cbn.
    f_equal; lia.
  - cbn [uploads].
    rewrite uploadDisplayList_texture; [|unfold bus_ready| |].
    2: { rewrite <- (Nat.add_0_r (polls _)). apply Hbus. lia. }
    2: exact Hst.
    2: lia.
    cbn [mbind Outcome_bind].
    match goal with |- context [uploads n ?x] => set (r1 := x) end.
    destruct (IH r1) as (r' & E & Hlog & Htex & Hfront & Hidx & Hp).
    + unfold r1. rsimpl. exact Hst.
    + unfold r1. rsimpl. cbn [remainingPixels]. lia.
    + unfold r1. rsimpl. cbn [remainingPixels]. lia.
    + intros k Hk. unfold r1. rsimpl.
      rewrite <- Nat.add_succ_r. apply Hbus. lia.
    + rewrite E. cbn [mbind Outcome_bind repeat]. exists r'.
      split; [reflexivity|].
      unfold r1 in Hlog, Htex, Hfront, Hidx, Hp. rsimpl.
      cbn [pixels remainingPixels] in *.
      rewrite Hlog, Htex, Hfront, Hidx, Hp, chunks_S, <- app_assoc.
      split; [reflexivity|]. split; [|split; [reflexivity|split; [reflexivity|lia]]].
      unfold ptr_add. f_equal; lia.
Qed.

End TextureChunks.

(** ** One turn of the fill loop on a register and on a bare opcode *)

Section RegisterStep.
Context `{T : Target}.
Implicit Types r : Renderer.
Implicit Types l : List.

Lemma case_SET_REG_ok r c :
  DisplayList.writePos (m_displayListUpload r) + sizeOf_u16
    <= HARDWARE_BUFFER_SIZE ->
  DisplayList.readPos (frontList r) + sizeOf_u16
    <= DisplayList.writePos (frontList r) ->
  loadU16 (frontList r) (DisplayList.readPos (frontList r)) = Ok c ->
  exists r',
    case_SET_REG r = Ok r' /\
    DisplayList.readPos (frontList r') =
      DisplayList.readPos (frontList r) + sizeOf_u16 /\
    m_textureStreamArg r' = m_textureStreamArg r /\
    DisplayList.writePos (m_displayListUpload r')
      = DisplayList.writePos (m_displayListUpload r) + sizeOf_u16 /\
    DisplayList.mem (m_displayListUpload r') =
      <[DisplayList.writePos (m_displayListUpload r) := c]>
        (DisplayList.mem (m_displayListUpload r)).
Proof.
  intros Hup Hrp Hld. unfold case_SET_REG.
  rewrite create_ok by lia. rsimpl.
  rewrite getNext_ok by lia. rsimpl.
  cbn [deref mbind Outcome_bind].
  unfold loadU16, DisplayList.load in *. rsimpl.
  destruct (DisplayList.mem (m_displayList (m_frontList r) r)
              !! DisplayList.readPos (m_displayList (m_frontList r) r))
    as [[| | | | |]|]; try discriminate Hld; cbn [mbind Outcome_bind];
    injection Hld as <-;
    (eexists; split; [reflexivity|]; rsimpl; auto).
Qed.

(** X7: when the fill loop takes a [SET_REG] record off the front list it
    copies the opcode and, behind it, the 16 bit argument as the encoder
    stored it to the upload list, moves the read position over both, and
    goes on with [leaveLoop] false; the texture cursor is as before. *)
Theorem set_reg_step r op c :
  target_ok ->
  0 <= DisplayList.writePos (m_displayListUpload r) <= HARDWARE_BUFFER_SIZE ->
  hasEnoughSpace HARDWARE_BUFFER_SIZE (m_displayListUpload r) = true ->
  DisplayList.readPos (frontList r) + sizeOf_SCT + sizeOf_u16
    <= DisplayList.writePos (frontList r) ->
  DisplayList.load (DisplayList.readPos (frontList r)) (frontList r)
    = Some (CCommand op) ->
  Z.land op STREAM_COMMAND_OP_MASK = SET_REG ->
  loadU16 (frontList r) (DisplayList.readPos (frontList r) + sizeOf_SCT) = Ok c ->
  let wp := DisplayList.writePos (m_displayListUpload r) in
  exists r',
    fillStep r = Ok (Some false, r') /\
    DisplayList.readPos (frontList r') =
      DisplayList.readPos (frontList r) + sizeOf_SCT + sizeOf_u16 /\
    DisplayList.load wp (m_displayListUpload r') = Some (CCommand op) /\
    DisplayList.load (wp + sizeOf_SCT) (m_displayListUpload r') = Some c /\
    DisplayList.writePos (m_displayListUpload r') = wp + sizeOf_SCT + sizeOf_u16 /\
    m_textureStreamArg r' = m_textureStreamArg r.
Proof.
  intros Hok Hwp Hroom Hrec Hop Hclass Hld wp.
  pose proof (sizes_range Hok) as (Hs & Ht & _).
  pose proof (sizeOf_u16_le Hok) as Hu.
  assert (Hu0 : 0 < sizeOf_u16) by exact (proj1 Hs).
  pose proof (hasEnoughSpace_room _ Hok Hwp Hroom) as Hfree.
  rewrite (fillStep_command r op) by (assumption || lia).
  assert (Hsw : switchCommand op (copied op r)
                = (r' ← case_SET_REG (copied op r); Ok (false, r'))).
  { unfold switchCommand. rewrite Hclass. reflexivity. }
  rewrite Hsw.
  destruct (case_SET_REG_ok (copied op r) c) as (r' & E & Hrp & Htex & Hw & Hmem).
  - unfold copied. rsimpl. lia.
  - unfold copied. rsimpl. lia.
  - unfold copied, loadU16, DisplayList.load in *. rsimpl. exact Hld.
  - rewrite E. cbn [mbind Outcome_bind]. exists r'.
    unfold copied in Hrp, Htex, Hw, Hmem. rsimpl. fold wp in Hw, Hmem.
    split; [reflexivity|]. split; [lia|].
    unfold DisplayList.load. rewrite Hmem.
    split; [rewrite lookup_insert_ne by lia; apply lookup_insert_eq|].
    split; [apply lookup_insert_eq|]. split; [lia | exact Htex].
Qed.

(** The turn of the fill loop on an opcode that is no triangle, texture or
    register command. *)
Lemma fillStep_plain r op :
  target_ok ->
  0 <= DisplayList.writePos (m_displayListUpload r) <= HARDWARE_BUFFER_SIZE ->
  hasEnoughSpace HARDWARE_BUFFER_SIZE (m_displayListUpload r) = true ->
  DisplayList.readPos (frontList r) + sizeOf_SCT
    <= DisplayList.writePos (frontList r) ->
  DisplayList.load (DisplayList.readPos (frontList r)) (frontList r)
    = Some (CCommand op) ->
  let class := Z.land op STREAM_COMMAND_OP_MASK in
  let wp := DisplayList.writePos (m_displayListUpload r) in
  class <> TRIANGLE_STREAM -> class <> TEXTURE_STREAM -> class <> SET_REG ->
  exists r',
    fillStep r = Ok (Some false, r') /\
    DisplayList.readPos (frontList r') =
      DisplayList.readPos (frontList r) + sizeOf_SCT /\
    m_textureStreamArg r' = m_textureStreamArg r /\
    (class = FRAMEBUFFER_OP \/ class = NOP ->
     DisplayList.writePos (m_displayListUpload r') = wp + sizeOf_SCT /\
     DisplayList.load wp (m_displayListUpload r') = Some (CCommand op)) /\
    (class <> FRAMEBUFFER_OP -> class <> NOP ->
     DisplayList.writePos (m_displayListUpload r') = wp).
Proof.
  intros Hok Hwp Hroom Hrec Hop class wp H1 H2 H3.
  pose proof (sizes_range Hok) as (Hs & Ht & _).
  pose proof (hasEnoughSpace_room _ Hok Hwp Hroom) as Hfree.
  rewrite (fillStep_command r op) by (assumption || lia).
  unfold switchCommand. fold class.
  destruct (Z.eqb_spec class TRIANGLE_STREAM) as [?|_]; [contradiction|].
  destruct (Z.eqb_spec class FRAMEBUFFER_OP) as [Hf|Hf];
    [|destruct (Z.eqb_spec class NOP) as [Hn|Hn]]; cbn [orb].
  1-2: (cbn [mbind Outcome_bind]; eexists; split; [reflexivity|];
        unfold copied, DisplayList.load; rsimpl;
        split; [reflexivity|]; split; [reflexivity|];
        split; [intros _; split; [reflexivity | apply lookup_insert_eq]|];
        intros; congruence).
  destruct (Z.eqb_spec class TEXTURE_STREAM) as [?|_]; [contradiction|].
  destruct (Z.eqb_spec class SET_REG) as [?|_]; [contradiction|].
  cbn [mbind Outcome_bind]. eexists. split; [reflexivity|].
  unfold copied. rsimpl. split; [reflexivity|]. split; [reflexivity|].
  split; [intros [?|?]; contradiction|]. intros _ _.
  unfold HARDWARE_BUFFER_SIZE in *. fold wp. rewrite u32_small by lia. lia.
Qed.

(** X8: when the fill loop takes an opcode that is no triangle, texture or
    register command, it takes nothing else off the front list.  A
    [FRAMEBUFFER_OP] or a [NOP] is copied to the upload list; an opcode of
    any other class is dropped, and the write position of the upload list
    is the one before the turn. *)
Theorem plain_opcode_step r op :
  target_ok ->
  0 <= DisplayList.writePos (m_displayListUpload r) <= HARDWARE_BUFFER_SIZE ->
  hasEnoughSpace HARDWARE_BUFFER_SIZE (m_displayListUpload r) = true ->
  DisplayList.readPos (frontList r) + sizeOf_SCT
    <= DisplayList.writePos (frontList r) ->
  DisplayList.load (DisplayList.readPos (frontList r)) (frontList r)
    = Some (CCommand op) ->
  let class := Z.land op STREAM_COMMAND_OP_MASK in
  let wp := DisplayList.writePos (m_displayListUpload r) in
  class <> TRIANGLE_STREAM -> class <> TEXTURE_STREAM -> class <> SET_REG ->
  exists r',
    fillStep r = Ok (Some false, r') /\
    DisplayList.readPos (frontList r') =
      DisplayList.readPos (frontList r) + sizeOf_SCT /\
    m_textureStreamArg r' = m_textureStreamArg r /\
    (class = FRAMEBUFFER_OP \/ class = NOP ->
     DisplayList.writePos (m_displayListUpload r') = wp + sizeOf_SCT /\
     DisplayList.load wp (m_displayListUpload r') = Some (CCommand op)) /\
    (class <> FRAMEBUFFER_OP -> class <> NOP ->
     DisplayList.writePos (m_displayListUpload r') = wp).
Proof. exact (fillStep_plain r op). Qed.

End RegisterStep.

(** ** A setter that finds the back list full *)

Section FailedSetter.
Context `{T : Target}.
Implicit Types r : Renderer.
Implicit Types l : List.

Lemma set_confReg2_same r : set_m_confReg2 (m_confReg2 r) r = r.
Proof. destruct r. reflexivity. Qed.

Lemma set_confReg1_same r : set_m_confReg1 (m_confReg1 r) r = r.
Proof. destruct r. reflexivity. Qed.

(** The registers after a call, and the state after a call that fails. *)
Lemma call_registers (m : Mutator) r :
  target_ok ->
  0 <= DisplayList.writePos (backList r) < 2 ^ 32 ->
  exists c1 c2,
    forall r0,
      0 <= DisplayList.writePos (backList r0) < 2 ^ 32 ->
      m_confReg1 r0 = m_confReg1 r -> m_confReg2 r0 = m_confReg2 r ->
      m_confReg1 (snd (call m r0)) = c1 /\
      m_confReg2 (snd (call m r0)) = c2 /\
      (fst (call m r0) = RBool false ->
       snd (call m r0) = set_m_confReg2 c2 (set_m_confReg1 c1 r0)).
Proof.
  intros Hok Hw.
  assert (H1 : forall c r0,
    0 <= DisplayList.writePos (backList r0) < 2 ^ 32 ->
    m_confReg2 r0 = m_confReg2 r ->
    m_confReg1 (snd (emitConfReg1 (set_m_confReg1 c r0))) = c /\
    m_confReg2 (snd (emitConfReg1 (set_m_confReg1 c r0))) = m_confReg2 r /\
    (fst (emitConfReg1 (set_m_confReg1 c r0)) = RBool false ->
     snd (emitConfReg1 (set_m_confReg1 c r0))
       = set_m_confReg2 (m_confReg2 r) (set_m_confReg1 c r0))).
  { intros c r0 Hw0 H2.
    destruct (emitConfReg1_spec c r0 Hok Hw0) as [[-> _] | [-> _]];
      cbn [fst snd]; rsimpl; (split; [reflexivity|]); (split; [exact H2|]);
      [discriminate|].
    intros _. rewrite <- H2. symmetry.
    apply (set_confReg2_same (set_m_confReg1 c r0)). }
  assert (H2 : forall c r0,
    0 <= DisplayList.writePos (backList r0) < 2 ^ 32 ->
    m_confReg1 r0 = m_confReg1 r ->
    m_confReg1 (snd (emitConfReg2 (set_m_confReg2 c r0))) = m_confReg1 r /\
    m_confReg2 (snd (emitConfReg2 (set_m_confReg2 c r0))) = c /\
    (fst (emitConfReg2 (set_m_confReg2 c r0)) = RBool false ->
     snd (emitConfReg2 (set_m_confReg2 c r0))
       = set_m_confReg2 c (set_m_confReg1 (m_confReg1 r) r0))).
  { intros c r0 Hw0 H1'.
    destruct (emitConfReg2_spec c r0 Hok Hw0) as [[-> _] | [-> _]];
      cbn [fst snd]; rsimpl; (split; [exact H1'|]); (split; [reflexivity|]);
      [discriminate|].
    intros _. rewrite <- H1', set_confReg1_same. reflexivity. }
  assert (H0 : forall (res : Renderer -> Ret * Renderer),
    (forall r0, 0 <= DisplayList.writePos (backList r0) < 2 ^ 32 ->
       (fst (res r0) = RBool false /\ snd (res r0) = r0) \/
       (m_confReg1 (snd (res r0)) = m_confReg1 r0 /\
        m_confReg2 (snd (res r0)) = m_confReg2 r0 /\
        fst (res r0) = RBool true)) ->
    forall r0,
      0 <= DisplayList.writePos (backList r0) < 2 ^ 32 ->
      m_confReg1 r0 = m_confReg1 r -> m_confReg2 r0 = m_confReg2 r ->
      m_confReg1 (snd (res r0)) = m_confReg1 r /\
      m_confReg2 (snd (res r0)) = m_confReg2 r /\
      (fst (res r0) = RBool false ->
       snd (res r0) = set_m_confReg2 (m_confReg2 r) (set_m_confReg1 (m_confReg1 r) r0))).
  { intros res Hres r0 Hw0 E1 E2.
    destruct (Hres r0 Hw0) as [[Hf ->] | (Ha & Hb & Ht)].
    - split; [exact E1|]. split; [exact E2|]. intros _.
      rewrite <- E1, <- E2, set_confReg1_same, set_confReg2_same. reflexivity.
    - split; [congruence|]. split; [congruence|]. rewrite Ht. discriminate. }
  assert (Happ : forall op arg r0,
    0 <= DisplayList.writePos (backList r0) < 2 ^ 32 ->
    let res := (let '(b, r') := appendStreamCommand_back op arg r0 in (RBool b, r')) in
    (fst res = RBool false /\ snd res = r0) \/
    (m_confReg1 (snd res) = m_confReg1 r0 /\
     m_confReg2 (snd res) = m_confReg2 r0 /\ fst res = RBool true)).
  { intros op arg r0 Hw0.
    destruct (appendStreamCommand_back_spec op arg r0 Hw0) as [[-> _] | [-> _]];
      cbn [fst snd]; [right | left]; rsimpl; auto. }
  destruct m; cbn [call].
  1-3: (exists (m_confReg1 r), (m_confReg2 r); apply H0; intros; apply Happ; assumption).
  1-5: (eexists _, (m_confReg2 r); intros r0 Hw0 E1 E2;
        unfold setDepthMask, enableDepthTest_, setColorMask, setDepthFunc,
          setAlphaFunc; cbv zeta; rewrite E1; apply H1; assumption).
  1-4: (exists (m_confReg1 r); eexists; intros r0 Hw0 E1 E2;
        unfold setTexEnv, setBlendFunc, setTextureWrapModeS,
          setTextureWrapModeT; cbv zeta; rewrite E2; apply H2; assumption).
  exists (m_confReg1 r), (m_confReg2 r). apply H0. intros r0 Hw0.
  unfold useTexture.
  destruct (negb (texWidth =? texHeight)); [left; auto|].
  destruct (if texWidth =? 256 then _ else _); [|left; auto].
  apply Happ. exact Hw0.
Qed.

End FailedSetter.

(** ** The constructor *)

Section Constructor.
Context `{T : Target}.
Implicit Types r : Renderer.
Implicit Types l : List.

Lemma built_append ws r c1 c2 n l op arg r0 :
  target_ok ->
  built ws r c1 c2 n l ->
  0 <= n <= 16 ->
  sizeOfCell arg = sizeOf_SCT ->
  walker_state r0 = walker_state r ->
  backList r0 = backList r ->
  built ws (snd (let '(b, r') := appendStreamCommand_back op arg r0 in
                 (RBool b, r')))
    (m_confReg1 r0) (m_confReg2 r0) (n + 2) (appended op arg l).
Proof.
  intros Hok (Hws & Hi & H1 & H2 & Hw & Hl) Hn Hsz Hws0 Hb0.
  pose proof (sizes_range Hok) as (Hs & _ & _).
  assert (Hi0 : indices_ok r0).
  { unfold walker_state in Hws0. unfold indices_ok in *.
    injection Hws0 as -> -> _ _ _ _ _. exact Hi. }
  assert (Hw0 : 0 <= DisplayList.writePos (backList r0) < 2 ^ 32).
  { rewrite Hb0. destruct Hok as (_ & _ & _ & ? & _). lia. }
  destruct (appendStreamCommand_back_spec op arg r0 Hw0) as [[E Hfit] | [E Hno]];
    rewrite E; cbn [fst snd].
  - split; [rewrite walker_state_back by exact Hi0; congruence|].
    split; [unfold indices_ok in *; rsimpl; exact Hi0|].
    rsimpl. split; [reflexivity|]. split; [reflexivity|].
    rewrite Hb0 in *.
    split.
    + unfold appended. cbn [DisplayList.writePos]. lia.
    + intros Hroom. destruct (Hl Hroom) as [-> Hwl]. split; [reflexivity|].
      unfold appended. cbn [DisplayList.writePos]. lia.
  - split; [congruence|]. split; [exact Hi0|].
    split; [reflexivity|]. split; [reflexivity|].
    split; [rewrite Hb0; exact Hw|]. intros Hroom.
    destruct (Hl Hroom) as [Hb Hwl]. exfalso.
    rewrite Hb0, Hb, Hwl, Hsz in Hno.
    assert (n * sizeOf_SCT <= 16 * sizeOf_SCT) by nia. lia.
Qed.

End Constructor.

Section ConstructorState.
Context `{T : Target}.
Implicit Types r : Renderer.
Implicit Types l : List.

Lemma built_reg1 ws r c1 c2 n l c :
  target_ok -> built ws r c1 c2 n l -> 0 <= n <= 16 ->
  built ws (snd (emitConfReg1 (set_m_confReg1 c r))) c c2 (n + 2)
    (appended SET_CONF_REG1 (CConfReg1 c) l).
Proof.
  intros Hok Hb Hn.
  pose proof (built_append ws r c1 c2 n l SET_CONF_REG1 (CConfReg1 c)
                (set_m_confReg1 c r) Hok Hb Hn eq_refl eq_refl eq_refl) as H.
  destruct Hb as (_ & _ & _ & <- & _). exact H.
Qed.

Lemma built_reg2 ws r c1 c2 n l c :
  target_ok -> built ws r c1 c2 n l -> 0 <= n <= 16 ->
  built ws (snd (emitConfReg2 (set_m_confReg2 c r))) c1 c (n + 2)
    (appended SET_CONF_REG2 (CConfReg2 c) l).
Proof.
  intros Hok Hb Hn.
  pose proof (built_append ws r c1 c2 n l SET_CONF_REG2 (CConfReg2 c)
                (set_m_confReg2 c r) Hok Hb Hn eq_refl eq_refl eq_refl) as H.
  destruct Hb as (_ & _ & <- & _). exact H.
Qed.

Lemma built_u16 ws r c1 c2 n l op v :
  target_ok -> built ws r c1 c2 n l -> 0 <= n <= 16 ->
  built ws (snd (let '(b, r') := appendStreamCommand_back op (CU16 v) r in
                 (RBool b, r')))
    c1 c2 (n + 2) (appended op (CU16 v) l).
Proof.
  intros Hok Hb Hn.
  pose proof (built_append ws r c1 c2 n l op (CU16 v) r Hok Hb Hn
                eq_refl eq_refl eq_refl) as H.
  destruct Hb as (_ & _ & <- & <- & _). exact H.
Qed.

Lemma built_setDepthFunc ws r c1 c2 n l func :
  target_ok -> built ws r c1 c2 n l -> 0 <= n <= 16 ->
  let c := mkConfReg1 (enableDepthTest c1) func (alphaFunc c1)
             (referenceAlphaValue c1) (depthMask c1) (colorMaskA c1)
             (colorMaskB c1) (colorMaskG c1) (colorMaskR c1) in
  built ws (snd (setDepthFunc func r)) c c2 (n + 2)
    (appended SET_CONF_REG1 (CConfReg1 c) l).
Proof.
  intros Hok Hb Hn. pose proof Hb as (_ & _ & E & _).
  unfold setDepthFunc. cbv zeta. rewrite E. apply (built_reg1 ws r c1); assumption.
Qed.

Lemma built_setDepthMask ws r c1 c2 n l flag :
  target_ok -> built ws r c1 c2 n l -> 0 <= n <= 16 ->
  let c := mkConfReg1 (enableDepthTest c1) (depthFunc c1) (alphaFunc c1)
             (referenceAlphaValue c1) flag (colorMaskA c1)
             (colorMaskB c1) (colorMaskG c1) (colorMaskR c1) in
  built ws (snd (setDepthMask flag r)) c c2 (n + 2)
    (appended SET_CONF_REG1 (CConfReg1 c) l).
Proof.
  intros Hok Hb Hn. pose proof Hb as (_ & _ & E & _).
  unfold setDepthMask. cbv zeta. rewrite E. apply (built_reg1 ws r c1); assumption.
Qed.

Lemma built_setColorMask ws r c1 c2 n l red green blue alpha :
  target_ok -> built ws r c1 c2 n l -> 0 <= n <= 16 ->
  let c := mkConfReg1 (enableDepthTest c1) (depthFunc c1) (alphaFunc c1)
             (referenceAlphaValue c1) (depthMask c1) alpha blue green red in
  built ws (snd (setColorMask red green blue alpha r)) c c2 (n + 2)
    (appended SET_CONF_REG1 (CConfReg1 c) l).
Proof.
  intros Hok Hb Hn. pose proof Hb as (_ & _ & E & _).
  unfold setColorMask. cbv zeta. rewrite E. apply (built_reg1 ws r c1); assumption.
Qed.

Lemma built_setAlphaFunc ws r c1 c2 n l func ref :
  target_ok -> built ws r c1 c2 n l -> 0 <= n <= 16 ->
  let c := mkConfReg1 (enableDepthTest c1) (depthFunc c1) func
             (ref mod 2 ^ 4) (depthMask c1) (colorMaskA c1)
             (colorMaskB c1) (colorMaskG c1) (colorMaskR c1) in
  built ws (snd (setAlphaFunc func ref r)) c c2 (n + 2)
    (appended SET_CONF_REG1 (CConfReg1 c) l).
Proof.
  intros Hok Hb Hn. pose proof Hb as (_ & _ & E & _).
  unfold setAlphaFunc. cbv zeta. rewrite E. apply (built_reg1 ws r c1); assumption.
Qed.

Lemma built_setTexEnv ws r c1 c2 n l target pname param :
  target_ok -> built ws r c1 c2 n l -> 0 <= n <= 16 ->
  let c := mkConfReg2 (perspectiveCorrectedTextures c2) param
             (blendFuncSFactor c2) (blendFuncDFactor c2) (texClampS c2)
             (texClampT c2) in
  built ws (snd (setTexEnv target pname param r)) c1 c (n + 2)
    (appended SET_CONF_REG2 (CConfReg2 c) l).
Proof.
  intros Hok Hb Hn. pose proof Hb as (_ & _ & _ & E & _).
  unfold setTexEnv. cbv zeta. rewrite E. apply (built_reg2 ws r c1 c2); assumption.
Qed.

Lemma built_setBlendFunc ws r c1 c2 n l sfactor dfactor :
  target_ok -> built ws r c1 c2 n l -> 0 <= n <= 16 ->
  let c := mkConfReg2 (perspectiveCorrectedTextures c2) (texEnvFunc c2)
             sfactor dfactor (texClampS c2) (texClampT c2) in
  built ws (snd (setBlendFunc sfactor dfactor r)) c1 c (n + 2)
    (appended SET_CONF_REG2 (CConfReg2 c) l).
Proof.
  intros Hok Hb Hn. pose proof Hb as (_ & _ & _ & E & _).
  unfold setBlendFunc. cbv zeta. rewrite E. apply (built_reg2 ws r c1 c2); assumption.
Qed.

Lemma built_setLogicOp ws r c1 c2 n l opcode :
  built ws r c1 c2 n l -> built ws (snd (setLogicOp opcode r)) c1 c2 n l.
Proof. intros H. exact H. Qed.

Lemma built_setTexEnvColor ws r c1 c2 n l color :
  target_ok -> built ws r c1 c2 n l -> 0 <= n <= 16 ->
  built ws (snd (setTexEnvColor color r)) c1 c2 (n + 2)
    (appended SET_TEX_ENV_COLOR (CU16 (convertColor color)) l).
Proof. intros Hok Hb Hn. apply built_u16; assumption. Qed.

Lemma built_setClearColor ws r c1 c2 n l color :
  target_ok -> built ws r c1 c2 n l -> 0 <= n <= 16 ->
  built ws (snd (setClearColor color r)) c1 c2 (n + 2)
    (appended SET_COLOR_BUFFER_CLEAR_COLOR (CU16 (convertColor color)) l).
Proof. intros Hok Hb Hn. apply built_u16; assumption. Qed.

Lemma built_setClearDepth ws r c1 c2 n l depth :
  target_ok -> built ws r c1 c2 n l -> 0 <= n <= 16 ->
  built ws (snd (setClearDepth depth r)) c1 c2 (n + 2)
    (appended SET_DEPTH_BUFFER_CLEAR_DEPTH (CU16 depth) l).
Proof. intros Hok Hb Hn. apply built_u16; assumption. Qed.

Lemma Renderer_new_built busConnector c1 c2 :
  target_ok ->
  built (0, 1, DisplayList.clear emptyList, emptyList, 0,
         mkTextureStreamArg 0 0, busConnector)
    (Renderer_new busConnector c1 c2)
    (mkConfReg1 (enableDepthTest c1) TestFunc_LESS TestFunc_ALWAYS 15
       false true true true true)
    (mkConfReg2 true TexEnvParam_MODULATE BlendFunc_ONE BlendFunc_ZERO
       (texClampS c2) (texClampT c2))
    18 (defaults c1 c2).
Proof.
  intros Hok. unfold Renderer_new. cbv zeta.
  match goal with |- context [setDepthFunc _ ?x] => set (r0 := x) end.
  assert (H0 : built (0, 1, DisplayList.clear emptyList, emptyList, 0,
                      mkTextureStreamArg 0 0, busConnector) r0 c1
                 (mkConfReg2 true (texEnvFunc c2) (blendFuncSFactor c2)
                    (blendFuncDFactor c2) (texClampS c2) (texClampT c2))
                 0 (DisplayList.clear emptyList)).
  { destruct Hok as (_ & _ & _ & HS & _).
    split; [reflexivity|]. split; [left; split; reflexivity|].
    split; [reflexivity|]. split; [reflexivity|].
    split; [cbn; lia|]. intros _. split; reflexivity. }
  pose proof (built_setDepthFunc _ _ _ _ _ _ TestFunc_LESS Hok H0) as H1.
  cbv zeta in H1. cbn [enableDepthTest depthFunc alphaFunc referenceAlphaValue
    depthMask colorMaskA colorMaskB colorMaskG colorMaskR] in H1.
  specialize (H1 ltac:(lia)).
  pose proof (built_setDepthMask _ _ _ _ _ _ false Hok H1) as H2.
  cbv zeta in H2. cbn [enableDepthTest depthFunc alphaFunc referenceAlphaValue
    depthMask colorMaskA colorMaskB colorMaskG colorMaskR] in H2.
  specialize (H2 ltac:(lia)).
  pose proof (built_setColorMask _ _ _ _ _ _ true true true true Hok H2) as H3.
  cbv zeta in H3. cbn [enableDepthTest depthFunc alphaFunc referenceAlphaValue
    depthMask colorMaskA colorMaskB colorMaskG colorMaskR] in H3.
  specialize (H3 ltac:(lia)).
  pose proof (built_setAlphaFunc _ _ _ _ _ _ TestFunc_ALWAYS 0xf Hok H3) as H4.
  cbv zeta in H4. cbn [enableDepthTest depthFunc alphaFunc referenceAlphaValue
    depthMask colorMaskA colorMaskB colorMaskG colorMaskR] in H4.
  change (15 mod 2 ^ 4) with 15 in H4.
  specialize (H4 ltac:(lia)).
  pose proof (built_setTexEnv _ _ _ _ _ _ TexEnvTarget_TEXTURE_ENV
                TexEnvParamName_TEXTURE_ENV_MODE TexEnvParam_MODULATE Hok H4) as H5.
  cbv zeta in H5. cbn [perspectiveCorrectedTextures texEnvFunc blendFuncSFactor
    blendFuncDFactor texClampS texClampT] in H5.
  specialize (H5 ltac:(lia)).
  pose proof (built_setBlendFunc _ _ _ _ _ _ BlendFunc_ONE BlendFunc_ZERO Hok H5)
    as H6.
  cbv zeta in H6. cbn [perspectiveCorrectedTextures texEnvFunc blendFuncSFactor
    blendFuncDFactor texClampS texClampT] in H6.
  specialize (H6 ltac:(lia)).
  pose proof (built_setLogicOp _ _ _ _ _ _ LogicOp_COPY H6) as H7.
  pose proof (built_setTexEnvColor _ _ _ _ _ _ (mkVec4i 0 0 0 0) Hok H7
                ltac:(lia)) as H8.
  pose proof (built_setClearColor _ _ _ _ _ _ (mkVec4i 0 0 0 0) Hok H8
                ltac:(lia)) as H9.
  pose proof (built_setClearDepth _ _ _ _ _ _ 65535 Hok H9 ltac:(lia)) as H10.
  change (convertColor (mkVec4i 0 0 0 0)) with 0 in H10.
  exact H10.
Qed.

End ConstructorState.

(** ** The states that the public interface leads to *)

Section Reachable.
Context `{T : Target}.
Implicit Types r : Renderer.
Implicit Types l : List.

Lemma reachable_consistent_lemma r :
  target_ok -> sizeOf_RasterizedTriangle < 4096 ->
  reachable r -> consistent r.
Proof.
  intros Hok Hsz H.
  induction H as [bus c1 c2 | m r _ IH | c d r _ IH | op r _ IH
                 | v0 v1 v2 st0 st1 st2 color r ret r' _ IH E
                 | fuel r ret r' _ IH E].
  - apply Renderer_new_consistent. exact Hok.
  - apply call_consistent; assumption.
  - apply clear_consistent; assumption.
  - exact IH.
  - destruct (drawTriangle_consistent v0 v1 v2 st0 st1 st2 color r Hok Hsz IH)
      as (ret' & r'' & E' & Hc). congruence.
  - destruct (commit_safe_lemma fuel r Hok IH) as [E' | (r'' & E' & Hc)];
      congruence.
Qed.

End Reachable.

(** ** The further properties *)

Section Coverage.
Context `{T : Target}.
Implicit Types r : Renderer.
Implicit Types l : List.

(** X1: [clear] appends one opcode and no payload to the back list, and
    returns true exactly when the opcode fits; when it does not fit the
    state is the one before the call.  The opcode is [NOP] when neither
    buffer is named, and otherwise a [FRAMEBUFFER_OP] whose immediate has
    the memset bit, the colour bit for [colorBuffer] and the depth bit for
    [depthBuffer], and never the commit bit.  The registers and the walker's
    part of the state are as before. *)
Theorem clear_appends_one_opcode (colorBuffer depthBuffer : bool) r :
  target_ok -> indices_ok r ->
  let wp := DisplayList.writePos (backList r) in
  let res := clear colorBuffer depthBuffer r in
  (fst res = RBool true <-> wp + sizeOf_SCT <= DISPLAY_LIST_SIZE) /\
  (fst res = RBool false -> snd res = r) /\
  (fst res = RBool true ->
   exists v,
     backList (snd res) =
       DisplayList.store wp (CCommand v)
         (DisplayList.set_writePos (wp + sizeOf_SCT) (backList r)) /\
     Z.land v STREAM_COMMAND_OP_MASK =
       (if colorBuffer || depthBuffer then FRAMEBUFFER_OP else NOP) /\
     Z.land v STREAM_COMMAND_IMM_MASK =
       (if colorBuffer || depthBuffer then 0x02 else 0)
       + (if colorBuffer then 0x10 else 0)
       + (if depthBuffer then 0x20 else 0) /\
     m_confReg1 (snd res) = m_confReg1 r /\
     m_confReg2 (snd res) = m_confReg2 r /\
     walker_state (snd res) = walker_state r).
Proof.
  intros Hok Hi. cbv zeta.
  destruct (clear_encoded colorBuffer depthBuffer r Hok Hi)
    as (Hws & H1 & H2 & [(Hf & Hr & Hno) | (Ht & Hfit & v & Hb & Hc & Him)]).
  - rewrite Hf. split; [split; [discriminate | lia]|].
    split; [intros _; exact Hr | discriminate].
  - rewrite Ht. split; [split; auto|]. split; [discriminate|].
    intros _. exists v. auto 10.
Qed.

(** X3: a call of the encoder that returns false for lack of space has
    still changed the registers that the renderer keeps.  The state after
    the call differs from the one before in the two registers only, and
    they hold what the same call leaves on a renderer with space: the
    hardware has not been told, and the next setter of that register that
    fits sends the stale field along. *)
Theorem failed_setter_keeps_register (m : Mutator) r r0 :
  target_ok ->
  DisplayList.wf DISPLAY_LIST_SIZE (backList r) ->
  DisplayList.wf DISPLAY_LIST_SIZE (backList r0) ->
  m_confReg1 r0 = m_confReg1 r -> m_confReg2 r0 = m_confReg2 r ->
  fst (call m r) = RBool false ->
  let r' := snd (call m r) in
  r' = set_m_confReg2 (m_confReg2 r') (set_m_confReg1 (m_confReg1 r') r) /\
  m_confReg1 r' = m_confReg1 (snd (call m r0)) /\
  m_confReg2 r' = m_confReg2 (snd (call m r0)).
Proof.
  intros Hok Hwf Hwf0 E1 E2 Hfail r'.
  pose proof (wf_writePos _ Hok Hwf) as Hw.
  pose proof (wf_writePos _ Hok Hwf0) as Hw0.
  destruct (call_registers m r Hok Hw) as (c1 & c2 & H).
  destruct (H r Hw eq_refl eq_refl) as (Ha & Hb & Hc).
  destruct (H r0 Hw0 E1 E2) as (Ha0 & Hb0 & _).
  fold r' in Ha, Hb, Hc. rewrite Ha, Hb, Ha0, Hb0.
  split; [exact (Hc Hfail)|]. split; reflexivity.
Qed.

(** X4: no call of the encoder touches the band walker's part of the
    state: the two indices, the front list, the upload list, the display
    line, the texture cursor and the bus (nothing is polled, nothing is
    sent) are as before.  [setLogicOp] returns false and changes nothing at
    all. *)
Theorem encoder_leaves_walker_state r :
  target_ok -> DisplayList.wf DISPLAY_LIST_SIZE (backList r) -> indices_ok r ->
  (forall m : Mutator, walker_state (snd (call m r)) = walker_state r) /\
  (forall colorBuffer depthBuffer,
     walker_state (snd (clear colorBuffer depthBuffer r)) = walker_state r) /\
  (forall opcode, setLogicOp opcode r = (RBool false, r)).
Proof.
  intros Hok Hwf Hi. pose proof (wf_writePos _ Hok Hwf) as Hw.
  split; [|split].
  - intros m. apply (call_encoded m r Hok Hw Hi).
  - intros c d. apply (clear_encoded c d r Hok Hi).
  - intros opcode. reflexivity.
Qed.

(** X5: the opcode [TRIANGLE_FULL] carries the aligned size of a triangle
    in its immediate.  It is of the class [TRIANGLE_STREAM] with that size
    as its immediate exactly when the size is below 4096, the twelve bits of
    an immediate; a larger size runs into the bits of the class. *)
Theorem triangle_opcode_decodes :
  target_ok ->
  (Z.land TRIANGLE_FULL STREAM_COMMAND_OP_MASK = TRIANGLE_STREAM /\
   Z.land TRIANGLE_FULL STREAM_COMMAND_IMM_MASK = sizeOf_RasterizedTriangle)
  <-> sizeOf_RasterizedTriangle < 4096.
Proof.
  intros Hok. split; [|apply TRIANGLE_FULL_class; exact Hok].
  intros [_ H]. rewrite <- H. unfold STREAM_COMMAND_IMM_MASK.
  change 4095 with (Z.ones 12). rewrite Z.land_ones by lia.
  apply Z.mod_pos_bound. lia.
Qed.

(** X13: every call of the encoder keeps the renderer consistent; in
    particular the back list stays a sequence of opcodes each followed by
    the payload that the walker will take off behind it. *)
Theorem encoder_keeps_consistent r :
  target_ok -> consistent r ->
  (forall m : Mutator, consistent (snd (call m r))) /\
  (forall colorBuffer depthBuffer,
     consistent (snd (clear colorBuffer depthBuffer r))) /\
  (forall opcode, consistent (snd (setLogicOp opcode r))).
Proof.
  intros Hok Hc. split; [|split].
  - intros m. apply call_consistent; assumption.
  - intros c d. apply clear_consistent; assumption.
  - intros opcode. exact Hc.
Qed.

(** X12: the renderer as constructed is consistent, whatever the bus and
    whatever the registers held. *)
Theorem constructor_consistent busConnector c1 c2 :
  target_ok -> consistent (Renderer_new busConnector c1 c2).
Proof. intros Hok. apply Renderer_new_consistent. exact Hok. Qed.

(** X6: the state the constructor leaves.  The front list is list 0 and
    the back list is list 1, both walker lists are empty, and the bus has
    not been used.  The registers hold depth function [LESS], depth mask
    off, all colour masks on, alpha function [ALWAYS] with reference 15,
    perspective correction on, [MODULATE], and blending [ONE], [ZERO],
    whether or not the records fit; [enableDepthTest] and the two clamp
    flags are never assigned and keep what the registers held.  When
    eighteen records fit, the back list is the nine opcodes of [defaults]
    with their payloads. *)
Theorem constructor_state busConnector c1 c2 :
  target_ok ->
  let r := Renderer_new busConnector c1 c2 in
  walker_state r =
    (0, 1, DisplayList.clear emptyList, emptyList, 0, mkTextureStreamArg 0 0,
     busConnector) /\
  m_confReg1 r =
    mkConfReg1 (enableDepthTest c1) TestFunc_LESS TestFunc_ALWAYS 15
      false true true true true /\
  m_confReg2 r =
    mkConfReg2 true TexEnvParam_MODULATE BlendFunc_ONE BlendFunc_ZERO
      (texClampS c2) (texClampT c2) /\
  (18 * sizeOf_SCT <= DISPLAY_LIST_SIZE ->
   backList r = defaults c1 c2 /\
   DisplayList.writePos (backList r) = 18 * sizeOf_SCT).
Proof.
  intros Hok r.
  destruct (Renderer_new_built busConnector c1 c2 Hok)
    as (Hws & _ & H1 & H2 & _ & Hl).
  fold r in Hws, H1, H2, Hl.
  split; [exact Hws|]. split; [exact H1|]. split; [exact H2|].
  intros Hroom. destruct (Hl Hroom) as [Hb Hw]. rewrite Hb. auto.
Qed.

(** X14: on a consistent renderer a call of [uploadDisplayList] returns:
    it dereferences no null pointer, reads no record at a type it was not
    written at, and its fill loop ends.  The renderer is consistent
    again. *)
Theorem walker_safe r :
  target_ok -> consistent r ->
  exists b r', uploadDisplayList r = Ok (b, r') /\ consistent r'.
Proof. intros Hok Hc. apply uploadDisplayList_consistent; assumption. Qed.

(** X15: on a consistent renderer a call of [uploadDisplayList] hands at
    most two things to the bus; every transfer is of at most
    [HARDWARE_BUFFER_SIZE] bytes and every index is that of a display
    line. *)
Theorem walker_sends_within_limits r b r' :
  target_ok -> consistent r ->
  uploadDisplayList r = Ok (b, r') ->
  exists evs,
    log (m_busConnector r') = log (m_busConnector r) ++ evs /\
    (length evs <= 2)%nat /\
    Forall event_ok evs.
Proof.
  intros Hok Hc E.
  destruct (uploadDisplayList_sent r Hok Hc) as (b' & r'' & E' & _ & evs & Hl & Hf).
  rewrite E in E'. injection E' as <- <-.
  exists evs. split; [exact Hl|]. split.
  - apply uploadDisplayList_Step in E as [HS _].
    assert (Hlen : forall e, log (m_busConnector r') = log (m_busConnector r) ++ e ->
                   length evs = length e).
    { intros e He. rewrite Hl in He. apply app_inv_head in He. congruence. }
    inversion HS; subst;
      try (match goal with H : log _ = log _ ++ _ |- _ =>
             rewrite (Hlen _ H); cbn; lia end).
    all: rewrite (Hlen []); [cbn; lia | rewrite app_nil_r; reflexivity].
  - exact Hf.
Qed.

(** X16: when a triangle fits the immediate of its opcode, [drawTriangle]
    on a consistent renderer returns and leaves it consistent. *)
Theorem drawTriangle_safe v0 v1 v2 st0 st1 st2 color r :
  target_ok -> sizeOf_RasterizedTriangle < 4096 -> consistent r ->
  exists ret r',
    drawTriangle v0 v1 v2 st0 st1 st2 color r = Ok (ret, r') /\ consistent r'.
Proof. intros Hok Hsz Hc. apply drawTriangle_consistent; assumption. Qed.

(** X17: [commit] on a consistent renderer has no undefined behaviour: it
    runs out of the polls it is given, or it returns and the renderer is
    consistent. *)
Theorem commit_safe (fuel : nat) r :
  target_ok -> consistent r ->
  commit fuel r = OutOfFuel \/
  exists r', commit fuel r = Ok (RVoid, r') /\ consistent r'.
Proof. intros Hok Hc. apply commit_safe_lemma; assumption. Qed.

(** X18: [commit] returns on a consistent renderer when the bus is clear
    to send from now on and an opcode with a triangle fits the upload
    list. *)
Theorem commit_returns r :
  target_ok ->
  sizeOf_SCT + sizeOf_RasterizedTriangle <= HARDWARE_BUFFER_SIZE ->
  consistent r ->
  (forall n, (polls (m_busConnector r) <= n)%nat ->
             ready (m_busConnector r) n = true) ->
  exists fuel r', commit fuel r = Ok (RVoid, r') /\ consistent r'.
Proof. intros Hok Hfit Hc Hbus. apply commit_returns_lemma; assumption. Qed.

(** X11: on a bus that never gets clear to send, every call of
    [uploadDisplayList] returns true although nothing is sent and nothing
    else changes, so [commit], once its opcode fits, waits for ever: it
    does not return, whatever the number of polls it is given. *)
Theorem commit_blocks_on_busy_bus r :
  (forall n, (polls (m_busConnector r) <= n)%nat ->
             ready (m_busConnector r) n = false) ->
  (forall n : nat,
     uploads n r =
       Ok (repeat true n,
           set_m_busConnector
             (mkBus (ready (m_busConnector r)) (n + polls (m_busConnector r))
                (log (m_busConnector r))) r)) /\
  (DisplayList.writePos (backList r) + sizeOf_SCT <= DISPLAY_LIST_SIZE ->
   forall fuel, commit fuel r = OutOfFuel).
Proof.
  intros Hbus. split.
  - intros n. apply uploads_busy. intros k _. apply Hbus. lia.
  - intros Hfit fuel. rewrite (commit_eq fuel r Hfit).
    rewrite drain_busy; [reflexivity|].
    intros n Hn. rsimpl. apply Hbus. exact Hn.
Qed.

(** X10: a call of [uploadDisplayList] never touches the back list, the
    two indices or the two registers, and it does not change what the front
    list holds; it polls the bus exactly once. *)
Theorem walker_leaves_encoder_state r b r' :
  indices_ok r ->
  uploadDisplayList r = Ok (b, r') ->
  backList r' = backList r /\
  m_frontList r' = m_frontList r /\
  m_backList r' = m_backList r /\
  m_confReg1 r' = m_confReg1 r /\
  m_confReg2 r' = m_confReg2 r /\
  DisplayList.mem (frontList r') = DisplayList.mem (frontList r) /\
  ready (m_busConnector r') = ready (m_busConnector r) /\
  polls (m_busConnector r') = S (polls (m_busConnector r)).
Proof.
  intros Hi E. apply uploadDisplayList_Step in E as [_ F].
  destruct (tick_frame_back _ _ _ Hi F) as [Hb _].
  destruct F as [Ff Fb _ F1 F2 _ Fm Fr Fp]. auto 10.
Qed.

(** X9: while pixels of a texture are left, a call of
    [uploadDisplayList] on a clear bus sends the next [HARDWARE_BUFFER_SIZE]
    bytes of the texture and nothing else, and returns true.  A texture of
    at most [n * PIXEL_INC] and more than [(n - 1) * PIXEL_INC] pixels goes
    out in exactly [n] such calls, from consecutive addresses; after them no
    pixel is left, and the front list and the display line are as
    before. *)
Theorem texture_upload_chunks (n : nat) r :
  DisplayList.state (frontList r) = DisplayList.TRANSFERRING ->
  let a := m_textureStreamArg r in
  Z.of_nat n * PIXEL_INC - PIXEL_INC < remainingPixels a
    <= Z.of_nat n * PIXEL_INC ->
  remainingPixels a < 2 ^ 31 ->
  (forall k, (k < n)%nat ->
             ready (m_busConnector r) (polls (m_busConnector r) + k) = true) ->
  exists r',
    uploads n r = Ok (repeat true n, r') /\
    log (m_busConnector r') = log (m_busConnector r) ++ chunks (pixels a) n /\
    m_textureStreamArg r' =
      mkTextureStreamArg (ptr_add (pixels a) (Z.of_nat n * PIXEL_INC))
        (remainingPixels a - Z.of_nat n * PIXEL_INC) /\
    remainingPixels (m_textureStreamArg r') <= 0 /\
    frontList r' = frontList r /\
    m_uploadIndexPosition r' = m_uploadIndexPosition r.
Proof.
  intros Hst a [Hlo Hup] Hhi Hbus.
  destruct (uploads_texture n r Hst Hlo Hhi Hbus)
    as (r' & E & Hl & Ht & Hf & Hi & _).
  exists r'. fold a in Hl, Ht. rewrite Ht. cbn [remainingPixels].
  repeat split; auto. lia.
Qed.

(** X19: when its opcode fits and [commit] returns, the list that was the
    back list is the front list, and it holds what the encoder had put
    there followed by [FRAMEBUFFER_COMMIT | FRAMEBUFFER_COLOR] at the old
    write position; the new back list is empty and [FREE]. *)
Theorem commit_hands_over (fuel : nat) r ret r' :
  target_ok -> consistent r ->
  let wp := DisplayList.writePos (backList r) in
  wp + sizeOf_SCT <= DISPLAY_LIST_SIZE ->
  commit fuel r = Ok (ret, r') ->
  m_frontList r' = m_backList r /\
  m_backList r' = m_frontList r /\
  DisplayList.mem (frontList r') =
    <[wp := CCommand (Z.lor FRAMEBUFFER_COMMIT FRAMEBUFFER_COLOR)]>
      (DisplayList.mem (backList r)) /\
  DisplayList.state (backList r') = DisplayList.FREE /\
  DisplayList.writePos (backList r') = 0 /\
  DisplayList.readPos (backList r') = 0.
Proof.
  intros Hok Hc wp Hfit E.
  destruct (commit_cases fuel r Hok Hc)
    as [[Hx _] | [_ [[_ E'] | (r2 & b & r'' & Ed & Hc2 & Hfree & Eu & E' & _)]]];
    [lia | congruence |].
  rewrite E in E'. injection E' as -> <-.
  pose proof (committing_consistent r Hok Hc Hfit) as Hc1.
  apply drain_frame in Ed as [[n F] _].
  destruct (tick_frame_back _ _ _ (co_indices _ Hc1) F) as [Hb2 _].
  destruct F as [Ff Fb _ _ _ _ _ _ _].
  destruct (swapped_spec r2 (co_indices _ Hc2) (co_back_state _ Hc2))
    as (Hi3 & Hf3 & Hb3 & Hfl3 & Hbl3 & _).
  pose proof (uploadDisplayList_Step _ _ _ Eu) as [_ F3].
  destruct (tick_frame_back _ _ _ Hi3 F3) as [Hb' _].
  destruct F3 as [Ff3 Fb3 _ _ _ _ Fm3 _ _].
  destruct (co_front_free _ Hc2 Hfree) as [Hw0 Hr0].
  assert (Hidx : m_frontList (committing r) = m_frontList r /\
                 m_backList (committing r) = m_backList r)
    by (unfold committing; rsimpl; auto).
  destruct Hidx as [Hfc Hbc].
  split; [congruence|]. split; [congruence|].
  split.
  - rewrite Fm3, Hfl3. cbn [DisplayList.set_state DisplayList.mem].
    rewrite Hb2. unfold committing. rewrite backList_set_backList. reflexivity.
  - rewrite Hb', Hbl3. auto.
Qed.

(** X20: every state that the public interface leads to from the
    constructor is consistent.  On such a state [drawTriangle] returns for
    every triangle, [commit] has no undefined behaviour, and a call of
    [uploadDisplayList] returns. *)
Theorem reachable_consistent r :
  target_ok -> sizeOf_RasterizedTriangle < 4096 ->
  reachable r ->
  consistent r /\
  (forall v0 v1 v2 st0 st1 st2 color,
     exists ret r',
       drawTriangle v0 v1 v2 st0 st1 st2 color r = Ok (ret, r') /\
       reachable r') /\
  (forall fuel, commit fuel r <> Undefined) /\
  (exists b r', uploadDisplayList r = Ok (b, r')).
Proof.
  intros Hok Hsz Hr.
  pose proof (reachable_consistent_lemma r Hok Hsz Hr) as Hc.
  split; [exact Hc|]. split; [|split].
  - intros v0 v1 v2 st0 st1 st2 color.
    destruct (drawTriangle_consistent v0 v1 v2 st0 st1 st2 color r Hok Hsz Hc)
      as (ret & r' & E & _).
    exists ret, r'. split; [exact E|]. eapply reach_drawTriangle; eauto.
  - intros fuel. destruct (commit_safe_lemma fuel r Hok Hc) as [E | (r' & E & _)];
      rewrite E; discriminate.
  - destruct (uploadDisplayList_consistent r Hok Hc) as (b & r' & E & _). eauto.
Qed.

End Coverage.

(** ** The last record of a display line *)

Section Flush.
Context `{T : Target}.
Implicit Types r : Renderer.
Implicit Types l : List.

(** The test is sound. *)
Lemma ends_withb_sound fuel : forall l c pos,
  ends_withb fuel l c pos = true -> ends_with l c pos.
Proof.
  induction fuel as [|fuel IH]; intros l c pos H; cbn [ends_withb] in H;
    [discriminate H|].
  destruct (DisplayList.load pos l) as [[op| | | | |]|] eqn:E;
    try discriminate H.
  apply orb_true_iff in H as [H | H].
  - apply andb_true_iff in H as [H H3]. apply andb_true_iff in H as [H1 H2].
    apply Z.eqb_eq in H1, H2, H3. subst op.
    apply EW_last; assumption.
  - apply andb_true_iff in H as [H1 H2].
    apply (EW_record l c pos op);
      [exact E | apply payload_okb_sound; exact H1 | apply IH; exact H2].
Qed.

(** A list that ends with [c] behind [pos] has something at [pos]. *)
Lemma ends_with_lt l c pos :
  target_ok -> ends_with l c pos -> pos < DisplayList.writePos l.
Proof.
  intros Hok H. pose proof (sizes_range Hok) as (Hs & _ & _).
  induction H as [pos _ _ Hend | pos op _ _ _ IH]; [lia|].
  pose proof (payload_size_nonneg op Hok). lia.
Qed.

(** Only the cells and the write position matter. *)
Lemma ends_with_ext l l' c pos :
  DisplayList.mem l' = DisplayList.mem l ->
  DisplayList.writePos l' = DisplayList.writePos l ->
  ends_with l c pos -> ends_with l' c pos.
Proof.
  intros Hm Hw H.
  induction H as [pos Hop Hc Hend | pos op Hop Hpay _ IH].
  - apply EW_last; [unfold DisplayList.load in *; congruence | exact Hc | congruence].
  - apply (EW_record l' c pos op);
      [unfold DisplayList.load in *; congruence
      | eapply payload_ok_ext; [exact Hm | exact Hpay] | exact IH].
Qed.

(** One turn of the fill loop on a list that ends with [c]: the next
    record is taken, and either the list still ends with [c] from the new
    read position, or [c] was that record and is now on top of the
    upload list. *)
Lemma fillStep_ends r c :
  target_ok -> filling r ->
  hasEnoughSpace HARDWARE_BUFFER_SIZE (m_displayListUpload r) = true ->
  ends_with (frontList r) c (DisplayList.readPos (frontList r)) ->
  exists leaveLoop r',
    fillStep r = Ok (Some leaveLoop, r') /\ filling r' /\
    DisplayList.readPos (frontList r) < DisplayList.readPos (frontList r') /\
    (ends_with (frontList r') c (DisplayList.readPos (frontList r')) \/
     (leaveLoop = false /\
      DisplayList.readPos (frontList r') = DisplayList.writePos (frontList r') /\
      on_top (m_displayListUpload r') c)).
Proof.
  intros Hok Hf Hroom He.
  pose proof Hf as (Hrp0 & HS & Hup & Hrem).
  pose proof (sizes_range Hok) as (Hs & Ht & Hx).
  pose proof (hasEnoughSpace_room _ Hok Hup Hroom) as Hfree.
  destruct (fillStep_total r Hok Hf Hroom)
    as [(Hend & _) | (leaveLoop & r' & E & Hf' & Hlt)].
  { pose proof (ends_with_lt _ _ _ Hok He). lia. }
  exists leaveLoop, r'. split; [exact E|]. split; [exact Hf'|]. split; [exact Hlt|].
  pose proof (fillStep_frame _ _ _ E) as [_ _ _ _ _ _ _ _ Fm Fw _].
  remember (DisplayList.readPos (frontList r)) as rp eqn:Erp.
  destruct He as [pos Hop Hc Hend | pos op Hop Hpay Htail]; subst pos.
  - right.
    destruct (fillStep_plain r c Hok Hup Hroom) as (r'' & E'' & Hr'' & _ & Hcopy & _);
      try (rewrite Hc; discriminate); try assumption; [lia|].
    rewrite E in E''. injection E'' as -> <-.
    split; [reflexivity|]. split; [lia|].
    destruct Hcopy as [Hw Hl]; [left; exact Hc|].
    unfold on_top. rewrite Hw. split; [lia|].
    replace (_ + sizeOf_SCT - sizeOf_SCT)
      with (DisplayList.writePos (m_displayListUpload r)) by lia.
    exact Hl.
  - left.
    pose proof (ends_with_lt _ _ _ Hok Htail) as Hle.
    pose proof (payload_size_nonneg op Hok) as Hps.
    rewrite (fillStep_command r op) in E by (assumption || lia).
    pose proof (filling_copied_frame op r) as [_ _ _ _ _ _ _ _ Fm0 Fw0 _].
    assert (Hrc : DisplayList.readPos (frontList (copied op r))
                  = DisplayList.readPos (frontList r) + sizeOf_SCT)
      by (unfold copied; rsimpl; reflexivity).
    assert (Huc : DisplayList.writePos (m_displayListUpload (copied op r))
                  = DisplayList.writePos (m_displayListUpload r) + sizeOf_SCT)
      by (unfold copied; rsimpl; reflexivity).
    assert (Htc : m_textureStreamArg (copied op r) = m_textureStreamArg r)
      by (unfold copied; rsimpl; reflexivity).
    destruct (switchCommand_total op (copied op r) Hok)
      as (ll & r'' & E'' & Hr'' & _ & _).
    + rewrite Huc. lia.
    + rewrite Huc. lia.
    + rewrite Hrc. eapply payload_ok_ext; [exact Fm0 | exact Hpay].
    + rewrite Hrc, Fw0. lia.
    + rewrite Htc. exact Hrem.
    + rewrite E'' in E. cbn [mbind Outcome_bind] in E. injection E as -> <-.
      rewrite Hr'', Hrc.
      eapply ends_with_ext; [exact Fm | exact Fw | exact Htail].
Qed.

(** The fill loop on a list that ends with [c]: it stops either with the
    list still ending with [c] from the read position, or at the end of
    the list with [c] on top of the upload list. *)
Lemma fillLoop_ends fuel c : forall leaveLoop r,
  target_ok -> filling r ->
  (Z.to_nat (DisplayList.writePos (frontList r)
             - DisplayList.readPos (frontList r)) < fuel)%nat ->
  ends_with (frontList r) c (DisplayList.readPos (frontList r)) \/
  (DisplayList.readPos (frontList r) = DisplayList.writePos (frontList r) /\
   on_top (m_displayListUpload r) c) ->
  exists r',
    fillLoop fuel leaveLoop r = Ok r' /\ filling r' /\
    (ends_with (frontList r') c (DisplayList.readPos (frontList r')) \/
     (DisplayList.readPos (frontList r') = DisplayList.writePos (frontList r') /\
      on_top (m_displayListUpload r') c)).
Proof.
  induction fuel as [|fuel IH]; intros leaveLoop r Hok Hf Hfuel HP; [lia|].
  cbn [fillLoop].
  destruct (negb leaveLoop
            && hasEnoughSpace HARDWARE_BUFFER_SIZE (m_displayListUpload r))
    eqn:Hc.
  2: { exists r. auto. }
  apply andb_true_iff in Hc as [_ Hroom].
  destruct HP as [He | [Hend Htop]].
  - destruct (fillStep_ends r c Hok Hf Hroom He)
      as (ll & r1 & E & Hf1 & Hlt & HP1).
    rewrite E. cbn [mbind Outcome_bind].
    pose proof Hf1 as (_ & HS1 & _).
    pose proof (Stream_le _ _ Hok HS1) as Hle1.
    pose proof (fillStep_frame _ _ _ E) as [_ _ _ _ _ _ _ _ _ Fw _].
    apply IH; try assumption; [lia|].
    destruct HP1 as [?|(_ & ? & ?)]; auto.
  - destruct (fillStep_total r Hok Hf Hroom)
      as [(_ & E) | (ll & r1 & E & Hf1 & Hlt)]; rewrite E;
      cbn [mbind Outcome_bind].
    + exists r. auto.
    + exfalso. pose proof Hf1 as (_ & HS1 & _).
      pose proof (Stream_le _ _ Hok HS1) as Hle1.
      pose proof (fillStep_frame _ _ _ E) as [_ _ _ _ _ _ _ _ _ Fw _]. lia.
Qed.

(** The transfer of one band of a list that ends with [c]. *)
Lemma transferBlock_ends r c :
  target_ok ->
  DisplayList.state (frontList r) = DisplayList.TRANSFERRING ->
  consistent r ->
  remainingPixels (m_textureStreamArg r) <= 0 ->
  ends_with (frontList r) c (DisplayList.readPos (frontList r)) ->
  exists b r',
    transferBlock r = Ok (b, r') /\
    log (m_busConnector r') =
      log (m_busConnector r) ++
        [EvStartColorBufferTransfer (m_uploadIndexPosition r);
         EvWriteData (FromUploadList (DisplayList.mem (m_displayListUpload r')))
           (DisplayList.writePos (m_displayListUpload r'))] /\
    ((b = true /\
      ends_with (frontList r') c (DisplayList.readPos (frontList r'))) \/
     (DisplayList.readPos (frontList r') = 0 /\
      on_top (m_displayListUpload r') c)).
Proof.
  intros Hok Hst Hc Hnon He.
  pose proof (sizes_range Hok) as (Hs & Ht & Hx).
  unfold transferBlock.
  destruct (Z.ltb_spec 0 (remainingPixels (m_textureStreamArg r))); [lia|].
  set (r0 := set_m_displayListUpload
               (DisplayList.clear (m_displayListUpload r)) r).
  assert (Hc0 : consistent r0).
  { apply consistent_set_upload; [|exact Hc].
    cbn. unfold HARDWARE_BUFFER_SIZE. lia. }
  assert (Hf0 : filling r0).
  { destruct Hc0 as [Ci Cbs Cbr Cbw Cbst Cfr Cfw Cfs Cfrest Cff Cu Cidx Ctex].
    repeat split; assumption || lia. }
  pose proof (Stream_le _ _ Hok (co_front_rest _ Hc0)) as Hle.
  pose proof (co_front_readPos _ Hc0) as Hrp0.
  destruct (fillLoop_ends (fillFuel r0) c false r0 Hok Hf0)
    as (r1 & E & Hf1 & HP1).
  { unfold fillFuel. lia. }
  { left. exact He. }
  rewrite E. cbn [mbind Outcome_bind].
  pose proof (fillLoop_frame _ _ _ _ E) as [_ _ Fi Fbus _ _ _ _ Fm Fw _].
  change (m_uploadIndexPosition r0) with (m_uploadIndexPosition r) in Fi.
  change (m_busConnector r0) with (m_busConnector r) in Fbus.
  match goal with |- context [set_m_busConnector ?b r1] =>
    set (r2 := set_m_busConnector b r1) end.
  assert (Hl2 : log (m_busConnector r2) =
                log (m_busConnector r) ++
                  [EvStartColorBufferTransfer (m_uploadIndexPosition r);
                   EvWriteData
                     (FromUploadList (DisplayList.mem (m_displayListUpload r1)))
                     (DisplayList.writePos (m_displayListUpload r1))]).
  { unfold r2. rsimpl. rewrite Fbus, Fi, <- app_assoc. reflexivity. }
  assert (Hfront2 : frontList r2 = frontList r1)
    by (unfold r2; rsimpl; reflexivity).
  rewrite Hfront2. unfold DisplayList.atEnd.
  destruct HP1 as [He1 | [Hend1 Htop1]].
  - pose proof (ends_with_lt _ _ _ Hok He1) as Hlt1.
    destruct (Z.eqb_spec (DisplayList.readPos (frontList r1))
                (DisplayList.writePos (frontList r1))); [lia|].
    exists true, r2. split; [reflexivity|]. split; [exact Hl2|].
    left. split; [reflexivity|]. rewrite Hfront2. exact He1.
  - rewrite Hend1, Z.eqb_refl.
    set (r3 := set_frontList (DisplayList.resetGet (frontList r1)) r2).
    assert (H3 : log (m_busConnector r3) = log (m_busConnector r2) /\
                 m_displayListUpload r3 = m_displayListUpload r1 /\
                 m_uploadIndexPosition r3 = m_uploadIndexPosition r1 /\
                 DisplayList.readPos (frontList r3) = 0).
    { unfold r3, r2. rsimpl. rewrite ?list_set_list_eq. auto. }
    destruct H3 as (Hl3 & Hu3 & Hi3 & Hr3).
    rewrite Hi3.
    destruct (m_uploadIndexPosition r1 =? 0).
    + set (r4 := set_frontList (DisplayList.clear (frontList r3)) r3).
      assert (H4 : log (m_busConnector r4) = log (m_busConnector r2) /\
                   m_displayListUpload r4 = m_displayListUpload r1 /\
                   DisplayList.readPos (frontList r4) = 0).
      { unfold r4, r3, r2. rsimpl. rewrite ?list_set_list_eq. auto. }
      destruct H4 as (Hl4 & Hu4 & Hr4).
      exists false, r4. split; [reflexivity|]. rewrite Hl4, Hu4.
      split; [exact Hl2|]. right. split; [exact Hr4 | exact Htop1].
    + set (r4 := set_m_uploadIndexPosition (u32 (m_uploadIndexPosition r1 - 1)) r3).
      assert (H4 : log (m_busConnector r4) = log (m_busConnector r2) /\
                   m_displayListUpload r4 = m_displayListUpload r1 /\
                   DisplayList.readPos (frontList r4) = 0).
      { unfold r4, r3, r2. rsimpl. rewrite ?list_set_list_eq. auto. }
      destruct H4 as (Hl4 & Hu4 & Hr4).
      exists true, r4. split; [reflexivity|]. rewrite Hl4, Hu4.
      split; [exact Hl2|]. right. split; [exact Hr4 | exact Htop1].
Qed.

(** A stream with the opcode [c] put behind it ends with [c]. *)
Lemma ends_with_extend l l' c p :
  target_ok ->
  Stream l p ->
  (forall q, q < DisplayList.writePos l ->
             DisplayList.load q l' = DisplayList.load q l) ->
  ends_with l' c (DisplayList.writePos l) ->
  ends_with l' c p.
Proof.
  intros Hok HS Hsame Hnew.
  pose proof (sizes_range Hok) as (Hs & _ & _).
  induction HS as [|pos op Hop Hpay Htail IH]; [exact Hnew|].
  pose proof (Stream_le _ _ Hok Htail) as Hle.
  pose proof (payload_size_nonneg op Hok) as Hps.
  apply (EW_record l' c pos op).
  - rewrite Hsame by lia. exact Hop.
  - destruct (Z.eq_dec (payload_size op) 0) as [Hz|Hnz].
    + apply payload_ok_empty; assumption.
    + eapply payload_ok_load; [|exact Hpay]. apply Hsame. lia.
  - exact IH.
Qed.

(** The back list with the commit opcode on it ends with that opcode. *)
Lemma committing_ends r :
  target_ok -> consistent r ->
  ends_with (backList (committing r))
    (Z.lor FRAMEBUFFER_COMMIT FRAMEBUFFER_COLOR) 0.
Proof.
  intros Hok Hc. pose proof (sizes_range Hok) as (Hs & _ & _).
  unfold committing. rewrite backList_set_backList.
  apply (ends_with_extend (backList r)); [exact Hok | apply (co_back_stream _ Hc) | |].
  - intros q Hq. unfold DisplayList.load. rsimpl.
    rewrite lookup_insert_ne by lia. reflexivity.
  - apply EW_last; [|reflexivity|reflexivity].
    unfold DisplayList.load. rsimpl. apply lookup_insert_eq.
Qed.

(** X21: a call of the walker that transfers a band of a front list ending
    with an opcode [c] of the class [FRAMEBUFFER_OP] either leaves the
    band unfinished and returns true, the rest of the front list still
    ending with [c], or finishes the band with [c] as the last record of
    the upload list it has sent: the record the hardware takes last of a
    display line is the frame's framebuffer command. *)
Theorem band_ends_with_flush r c b r' :
  target_ok -> consistent r ->
  bus_ready r = true ->
  DisplayList.state (frontList r) <> DisplayList.FREE ->
  remainingPixels (m_textureStreamArg r) <= 0 ->
  ends_with (frontList r) c (DisplayList.readPos (frontList r)) ->
  uploadDisplayList r = Ok (b, r') ->
  let u := m_displayListUpload r' in
  log (m_busConnector r') =
    log (m_busConnector r) ++
      [EvStartColorBufferTransfer (start_index r);
       EvWriteData (FromUploadList (DisplayList.mem u)) (DisplayList.writePos u)] /\
  ((b = true /\
    ends_with (frontList r') c (DisplayList.readPos (frontList r'))) \/
   (DisplayList.readPos (frontList r') = 0 /\ on_top u c)).
Proof.
  intros Hok Hc Hready Hst Hrem He E u. subst u.
  unfold uploadDisplayList, bus_ready in *. cbn [clearToSend] in E.
  rewrite Hready in E. cbn [negb] in E.
  change (set_m_busConnector _ r) with (polled r) in E.
  pose proof (queuedBlock_consistent _ Hok (consistent_polled _ Hc)) as Hq.
  destruct (queuedBlock_spec (polled r))
    as (Fq & Qbus & Qtex & Qidx & Qwp & Qrp & Qst).
  change (frontList (polled r)) with (frontList r) in *.
  change (start_index (polled r)) with (start_index r) in *.
  change (m_textureStreamArg (polled r)) with (m_textureStreamArg r) in *.
  set (q := queuedBlock (polled r)) in *.
  assert (Hsq : DisplayList.state (frontList q) = DisplayList.TRANSFERRING).
  { rewrite Qst. destruct (DisplayList.state (frontList r)); congruence. }
  rewrite Hsq in E. cbn [DisplayList.State_eqb] in E.
  destruct Fq as [_ _ _ _ _ _ Fm _ _].
  change (frontList (polled r)) with (frontList r) in Fm.
  destruct (transferBlock_ends q c Hok Hsq Hq) as (b' & r'' & E' & Hl & Hres).
  - rewrite Qtex. exact Hrem.
  - rewrite Qrp. eapply ends_with_ext; [exact Fm | exact Qwp | exact He].
  - rewrite E in E'. injection E' as <- <-.
    rewrite Hl, Qbus, Qidx. split; [reflexivity | exact Hres].
Qed.

(** X22: after a [commit] that has found room for its opcode, a front list
    that is not free again ends, from its start, with the opcode
    [FRAMEBUFFER_COMMIT | FRAMEBUFFER_COLOR] put on by that [commit]. *)
Theorem commit_queues_flush (fuel : nat) r ret r' :
  target_ok -> consistent r ->
  DisplayList.writePos (backList r) + sizeOf_SCT <= DISPLAY_LIST_SIZE ->
  commit fuel r = Ok (ret, r') ->
  DisplayList.state (frontList r') <> DisplayList.FREE ->
  ends_with (frontList r') (Z.lor FRAMEBUFFER_COMMIT FRAMEBUFFER_COLOR) 0.
Proof.
  intros Hok Hc Hfit E Hst.
  destruct (commit_cases fuel r Hok Hc)
    as [[Hx _] | [_ [[_ E'] | (r2 & b & r'' & Ed & Hc2 & Hfree & Eu & E' & _)]]];
    [lia | congruence |].
  rewrite E in E'. injection E' as -> <-.
  pose proof (committing_consistent r Hok Hc Hfit) as Hc1.
  pose proof (committing_ends r Hok Hc) as He1.
  apply drain_frame in Ed as [[n F] _].
  destruct (tick_frame_back _ _ _ (co_indices _ Hc1) F) as [Hb2 _].
  destruct (swapped_spec r2 (co_indices _ Hc2) (co_back_state _ Hc2))
    as (Hi3 & _ & _ & Hfl3 & _).
  assert (He3 : ends_with (frontList (swapped r2))
                  (Z.lor FRAMEBUFFER_COMMIT FRAMEBUFFER_COLOR) 0).
  { rewrite Hfl3, Hb2. eapply ends_with_ext; [| |exact He1]; reflexivity. }
  pose proof (uploadDisplayList_Step _ _ _ Eu) as [HS F3].
  destruct F3 as [_ _ _ _ _ _ Fm3 _ _].
  assert (Hw : DisplayList.writePos (frontList r')
               = DisplayList.writePos (frontList (swapped r2))).
  { inversion HS; subst; try reflexivity; try assumption; congruence. }
  eapply ends_with_ext; [exact Fm3 | exact Hw | exact He3].
Qed.

End Flush.

(** ** The further properties on the example target *)

(** Closing a goal about the example by running the definitions. *)
Ltac by_computation :=
  first
    [ apply (streamb_sound 40); vm_compute; reflexivity
    | vm_compute;
      first
        [ reflexivity
        | discriminate
        | split; first [reflexivity | discriminate]
        | left; split; reflexivity
        | right; split; reflexivity
        | let H := fresh in
          intros H; first [discriminate H | split; reflexivity] ] ].

Ltac example_ok := unfold target_ok; cbn; lia.

(** X1 on the renderer as constructed: the opcode of [clear] fits. *)
Lemma clear_appends_one_opcode_witness :
  fst (@clear Example.target true false Example.init) = RBool true.
Proof.
  destruct (@clear_appends_one_opcode Example.target true false Example.init)
    as [H _].
  - example_ok.
  - by_computation.
  - apply H. vm_compute. discriminate.
Defined.

(** X2 on the renderer as constructed: [setDepthMask] sends the register
    with the defaults of the constructor in its other fields. *)
Lemma register_setter_sends_whole_register_witness :
  @backList Example.target
    (snd (@call Example.target (SetDepthMask true) Example.init))
  = @appended Example.target 8194
      (CConfReg1 (mkConfReg1 false 1 7 15 true true true true true))
      (@backList Example.target Example.init).
Proof.
  destruct (@register_setter_sends_whole_register Example.target (SetDepthMask true)
              Example.init) as [H _].
  - example_ok.
  - vm_compute. repeat split; discriminate.
  - destruct H as [_ H]; [reflexivity|]. apply H. vm_compute. reflexivity.
Defined.

(** X3 on the full back list: [setDepthMask] fails, and the register has
    the new flag. *)
Lemma failed_setter_keeps_register_witness :
  fst (@call Example.target (SetDepthMask true) Example.full) = RBool false /\
  depthMask (m_confReg1 (snd (@call Example.target (SetDepthMask true)
                                 Example.full))) = true.
Proof.
  split; [vm_compute; reflexivity|].
  destruct (@failed_setter_keeps_register Example.target (SetDepthMask true)
              Example.full Example.init) as (_ & H & _).
  - example_ok.
  - vm_compute. repeat split; discriminate.
  - vm_compute. repeat split; discriminate.
  - vm_compute. reflexivity.
  - vm_compute. reflexivity.
  - vm_compute. reflexivity.
  - rewrite H. vm_compute. reflexivity.
Defined.

(** X4 on the renderer as constructed: the bus is the one it was made
    with. *)
Lemma encoder_leaves_walker_state_witness :
  m_busConnector (snd (@call Example.target (SetClearDepth 7) Example.init))
  = Example.bus_clear.
Proof.
  destruct (@encoder_leaves_walker_state Example.target Example.init) as [H _].
  - example_ok.
  - vm_compute. repeat split; discriminate.
  - by_computation.
  - pose proof (f_equal snd (H (SetClearDepth 7))) as Hb.
    unfold walker_state in Hb. cbn [snd] in Hb. rewrite Hb.
    vm_compute. reflexivity.
Defined.

(** X5 on the example target, where a triangle takes twelve bytes. *)
Lemma triangle_opcode_decodes_witness :
  Z.land (@TRIANGLE_FULL Example.target) STREAM_COMMAND_OP_MASK = 0x4000 /\
  Z.land (@TRIANGLE_FULL Example.target) STREAM_COMMAND_IMM_MASK = 12.
Proof.
  apply (@triangle_opcode_decodes Example.target).
  - example_ok.
  - vm_compute. reflexivity.
Defined.

(** X12 on the example target. *)
Lemma constructor_consistent_witness : @consistent Example.target Example.init.
Proof. apply (@constructor_consistent Example.target). example_ok. Defined.

(** X13 on the renderer as constructed. *)
Lemma encoder_keeps_consistent_witness :
  @consistent Example.target
    (snd (@clear Example.target true true Example.init)).
Proof.
  destruct (@encoder_keeps_consistent Example.target Example.init) as (_ & H & _).
  - example_ok.
  - constructor; by_computation.
  - apply H.
Defined.

(** X6 on the example target: the registers, and the eighteen records of
    four bytes. *)
Lemma constructor_state_witness :
  m_confReg1 Example.init = mkConfReg1 false 1 7 15 false true true true true /\
  DisplayList.writePos (@backList Example.target Example.init) = 72.
Proof.
  destruct (@constructor_state Example.target Example.bus_clear Example.conf1
              Example.conf2) as (_ & H1 & _ & H).
  - example_ok.
  - split; [exact H1|]. apply H. vm_compute. discriminate.
Defined.

(** X14 on the queued frame. *)
Lemma walker_safe_witness :
  exists b r',
    @uploadDisplayList Example.target Example.queued = Ok (b, r') /\
    @consistent Example.target r'.
Proof.
  apply (@walker_safe Example.target).
  - example_ok.
  - constructor; by_computation.
Defined.

(** X15 on the first call for the queued frame. *)
Lemma walker_sends_within_limits_witness :
  exists evs,
    log (m_busConnector
           (Example.result (@uploadDisplayList Example.target Example.queued)
              Example.init))
      = log (m_busConnector Example.queued) ++ evs /\
    (length evs <= 2)%nat /\
    Forall (@event_ok Example.target) evs.
Proof.
  apply (@walker_sends_within_limits Example.target Example.queued true).
  - example_ok.
  - constructor; by_computation.
  - vm_compute. reflexivity.
Defined.

(** X16 on a triangle on the rows 10 to 50. *)
Lemma drawTriangle_safe_witness :
  exists ret r',
    @drawTriangle Example.target (0, 10) (20, 50) (10, 30) tt tt tt
      Example.white Example.init = Ok (ret, r') /\
    @consistent Example.target r'.
Proof.
  apply (@drawTriangle_safe Example.target).
  - example_ok.
  - vm_compute. reflexivity.
  - constructor; by_computation.
Defined.

(** X17 on the frame of one triangle: [commit] returns within four
    polls. *)
Lemma commit_safe_witness :
  exists r',
    @commit Example.target 4 (Example.drawn Example.bus_clear)
      = Ok (RVoid, r') /\
    @consistent Example.target r'.
Proof.
  destruct (@commit_safe Example.target 4 (Example.drawn Example.bus_clear))
    as [E | H].
  - example_ok.
  - constructor; by_computation.
  - vm_compute in E. discriminate E.
  - exact H.
Defined.

(** X18 on the frame of one triangle and the bus that is always clear. *)
Lemma commit_returns_witness :
  exists fuel r',
    @commit Example.target fuel (Example.drawn Example.bus_clear)
      = Ok (RVoid, r') /\
    @consistent Example.target r'.
Proof.
  apply (@commit_returns Example.target).
  - example_ok.
  - vm_compute. discriminate.
  - constructor; by_computation.
  - intros n _. reflexivity.
Defined.

(** X11 on the bus that is never clear: a thousand polls are not enough. *)
Lemma commit_blocks_on_busy_bus_witness :
  @commit Example.target 1000 Example.stuck = OutOfFuel.
Proof.
  destruct (@commit_blocks_on_busy_bus Example.target Example.stuck) as [_ H].
  - intros n _. reflexivity.
  - apply H. vm_compute. discriminate.
Defined.

(** X10 on the first call for the queued frame. *)
Lemma walker_leaves_encoder_state_witness :
  @backList Example.target
    (Example.result (@uploadDisplayList Example.target Example.queued)
       Example.init)
  = @backList Example.target Example.queued.
Proof.
  apply (@walker_leaves_encoder_state Example.target Example.queued true).
  - by_computation.
  - vm_compute. reflexivity.
Defined.

(** X9 on a texture of 32 by 32 pixels at the address 4096: one call
    uploads it. *)
Lemma texture_upload_chunks_witness :
  exists r',
    @uploads Example.target 1 Example.uploading = Ok ([true], r') /\
    m_textureStreamArg r' = mkTextureStreamArg 6144 0.
Proof.
  destruct (@texture_upload_chunks Example.target 1 Example.uploading)
    as (r' & E & _ & Ht & _).
  - vm_compute. reflexivity.
  - vm_compute. split; [reflexivity | discriminate].
  - vm_compute. reflexivity.
  - intros k Hk. destruct k as [|k]; [vm_compute; reflexivity | lia].
  - exists r'. split; [exact E|]. rewrite Ht. vm_compute. reflexivity.
Defined.

(** X7 on the first record of the queued frame, the register that
    [setDepthFunc] sent from the constructor. *)
Lemma set_reg_step_witness :
  exists r',
    @fillStep Example.target Example.at_register = Ok (Some false, r') /\
    DisplayList.load 4 (m_displayListUpload r')
      = Some (CConfReg1 (mkConfReg1 false 1 0 0 false false false false false)).
Proof.
  destruct (@set_reg_step Example.target Example.at_register 8194
              (CConfReg1 (mkConfReg1 false 1 0 0 false false false false false)))
    as (r' & E & _ & _ & H & _).
  - example_ok.
  - vm_compute. split; discriminate.
  - vm_compute. reflexivity.
  - vm_compute. discriminate.
  - vm_compute. reflexivity.
  - vm_compute. reflexivity.
  - vm_compute. reflexivity.
  - exists r'. split; [exact E | exact H].
Defined.

(** X8 on the opcode of [clear] in the queued frame. *)
Lemma plain_opcode_step_witness :
  exists r',
    @fillStep Example.target Example.at_clear = Ok (Some false, r') /\
    DisplayList.load 0 (m_displayListUpload r') = Some (CCommand 12338).
Proof.
  destruct (@plain_opcode_step Example.target Example.at_clear 12338)
    as (r' & E & _ & _ & H & _).
  - example_ok.
  - vm_compute. split; discriminate.
  - vm_compute. reflexivity.
  - vm_compute. discriminate.
  - vm_compute. reflexivity.
  - vm_compute. discriminate.
  - vm_compute. discriminate.
  - vm_compute. discriminate.
  - exists r'. split; [exact E|]. apply H. left. vm_compute. reflexivity.
Defined.

(** X20 on the committed frame. *)
Lemma reachable_consistent_witness :
  @consistent Example.target Example.committed.
Proof.
  apply (@reachable_consistent Example.target).
  - example_ok.
  - vm_compute. reflexivity.
  - apply (@reach_commit Example.target 4 (Example.drawn Example.bus_clear) RVoid).
    + apply (@reach_drawTriangle Example.target (0, 10) (20, 50) (10, 30)
               tt tt tt Example.white
               (snd (@clear Example.target true true Example.init)) (RBool true)).
      * apply reach_clear. apply reach_new.
      * vm_compute. reflexivity.
    + vm_compute. reflexivity.
Defined.

(** X19 on the committed frame: the opcode of [commit] is at offset 92. *)
Lemma commit_hands_over_witness :
  DisplayList.mem (@frontList Example.target Example.committed) !! 92
  = Some (CCommand 12305).
Proof.
  destruct (@commit_hands_over Example.target 4 (Example.drawn Example.bus_clear)
              RVoid Example.committed) as (_ & _ & H & _).
  - example_ok.
  - constructor; by_computation.
  - vm_compute. discriminate.
  - vm_compute. reflexivity.
  - rewrite H. vm_compute. reflexivity.
Defined.

(** X21 on the example: the transfer of the lower display line of the
    queued frame has the commit opcode as its last record. *)
Lemma band_ends_with_flush_witness :
  @on_top Example.target (m_displayListUpload Example.flushed) 12305.
Proof.
  destruct (@band_ends_with_flush Example.target Example.lower 12305 false
              Example.flushed) as [_ [[H _] | [_ H]]].
  - example_ok.
  - constructor; by_computation.
  - vm_compute. reflexivity.
  - vm_compute. discriminate.
  - vm_compute. discriminate.
  - apply (ends_withb_sound 20). vm_compute. reflexivity.
  - vm_compute. reflexivity.
  - discriminate H.
  - exact H.
Defined.

(** X22 on the example: the frame queued by [commit] ends with the commit
    opcode. *)
Lemma commit_queues_flush_witness :
  @ends_with Example.target (@frontList Example.target Example.queued) 12305 0.
Proof.
  apply (@commit_queues_flush Example.target 4
           (Example.drawn (Example.bus_busy_at 2)) RVoid Example.queued).
  - example_ok.
  - constructor; by_computation.
  - vm_compute. discriminate.
  - vm_compute. reflexivity.
  - vm_compute. discriminate.
Defined.
